(** * The arcade hub's leaderboard and achievement ledger

    A shallow embedding of [git.py]: the persisted document
    ([read_save], [write_save]), the ledger helpers ([ensure_player],
    [award_achievement], [add_leaderboard_entry]) and the seven
    [play_*] functions as far as they touch the ledger and the session
    tracker.

    Python objects are dynamically typed, so the ledger is a tree of
    [value]s and every operation that Python can refuse (a missing key,
    a method that the object does not have) returns [Raise].  The
    interactive part of a game (prompts, random targets, the clock) is
    summarised by a record of what it observed; everything after that
    point follows the source statement by statement, up to and
    including the showing of the board that the play has filed into.
    The prompts of Guess the Number ([get_guess_difficulty] and the
    guessing loop) are embedded as functions of the lines typed.  No
    exception that the ledger operations raise is caught outside
    [read_save], so a [Raise] ends the run. *)

From Stdlib Require Import QArith Lqa.
From stdpp Require Import gmap strings list fin_maps pretty sorting.

Set Warnings "-register-all,-clear-no-such-hyp".
Local Open Scope Z_scope.

(** ** Values *)

(** What [json.load] can return and [json.dump] can write.  A float is
    a finite double; it is carried as the rational it denotes, which
    keeps [<] and [==] exact.  Sums and quotients of floats are
    rounded to doubles again ([fadd] and [fdiv] below). *)
Inductive value :=
| VNone
| VBool (b : bool)
| VInt (z : Z)
| VFloat (q : Q)
| VStr (s : string)
| VList (l : list value)
| VDict (d : gmap string value).

Inductive exn :=
| KeyError (k : string)
| TypeError
| AttributeError
| ValueError
| OverflowError
| EOFError.

Inductive result (A : Type) :=
| Ok (a : A)
| Raise (e : exn).
Arguments Ok {A} a.
Arguments Raise {A} e.

#[export] Instance result_ret : MRet result := λ A a, Ok a.
#[export] Instance result_bind : MBind result := λ A B f r,
  match r with Ok a => f a | Raise e => Raise e end.

Definition is_ok {A} (r : result A) : Prop := ∃ a, r = Ok a.

(** [d[k]] *)
Definition getitem (d : value) (k : string) : result value :=
  match d with
  | VDict m => match m !! k with Some v => Ok v | None => Raise (KeyError k) end
  | _ => Raise TypeError
  end.

(** [d.setdefault(k, dflt)]: the value now at [k], and [d] afterwards. *)
Definition setdefault (d : value) (k : string) (dflt : value) : result (value * value) :=
  match d with
  | VDict m => match m !! k with
               | Some v => Ok (v, d)
               | None => Ok (dflt, VDict (<[k:=dflt]> m))
               end
  | _ => Raise AttributeError
  end.

(** [d[k] = v] *)
Definition setitem (d : value) (k : string) (v : value) : result value :=
  match d with
  | VDict m => Ok (VDict (<[k:=v]> m))
  | _ => Raise TypeError
  end.

Definition is_str (k : string) (v : value) : bool :=
  match v with VStr s => bool_decide (s = k) | _ => false end.

(** [k in c] for a string [k]: a key of a dict, an element of a list, a
    substring of a string. *)
Definition contains (k : string) (c : value) : result bool :=
  match c with
  | VDict m => Ok (bool_decide (is_Some (m !! k)))
  | VList l => Ok (existsb (is_str k) l)
  | VStr s => Ok (bool_decide (is_Some (String.index 0 k s)))
  | _ => Raise TypeError
  end.

(** [l.append(x)] *)
Definition append (l : value) (x : value) : result value :=
  match l with
  | VList xs => Ok (VList (xs ++ [x]))
  | _ => Raise AttributeError
  end.

(** [l[:n]] on a list *)
Definition slice_to (l : value) (n : Z) : result value :=
  match l with
  | VList xs => Ok (VList (if decide (0 ≤ n) then take (Z.to_nat n) xs
                           else take (length xs - Z.to_nat (- n))%nat xs))
  | _ => Raise TypeError
  end.

(** ** Comparing values *)

(** The number a value is in arithmetic and in comparisons: an int, a
    float, or a bool (which is the int 0 or 1). *)
Definition as_number (v : value) : option Q :=
  match v with
  | VInt z => Some (inject_Z z)
  | VFloat q => Some q
  | VBool b => Some (if b then 1%Q else 0%Q)
  | _ => None
  end.

(** [v == w]: numbers by what they denote, strings and [None] by
    identity of content, lists item by item, dicts key by key.  It
    never raises. *)
Fixpoint value_eq (v w : value) {struct v} : bool :=
  match v, w with
  | VNone, VNone => true
  | VStr s, VStr t => bool_decide (s = t)
  | VList l, VList k =>
      (fix go (l k : list value) {struct l} : bool :=
         match l, k with
         | [], [] => true
         | x :: l, y :: k => value_eq x y && go l k
         | _, _ => false
         end) l k
  | VDict d, VDict e =>
      bool_decide (dom d = dom e) &&
      map_fold (λ k x acc, acc && match e !! k with Some y => value_eq x y | None => false end)
               true d
  | _, _ => match as_number v, as_number w with
            | Some a, Some b => Qeq_bool a b
            | _, _ => false
            end
  end.

(** [v < w] where Python defines it: between numbers; between strings
    (by code point, which for UTF-8 is the order of the bytes); between
    lists, where the first items that differ under [==] decide and a
    proper prefix is less. *)
Fixpoint value_lt (v w : value) {struct v} : bool :=
  match v, w with
  | VStr s, VStr t => String.ltb s t
  | VList l, VList k =>
      (fix go (l k : list value) {struct l} : bool :=
         match l, k with
         | [], [] => false
         | [], _ :: _ => true
         | _ :: _, [] => false
         | x :: l, y :: k => if value_eq x y then go l k else value_lt x y
         end) l k
  | _, _ => match as_number v, as_number w with
            | Some a, Some b => negb (Qle_bool b a)
            | _, _ => false
            end
  end.

(** Whether [v < w] is defined.  Where it is not ([None], a dict, a
    number against a string, ...) Python raises [TypeError]. *)
Fixpoint value_ok (v w : value) {struct v} : bool :=
  match v, w with
  | VStr _, VStr _ => true
  | VList l, VList k =>
      (fix go (l k : list value) {struct l} : bool :=
         match l, k with
         | x :: l, y :: k => if value_eq x y then go l k else value_ok x y
         | _, _ => true
         end) l k
  | _, _ => match as_number v, as_number w with
            | Some _, Some _ => true
            | _, _ => false
            end
  end.

(** ** Ordering of sort keys *)

(** What [list.sort] needs of its keys: [<], [==], and whether [<] is
    defined on two keys ([py_ok]).  The keys the games sort by are the
    values of fields and pairs of them; on a pair the first position
    where the two differ under [==] decides, and two pairs equal in
    both positions are compared without [<] being asked of any item
    (on them [py_lt] is false, as [<] is false between equal items
    wherever it is defined). *)
Class PyOrd (K : Type) := {
  py_lt : K → K → bool;
  py_eq : K → K → bool;
  py_ok : K → K → bool }.

#[export] Instance num_ord : PyOrd Q :=
  {| py_lt x y := negb (Qle_bool y x); py_eq := Qeq_bool; py_ok _ _ := true |}.

#[export] Instance value_ord : PyOrd value :=
  {| py_lt := value_lt; py_eq := value_eq; py_ok := value_ok |}.

#[export] Instance tuple_ord `{PyOrd A, PyOrd B} : PyOrd (A * B) :=
  {| py_lt p q := if py_eq p.1 q.1 then py_lt p.2 q.2 else py_lt p.1 q.1;
     py_eq p q := py_eq p.1 q.1 && py_eq p.2 q.2;
     py_ok p q := if py_eq p.1 q.1 then py_eq p.2 q.2 || py_ok p.2 q.2 else py_ok p.1 q.1 |}.

(** [list.sort] is stable: the result is the one arrangement of the
    list that is ascending by key and keeps elements with equal keys in
    their former order.  Insertion from the left, each element going
    behind the elements that are not greater, computes it.

    A sort of two or more elements ends well exactly when [<] is
    defined between every two of the keys: the comparisons made are
    among these, and a sort that has not compared across two keys on
    which [<] is not defined cannot have placed them.  Otherwise it
    ends with the [TypeError] of the comparison it ran into. *)
Section sort.
Context `{PyOrd K}.

Fixpoint insert_keyed (x : K * value) (l : list (K * value)) : list (K * value) :=
  match l with
  | [] => [x]
  | y :: l' => if py_lt x.1 y.1 then x :: l else y :: insert_keyed x l'
  end.

Definition sort_keyed (l : list (K * value)) : list (K * value) :=
  foldl (λ acc x, insert_keyed x acc) [] l.

(** [<] is defined between every two keys of the list. *)
Fixpoint all_ok (l : list (K * value)) : bool :=
  match l with
  | [] => true
  | x :: l => forallb (λ y, py_ok x.1 y.1) l && all_ok l
  end.

(** The keys are computed first, one call of [sort_fn] per element. *)
Fixpoint decorate (sort_fn : value → result K) (l : list value) : result (list (K * value)) :=
  match l with
  | [] => Ok []
  | v :: l' => k ← sort_fn v; kl ← decorate sort_fn l'; mret ((k, v) :: kl)
  end.

(** [l.sort(key=sort_fn)] *)
Definition list_sort (sort_fn : value → result K) (l : value) : result value :=
  match l with
  | VList xs =>
      kl ← decorate sort_fn xs;
      if all_ok kl then mret (VList (sort_keyed kl).*2) else Raise TypeError
  | _ => Raise AttributeError
  end.
End sort.

(** ** The process and its surroundings *)

(** [highscores.json]: not there, there but rejected by [json.load], or
    holding a document.  [open(..., "w")] is taken to succeed. *)
Inductive file :=
| Absent
| Garbled
| Stored (doc : value).

(** [notices] collects the lines [award_achievement] prints. *)
Record world := World { disk : file; notices : list string }.

Definition M (A : Type) : Type := world → result (A * world).

#[export] Instance M_ret : MRet M := λ A a w, Ok (a, w).
#[export] Instance M_bind : MBind M := λ A B f m w,
  match m w with Ok (a, w') => f a w' | Raise e => Raise e end.

Definition lift {A} (r : result A) : M A :=
  λ w, match r with Ok a => Ok (a, w) | Raise e => Raise e end.

Definition print (line : string) : M unit :=
  λ w, Ok (tt, World (disk w) (notices w ++ [line])).

Definition TOP_N : Z := 100.

Definition GAME_KEYS : list string :=
  ["guess_the_number"; "reaction_game"; "gibberish_typing"; "number_memory";
   "sequence_tap"; "word_memory"; "math_speed"]%string.

Definition dict (l : list (string * value)) : value := VDict (list_to_map l).

Definition BASE_SAVE : value :=
  dict [("leaderboards", dict [("guess_the_number", dict []);
                               ("reaction_game", dict []);
                               ("gibberish_typing", dict []);
                               ("number_memory", dict []);
                               ("sequence_tap", dict []);
                               ("word_memory", dict []);
                               ("math_speed", dict [])]);
        ("players", dict [])]%string.

(** ** The store *)

Definition write_save (data : value) : M unit :=
  λ w, Ok (tt, World (Stored data) (notices w)).

(** The part of [read_save] after the document is in hand: the three
    [setdefault] steps.  [for key in BASE_SAVE["leaderboards"]] visits
    [GAME_KEYS]. *)
Definition ensure_keys (data : value) : result value :=
  '(boards, data) ← setdefault data "leaderboards" (dict []);
  boards ← foldl (λ acc key, b ← acc; '(_, b) ← setdefault b key (dict []); mret b)
                 (Ok boards) GAME_KEYS;
  data ← setitem data "leaderboards" boards;
  '(_, data) ← setdefault data "players" (dict []);
  mret data.

Definition read_save : M value :=
  λ w, match disk w with
       | Absent => (write_save BASE_SAVE;; mret BASE_SAVE) w
       | Garbled => lift (ensure_keys BASE_SAVE) w
       | Stored doc => lift (ensure_keys doc) w
       end.

(** ** Ledger helpers *)

Definition new_player : value :=
  dict [("achievements", VList []); ("games_played", VInt 0)]%string.

Definition ensure_player (data : value) (name : string) : result value :=
  '(players, data) ← setdefault data "players" (dict []);
  known ← contains name players;
  if negb known then
    players ← setitem players name new_player;
    setitem data "players" players
  else mret data.

(** The line printed on an unlock (the colour prefix is left out). *)
Definition unlocked_line (ach_name : string) : string :=
  ("🏆 Achievement unlocked: " ++ ach_name ++ "!")%string.

Definition award_achievement (data : value) (player ach_key ach_name : string) : M value :=
  data ← lift (ensure_player data player);
  players ← lift (getitem data "players");
  player_data ← lift (getitem players player);
  achievements ← lift (getitem player_data "achievements");
  held ← lift (contains ach_key achievements);
  if negb held then
    achievements ← lift (append achievements (VStr ach_key));
    player_data ← lift (setitem player_data "achievements" achievements);
    players ← lift (setitem players player player_data);
    data ← lift (setitem data "players" players);
    print (unlocked_line ach_name);;
    write_save data;;
    mret data
  else mret data.

(** [mode_key] reaches [add_leaderboard_entry] as a string or as an
    int; [str] leaves the one alone and writes the other in decimal. *)
Inductive modekey :=
| MStr (s : string)
| MInt (n : Z).

Definition py_str (mode_key : modekey) : string :=
  match mode_key with MStr s => s | MInt n => pretty n end.

Definition add_leaderboard_entry `{PyOrd K} (data : value) (game_key : string)
    (mode_key : modekey) (entry : value) (sort_fn : value → result K)
    (top_n : Z) : M value :=
  boards ← lift (getitem data "leaderboards");
  '(lbs, boards) ← lift (setdefault boards game_key (dict []));
  '(lb, lbs) ← lift (setdefault lbs (py_str mode_key) (VList []));
  lb ← lift (append lb entry);
  lb ← lift (list_sort sort_fn lb);
  top ← lift (slice_to lb top_n);
  lbs ← lift (setitem lbs (py_str mode_key) top);
  boards ← lift (setitem boards game_key lbs);
  data ← lift (setitem data "leaderboards" boards);
  write_save data;;
  mret data.

(** ** Achievements catalog *)

Definition ACH_LIST : gmap string string :=
  list_to_map
    [("gtn_first_try", "Lucky First Guess (1 attempt)");
     ("gtn_speed_demon", "Speed Demon (<5s)");
     ("gtn_sniper", "Sniper (<3 attempts)");
     ("gtn_persistent", "Persistent (20+ attempts)");
     ("gtn_iron_streak_5", "Iron Streak — 5 wins in a row");
     ("gtn_nightmare", "Impossible Odds — Beat Nightmare range");
     ("rx_lightning", "Lightning Reflexes (<0.200s single)");
     ("rx_consistent", "Consistent Pro (all <0.500s)");
     ("rx_marathon", "Marathon Reflexes (complete 25 rounds)");
     ("gt_perfect_accuracy", "Perfect Accuracy (100%)");
     ("gt_typing_machine", "Typing Machine (<1s/word avg)");
     ("gt_flawless_streak3", "Flawless Streak — 3 perfects in a row");
     ("nm_brain_of_steel", "Brain of Steel (10-digit recall)");
     ("nm_flash_recall", "Flash Recall (5 in a row)");
     ("st_pattern_pro", "Pattern Pro (complete 20-step)");
     ("wm_word_wizard", "Word Wizard (15 words)");
     ("ms_lightning_calc", "Lightning Calculator (20 in <30s)");
     ("ms_math_genius", "Math Genius (perfect on 50)");
     ("cg_triple_threat", "Triple Threat (play all 3 different games in session)");
     ("cg_grinder_50", "Grinder (50 total games)");
     ("cg_century_100", "Century Club (100 total games)");
     ("cg_top10", "Top 10 Glory");
     ("cg_champion", "Champion (#1 on any leaderboard)");
     ("cg_collector_10", "Collector (10 achievements)");
     ("cg_collector_20", "Master Collector (20 achievements)")]%string.

(** ** Player session *)

Record SessionTracker := Session {
  player : option string;
  games_this_session : gset string;
  consecutive_gtn_wins : Z;
  perfect_gibberish_streak : Z;
  total_games_played : Z }.

Definition SessionTracker_init (p : option string) : SessionTracker :=
  Session p ∅ 0 0 0.

Definition set_player (p : string) (s : SessionTracker) : SessionTracker :=
  Session (Some p) (games_this_session s) (consecutive_gtn_wins s)
          (perfect_gibberish_streak s) (total_games_played s).
Definition add_game (g : string) (s : SessionTracker) : SessionTracker :=
  Session (player s) ({[g]} ∪ games_this_session s) (consecutive_gtn_wins s)
          (perfect_gibberish_streak s) (total_games_played s).
Definition set_gtn_wins (n : Z) (s : SessionTracker) : SessionTracker :=
  Session (player s) (games_this_session s) n
          (perfect_gibberish_streak s) (total_games_played s).
Definition set_gibberish_streak (n : Z) (s : SessionTracker) : SessionTracker :=
  Session (player s) (games_this_session s) (consecutive_gtn_wins s)
          n (total_games_played s).
Definition set_total (n : Z) (s : SessionTracker) : SessionTracker :=
  Session (player s) (games_this_session s) (consecutive_gtn_wins s)
          (perfect_gibberish_streak s) n.

(** [award_achievement(...)] under an [if]. *)
Definition award_if (c : bool) (data : value) (p ach_key : string) : M value :=
  if c then award_achievement data p ach_key (ACH_LIST !!! ach_key) else mret data.

(** ** Arithmetic on floats *)

(** A [float] is a double: [VFloat] holds its value, a rational.  The
    sum or quotient of two doubles is the double nearest to the exact
    result, the one with the even significand when two are equally
    near.  [round64] finds it: [ulp_exponent] is the exponent of the
    last place for the size of the number (52 places below its leading
    bit, from -1074 on for subnormals), and the number is rounded to a
    multiple of that power of two.  Times are readings of the clock; a
    result beyond the largest double, which Python turns into [inf], is
    outside what [VFloat] holds. *)
Definition round_half_even (n d : Z) : Z :=
  let q := n / d in
  match 2 * (n mod d) ?= d with
  | Lt => q
  | Gt => q + 1
  | Eq => if Z.even q then q else q + 1
  end.

Definition ulp_exponent (n d : Z) : Z :=
  let l := Z.log2 n - Z.log2 d in
  let l := if (if 0 <=? l then d * 2 ^ l <=? n else d <=? n * 2 ^ (- l)) then l else l - 1 in
  Z.max (l - 52) (-1074).

Definition round64 (q : Q) : Q :=
  let n := Qnum q in
  let d := Zpos (Qden q) in
  if n =? 0 then 0%Q
  else
    let e := ulp_exponent (Z.abs n) d in
    let m := if 0 <=? e then round_half_even (Z.abs n) (d * 2 ^ e)
             else round_half_even (Z.abs n * 2 ^ (- e)) d in
    let m := Z.sgn n * m in
    Qred (if 0 <=? e then inject_Z (m * 2 ^ e) else Qmake m (Z.to_pos (2 ^ (- e)))).

(** [x + y] and [x / y] on floats *)
Definition fadd (x y : Q) : Q := round64 (x + y).
Definition fdiv (x y : Q) : Q := round64 (x / y).

(** [-x]: on an int, a float or a bool (which gives an int). *)
Definition neg (v : value) : result value :=
  match v with
  | VInt z => Ok (VInt (- z))
  | VFloat q => Ok (VFloat (- q))
  | VBool b => Ok (VInt (if b then -1 else 0))
  | _ => Raise TypeError
  end.

(** ** Showing a board *)

(** The two [get] calls with which [show_leaderboard_generic] fetches
    a board; an unseen game or mode reads as empty. *)
Definition dict_get (d : value) (k : string) (dflt : value) : result value :=
  match d with
  | VDict m => Ok (default dflt (m !! k))
  | _ => Raise AttributeError
  end.

Definition read_board (data : value) (game_key : string) (mode_key : modekey) : result value :=
  boards ← getitem data "leaderboards";
  lbs ← dict_get boards game_key (dict []);
  dict_get lbs (py_str mode_key) (VList []).

(** [not lb] *)
Definition falsy (v : value) : bool :=
  match v with
  | VNone => true
  | VBool b => negb b
  | VInt z => bool_decide (z = 0)
  | VFloat q => Qeq_bool q 0
  | VStr s => bool_decide (s = ""%string)
  | VList l => bool_decide (length l = 0%nat)
  | VDict m => bool_decide (dom m = ∅)
  end.

(** [format(x, ".2f")] and [format(x, ".3f")]: a float, and an int or
    bool that converts to a float, are printed; a string is refused
    with [ValueError], an int too large for a float with
    [OverflowError], anything else with [TypeError]. *)
Definition format_f (v : value) : result unit :=
  match v with
  | VFloat _ | VBool _ => Ok ()
  | VInt z => if Z.abs z <? 2 ^ 1024 - 2 ^ 970 then Ok () else Raise OverflowError
  | VStr _ => Raise ValueError
  | _ => Raise TypeError
  end.

(** [for i, e in enumerate(lb, 1): print(fmt_fn(i, e))].  The lines go
    to the screen and are not kept; of [fmt_fn] the model keeps the
    look-ups it makes, in their order, and what they raise. *)
Fixpoint show_entries (fmt_fn : value → result unit) (lb : list value) : result unit :=
  match lb with
  | [] => Ok ()
  | e :: lb => fmt_fn e;; show_entries fmt_fn lb
  end.

(** A board that is not a list is gone through all the same when it
    is not empty: the characters of a string and the keys of a dict
    are strings, on which [e['name']] raises [TypeError], as does the
    loop itself over a number. *)
Definition show_leaderboard_generic (data : value) (game_key : string) (mode_key : modekey)
    (fmt_fn : value → result unit) : result unit :=
  lb ← read_board data game_key mode_key;
  if falsy lb then Ok ()
  else match lb with
       | VList es => show_entries fmt_fn es
       | _ => Raise TypeError
       end.

(** [f"{i}. {e['name']} — {e['total_time']:.3f}s"], the [fmt] of the
    Reaction Game, Gibberish Typing, Sequence Tap and Math Speed Run
    boards. *)
Definition time_fmt (e : value) : result unit :=
  _ ← getitem e "name"; t ← getitem e "total_time"; format_f t.

(** ** Guess the Number *)

(** A line typed at a prompt, as far as the code looks at it: the text
    left by [strip], and what [int] makes of it ([None] when [int]
    raises [ValueError]). *)
Record line := Line { stripped : string; as_int : option Z }.

(** The [ranges] table of the seven fixed difficulties. *)
Definition ranges : gmap string (Z * Z) :=
  list_to_map [("1", (1, 20)); ("2", (1, 50)); ("3", (1, 100)); ("4", (1, 250));
               ("5", (1, 500)); ("6", (1, 1000)); ("7", (1, 5000))]%string.

(** [get_guess_difficulty] on the lines still to be read: the mode key,
    the range and the lines left.  A choice that is not 1 to 8 asks
    again; under choice 8 a line that is no integer, or bounds that do
    not pass the test, ask again from the top (the bare [except] there
    also takes the [EOFError] of an empty input, which the next
    [input] then raises for good). *)
Fixpoint get_guess_difficulty (lines : list line) : result (string * (Z * Z) * list line) :=
  match lines with
  | [] => Raise EOFError
  | l :: rest =>
    let ch := stripped l in
    match ranges !! ch with
    | Some r => Ok (ch, r, rest)
    | None =>
      if bool_decide (ch = "8"%string) then
        match rest with
        | [] => Raise EOFError
        | lo :: rest =>
          match as_int lo with
          | None => get_guess_difficulty rest
          | Some low =>
            match rest with
            | [] => Raise EOFError
            | hi :: rest =>
              match as_int hi with
              | None => get_guess_difficulty rest
              | Some high =>
                if bool_decide (1 ≤ low) && bool_decide (low < high)
                then Ok (("custom_" ++ pretty low ++ "_" ++ pretty high)%string,
                         (low, high), rest)
                else get_guess_difficulty rest
              end
            end
          end
        end
      else get_guess_difficulty rest
    end
  end.

(** The guessing loop of [play_guess_the_number]: the number of
    attempts when the target is hit, and the lines left.  A line that
    is no integer is asked for again and does not count; a guess
    outside the range counts. *)
Fixpoint guess_loop (lines : list line) (min_n max_n target attempts : Z)
    : result (Z * list line) :=
  match lines with
  | [] => Raise EOFError
  | l :: rest =>
    match as_int l with
    | None => guess_loop rest min_n max_n target attempts
    | Some g =>
      let attempts := attempts + 1 in
      if bool_decide (g < min_n) || bool_decide (max_n < g)
      then guess_loop rest min_n max_n target attempts
      else if bool_decide (g < target) then guess_loop rest min_n max_n target attempts
      else if bool_decide (target < g) then guess_loop rest min_n max_n target attempts
      else Ok (attempts, rest)
    end
  end.

(** What one finished game hands over: the name entered, the mode key
    from [get_guess_difficulty], the number of guesses, the seconds
    taken and the clock reading of [now_ts]. *)
Record guess_run := GuessRun {
  gn_player : string; gn_mode_key : string; gn_attempts : Z;
  gn_elapsed : Q; gn_ts : Z }.

(** [lambda r: (r["attempts"], r["time"])] *)
Definition guess_sort_fn (r : value) : result (value * value) :=
  a ← getitem r "attempts"; t ← getitem r "time"; mret (a, t).

(** [f"{i}. {e['name']} — {e['attempts']} attempts, {e['time']:.2f}s"] *)
Definition guess_fmt (e : value) : result unit :=
  _ ← getitem e "name"; _ ← getitem e "attempts"; t ← getitem e "time"; format_f t.

Definition show_guess_leaderboard (data : value) (mode_key : modekey) : result unit :=
  show_leaderboard_generic data "guess_the_number" mode_key guess_fmt.

Definition play_guess_the_number (o : guess_run) (data : value)
    (session : SessionTracker) : M (value * SessionTracker) :=
  let p := gn_player o in
  let attempts := gn_attempts o in
  let elapsed := gn_elapsed o in
  data ← lift (ensure_player data p);
  let session := set_player p session in
  data ← award_if (bool_decide (attempts = 1)) data p "gtn_first_try";
  data ← award_if (py_lt elapsed 5%Q) data p "gtn_speed_demon";
  data ← award_if (bool_decide (attempts < 3)) data p "gtn_sniper";
  data ← award_if (bool_decide (20 ≤ attempts)) data p "gtn_persistent";
  data ← award_if (bool_decide (gn_mode_key o = "7"%string)) data p "gtn_nightmare";
  let session := add_game "guess" session in
  let session := set_total (total_games_played session + 1) session in
  let session := set_gtn_wins (consecutive_gtn_wins session + 1) session in
  data ← award_if (bool_decide (5 ≤ consecutive_gtn_wins session)) data p "gtn_iron_streak_5";
  let entry := dict [("name", VStr p); ("attempts", VInt attempts);
                     ("time", VFloat elapsed); ("ts", VInt (gn_ts o))]%string in
  data ← add_leaderboard_entry data "guess_the_number" (MStr (gn_mode_key o)) entry
           guess_sort_fn TOP_N;
  lift (show_guess_leaderboard data (MStr (gn_mode_key o)));;
  mret (data, session).

(** ** Reaction Game *)

Definition REACTION_MODES : list Z := [2; 3; 5; 7; 10; 15; 25].

(** [rx_times] are the reaction times of the rounds played, in order. *)
Record reaction_run := ReactionRun {
  rx_player : string; rx_rounds : Z; rx_times : list Q; rx_ts : Z }.

(** [lambda r: r["total_time"]] *)
Definition time_sort_fn (r : value) : result value := getitem r "total_time".

Definition show_reaction_leaderboard (data : value) (rounds : Z) : result unit :=
  show_leaderboard_generic data "reaction_game" (MInt rounds) time_fmt.

(** The body of the round loop, on [(total, per_round, any_below_200,
    all_below_500)].  The literal [0.2] is the double nearest to 2/10;
    [0.5] is a double. *)
Definition reaction_round (st : Q * list Q * bool * bool) (dt : Q) : Q * list Q * bool * bool :=
  let '(total, per_round, any_below_200, all_below_500) := st in
  (fadd total dt, per_round ++ [dt],
   if py_lt dt (round64 (2 # 10)) then true else any_below_200,
   if negb (py_lt dt (5 # 10)%Q) then false else all_below_500).

Definition play_reaction (o : reaction_run) (data : value)
    (session : SessionTracker) : M (value * SessionTracker) :=
  let p := rx_player o in
  let rounds := rx_rounds o in
  data ← lift (ensure_player data p);
  let session := set_player p session in
  let '(total, per_round, any_below_200, all_below_500) :=
    foldl reaction_round (0%Q, [], false, true) (rx_times o) in
  data ← award_if any_below_200 data p "rx_lightning";
  data ← award_if all_below_500 data p "rx_consistent";
  data ← award_if (bool_decide (rounds = 25)) data p "rx_marathon";
  let session := add_game "reaction" session in
  let session := set_total (total_games_played session + 1) session in
  let entry := dict [("name", VStr p); ("total_time", VFloat total);
                     ("per_round", VList (VFloat <$> per_round));
                     ("ts", VInt (rx_ts o))]%string in
  data ← add_leaderboard_entry data "reaction_game" (MStr (pretty rounds)) entry
           time_sort_fn TOP_N;
  lift (show_reaction_leaderboard data rounds);;
  mret (data, session).

(** ** Gibberish Typing *)

Definition GIB_MODES : list Z := [5; 10; 15; 20; 25; 30; 35; 40].

(** The words shown, the words typed back ([typed.split()]), the
    seconds taken. *)
Record gibberish_run := GibberishRun {
  gb_player : string; gb_words : Z; gb_targets : list string;
  gb_typed_tokens : list string; gb_elapsed : Q; gb_ts : Z }.

Definition show_gibberish_leaderboard (data : value) (words : Z) : result unit :=
  show_leaderboard_generic data "gibberish_typing" (MStr (pretty words)) time_fmt.

(** In [elapsed / max(1, words)] the int becomes a float first. *)
Definition play_gibberish (o : gibberish_run) (data : value)
    (session : SessionTracker) : M (value * SessionTracker) :=
  let p := gb_player o in
  let words := gb_words o in
  let elapsed := gb_elapsed o in
  data ← lift (ensure_player data p);
  let session := set_player p session in
  let perfect := bool_decide (gb_typed_tokens o = gb_targets o) in
  let session := add_game "gibberish" session in
  let session := set_total (total_games_played session + 1) session in
  if perfect then
    data ← award_if true data p "gt_perfect_accuracy";
    let avg := fdiv elapsed (round64 (inject_Z (Z.max 1 words))) in
    data ← award_if (py_lt avg 1%Q) data p "gt_typing_machine";
    _ ← lift (players ← getitem data "players"; getitem players p);
    let session := set_gibberish_streak (perfect_gibberish_streak session + 1) session in
    data ← award_if (bool_decide (3 ≤ perfect_gibberish_streak session)) data p
             "gt_flawless_streak3";
    let entry := dict [("name", VStr p); ("total_time", VFloat elapsed);
                       ("words", VInt words); ("ts", VInt (gb_ts o))]%string in
    data ← add_leaderboard_entry data "gibberish_typing" (MStr (pretty words)) entry
             time_sort_fn TOP_N;
    lift (show_gibberish_leaderboard data words);;
    mret (data, session)
  else
    let session := set_gibberish_streak 0 session in
    mret (data, session).

(** ** Number Memory *)

Definition NM_MODES : gmap string string :=
  list_to_map [("1", "easy_2"); ("2", "normal_4"); ("3", "hard_6")]%string.

(** One trip round the [while True] loop: the number shown, the answer
    typed and the seconds the answer took. *)
Record nm_round := NmRound { nm_shown : string; nm_answer : string; nm_dt : Q }.

Record number_memory_run := NumberMemoryRun {
  nm_player : string; nm_mode_choice : string; nm_rounds : list nm_round; nm_ts : Z }.

(** [lambda r: (-r["max_length"], r["total_time"])] *)
Definition number_memory_sort_fn (r : value) : result (value * value) :=
  a ← getitem r "max_length"; a ← neg a;
  t ← getitem r "total_time";
  mret (a, t).

(** [f"{i}. {e['name']} — length {e['max_length']}, time {e['total_time']:.3f}s"] *)
Definition number_memory_fmt (e : value) : result unit :=
  _ ← getitem e "name"; _ ← getitem e "max_length"; t ← getitem e "total_time"; format_f t.

Definition show_number_memory_leaderboard (data : value) (mode_key : modekey) : result unit :=
  show_leaderboard_generic data "number_memory" mode_key number_memory_fmt.

(** The loop, on [max_len], [total_time] and [round_no].  When the
    answers run out before a wrong one, [input] has nothing to read. *)
Fixpoint number_memory_loop (rounds : list nm_round) (p mode_choice : string) (ts : Z)
    (max_len : Z) (total_time : Q) (round_no : Z) (data : value)
    (session : SessionTracker) : M (value * SessionTracker) :=
  match rounds with
  | [] => λ _, Raise EOFError
  | r :: rounds =>
    let round_no := round_no + 1 in
    let total_time := fadd total_time (nm_dt r) in
    if bool_decide (nm_answer r = nm_shown r) then
      let max_len := max_len + 1 in
      data ← award_if (bool_decide (10 ≤ max_len - 1)) data p "nm_brain_of_steel";
      data ← award_if (bool_decide (5 ≤ round_no)) data p "nm_flash_recall";
      let session := set_total (total_games_played session + 1) session in
      number_memory_loop rounds p mode_choice ts max_len total_time round_no data session
    else
      let achieved := max_len - 1 in
      let entry := dict [("name", VStr p); ("max_length", VInt achieved);
                         ("total_time", VFloat total_time); ("ts", VInt ts)]%string in
      data ← add_leaderboard_entry data "number_memory" (MStr mode_choice) entry
               number_memory_sort_fn TOP_N;
      lift (show_number_memory_leaderboard data (MStr mode_choice));;
      mret (data, session)
  end.

Definition play_number_memory (o : number_memory_run) (data : value)
    (session : SessionTracker) : M (value * SessionTracker) :=
  let p := nm_player o in
  let mode_choice := nm_mode_choice o in
  data ← lift (ensure_player data p);
  let session := set_player p session in
  let start_len := if bool_decide (mode_choice = "easy_2"%string) then 2
                   else if bool_decide (mode_choice = "normal_4"%string) then 4 else 6 in
  number_memory_loop (nm_rounds o) p mode_choice (nm_ts o) start_len 0%Q 0 data session.

(** ** Sequence Tap *)

Definition SEQ_MODES : list Z := [5; 10; 15; 20].

(** The characters shown and the line typed back (stripped and in
    upper case). *)
Record sequence_tap_run := SequenceTapRun {
  st_player : string; st_steps : Z; st_seq : list string;
  st_typed : string; st_elapsed : Q; st_ts : Z }.

Definition show_sequence_leaderboard (data : value) (steps : Z) : result unit :=
  show_leaderboard_generic data "sequence_tap" (MStr (pretty steps)) time_fmt.

Definition play_sequence_tap (o : sequence_tap_run) (data : value)
    (session : SessionTracker) : M (value * SessionTracker) :=
  let p := st_player o in
  let steps := st_steps o in
  data ← lift (ensure_player data p);
  let session := set_player p session in
  let expected := String.concat "" (st_seq o) in
  let correct := bool_decide (st_typed o = expected) in
  data ← (if correct then
            data ← award_if (bool_decide (steps = 20)) data p "st_pattern_pro";
            let entry := dict [("name", VStr p); ("total_time", VFloat (st_elapsed o));
                               ("ts", VInt (st_ts o))]%string in
            data ← add_leaderboard_entry data "sequence_tap" (MStr (pretty steps)) entry
                     time_sort_fn TOP_N;
            lift (show_sequence_leaderboard data steps);;
            mret data
          else mret data);
  let session := set_total (total_games_played session + 1) session in
  mret (data, session).

(** ** Word Memory Chain *)

Definition WM_MODES : list Z := [5; 10; 15].

(** The words shown and the words typed back (lower case, split). *)
Record word_memory_run := WordMemoryRun {
  wm_player : string; wm_words_count : Z; wm_words : list string;
  wm_typed : list string; wm_elapsed : Q; wm_ts : Z }.

(** [lambda r: (-r["correct"], r["total_time"])] *)
Definition word_memory_sort_fn (r : value) : result (value * value) :=
  c ← getitem r "correct"; c ← neg c;
  t ← getitem r "total_time";
  mret (c, t).

(** [f"{i}. {e['name']} — {e['correct']}/{words_count} correct, {e['total_time']:.3f}s"] *)
Definition word_memory_fmt (e : value) : result unit :=
  _ ← getitem e "name"; _ ← getitem e "correct"; t ← getitem e "total_time"; format_f t.

Definition show_word_memory_leaderboard (data : value) (words_count : Z) : result unit :=
  show_leaderboard_generic data "word_memory" (MStr (pretty words_count)) word_memory_fmt.

Definition play_word_memory (o : word_memory_run) (data : value)
    (session : SessionTracker) : M (value * SessionTracker) :=
  let p := wm_player o in
  let words_count := wm_words_count o in
  data ← lift (ensure_player data p);
  let session := set_player p session in
  let correct_count :=
    Z.of_nat (length (filter (λ ab, ab.1 = ab.2) (zip (wm_words o) (wm_typed o)))) in
  let session := set_total (total_games_played session + 1) session in
  data ← award_if (bool_decide (correct_count = words_count) && bool_decide (15 ≤ words_count))
           data p "wm_word_wizard";
  let entry := dict [("name", VStr p); ("correct", VInt correct_count);
                     ("total_time", VFloat (wm_elapsed o)); ("ts", VInt (wm_ts o))]%string in
  data ← add_leaderboard_entry data "word_memory" (MStr (pretty words_count)) entry
           word_memory_sort_fn TOP_N;
  lift (show_word_memory_leaderboard data words_count);;
  mret (data, session).

(** ** Math Speed Run *)

Definition MATH_MODES : list Z := [10; 20; 30; 50].

Record math_speed_run := MathSpeedRun {
  ms_player : string; ms_problems : Z; ms_elapsed : Q; ms_ts : Z }.

Definition show_math_speed_leaderboard (data : value) (problems : Z) : result unit :=
  show_leaderboard_generic data "math_speed" (MStr (pretty problems)) time_fmt.

Definition play_math_speed (o : math_speed_run) (data : value)
    (session : SessionTracker) : M (value * SessionTracker) :=
  let p := ms_player o in
  let problems := ms_problems o in
  let elapsed := ms_elapsed o in
  data ← lift (ensure_player data p);
  let session := set_player p session in
  data ← award_if (bool_decide (20 ≤ problems) && py_lt elapsed 30%Q) data p "ms_lightning_calc";
  data ← award_if (bool_decide (problems = 50)) data p "ms_math_genius";
  let session := set_total (total_games_played session + 1) session in
  let entry := dict [("name", VStr p); ("total_time", VFloat elapsed);
                     ("problems", VInt problems); ("ts", VInt (ms_ts o))]%string in
  data ← add_leaderboard_entry data "math_speed" (MStr (pretty problems)) entry
           time_sort_fn TOP_N;
  lift (show_math_speed_leaderboard data problems);;
  mret (data, session).

(** ** Main menu *)

(** Menu choices 1 to 7 with what the game then observed. *)
Inductive play :=
| GuessTheNumber (o : guess_run)
| Reaction (o : reaction_run)
| Gibberish (o : gibberish_run)
| NumberMemory (o : number_memory_run)
| SequenceTap (o : sequence_tap_run)
| WordMemory (o : word_memory_run)
| MathSpeed (o : math_speed_run).

Definition play_game (c : play) (data : value) (session : SessionTracker)
    : M (value * SessionTracker) :=
  match c with
  | GuessTheNumber o => play_guess_the_number o data session
  | Reaction o => play_reaction o data session
  | Gibberish o => play_gibberish o data session
  | NumberMemory o => play_number_memory o data session
  | SequenceTap o => play_sequence_tap o data session
  | WordMemory o => play_word_memory o data session
  | MathSpeed o => play_math_speed o data session
  end.

(** The menu loop over a run of game choices. *)
Fixpoint play_all (cs : list play) (data : value) (session : SessionTracker)
    : M (value * SessionTracker) :=
  match cs with
  | [] => mret (data, session)
  | c :: cs => '(data, session) ← play_game c data session; play_all cs data session
  end.

(** [main_menu] for a session that plays [cs] and then leaves with 0. *)
Definition main_menu (cs : list play) : M (value * SessionTracker) :=
  data ← read_save;
  '(data, session) ← play_all cs data (SessionTracker_init None);
  write_save data;;
  mret (data, session).

(** * What the properties are stated with *)

(** What stable sorting needs of the keys it meets.  [<] orders the
    keys in [P] when it is defined between any two of them and is
    there a strict order whose "not greater" is transitive, with [==]
    the ties of [<].  Among all values [<] is no such order: it is not
    defined between a number and a string, or on [None].  It orders
    the numbers, and pairs of numbers. *)
Record orders `{PyOrd K} (P : K → bool) : Prop := {
  ord_ok (x y : K) : P x = true → P y = true → py_ok x y = true;
  ord_irrefl (x : K) : P x = true → py_lt x x = false;
  ord_trans (x y z : K) : P x = true → P y = true → P z = true →
    py_lt x y = true → py_lt y z = true → py_lt x z = true;
  ord_ge_trans (x y z : K) : P x = true → P y = true → P z = true →
    py_lt x y = false → py_lt y z = false → py_lt x z = false;
  ord_ties (x y : K) : P x = true → P y = true →
    (py_eq x y = true ↔ py_lt x y = false ∧ py_lt y x = false) }.

(** A key type all of whose keys [<] orders. *)
Class PyOrdLaws (K : Type) `{PyOrd K} := {
  py_ok_all (x y : K) : py_ok x y = true;
  py_lt_irrefl (x : K) : py_lt x x = false;
  py_lt_trans (x y z : K) : py_lt x y = true → py_lt y z = true → py_lt x z = true;
  py_ge_trans (x y z : K) : py_lt x y = false → py_lt y z = false → py_lt x z = false;
  py_eq_ties (x y : K) : py_eq x y = true ↔ py_lt x y = false ∧ py_lt y x = false }.

(** The keys in [P] as a type of their own, ordered as they are among
    all keys, and a sort function cut down to them. *)
Definition key_in `{PyOrd K} (P : K → bool) : Type := {k : K | P k = true}.

#[export] Instance key_in_ord `{PyOrd K} (P : K → bool) : PyOrd (key_in P) :=
  {| py_lt x y := py_lt (`x) (`y); py_eq x y := py_eq (`x) (`y); py_ok x y := py_ok (`x) (`y) |}.

Definition restrict `{PyOrd K} (P : K → bool) (sort_fn : value → result K) (v : value)
    : result (key_in P) :=
  match sort_fn v with
  | Ok k => match Sumbool.sumbool_of_bool (P k) with
            | left HP => Ok (k ↾ HP)
            | right _ => Raise TypeError
            end
  | Raise e => Raise e
  end.

(** An entry whose key is in [P]. *)
Definition keyed_in `{PyOrd K} (sort_fn : value → result K) (P : K → bool) (e : value) : Prop :=
  ∃ k, sort_fn e = Ok k ∧ P k = true.

(** A number; a pair of keys of two kinds. *)
Definition is_num (v : value) : bool :=
  match as_number v with Some _ => true | None => false end.

Definition both {A B} (PA : A → bool) (PB : B → bool) (p : A * B) : bool := PA p.1 && PB p.2.

Section ranking.
Context `{PyOrd K} (sort_fn : value → result K).

(** [x] may stand before [y]. *)
Definition key_le : relation (K * value) := λ x y, py_lt y.1 x.1 = false.

(** The key in front of [x] is the key of [x]. *)
Definition keyed_by : K * value → Prop := λ x, sort_fn x.2 = Ok x.1.

(** A board is ranked when every entry has a key and the keys
    ascend. *)
Definition ranked (vs : list value) : Prop :=
  ∃ l, decorate sort_fn vs = Ok l ∧ StronglySorted key_le l.
End ranking.

(** ** Reading the ledger *)

(** The value found by following keys down from the root. *)
Fixpoint at_path (path : list string) (data : value) : option value :=
  match path with
  | [] => Some data
  | k :: path => match data with
                 | VDict m => m !! k ≫= at_path path
                 | _ => None
                 end
  end.

(** A run of inserts into one board, each cut to [TOP_N]. *)
Fixpoint add_entries `{PyOrd K} (entries : list value) (data : value) (game_key : string)
    (mode_key : modekey) (sort_fn : value → result K) : M value :=
  match entries with
  | [] => mret data
  | entry :: entries =>
      data ← add_leaderboard_entry data game_key mode_key entry sort_fn TOP_N;
      add_entries entries data game_key mode_key sort_fn
  end.

(** ** Entries with numbers in their fields *)

(** The number in a metric field.  The entries the games write have
    numbers there; a field of a file edited by hand may hold anything,
    and has no number when it holds anything else. *)
Definition num (v : value) : result Q :=
  match v with
  | VInt z => Ok (inject_Z z)
  | VFloat q => Ok q
  | VBool b => Ok (if b then 1%Q else 0%Q)
  | _ => Raise TypeError
  end.

(** A numeric field of an entry. *)
Definition number_field (r : value) (k : string) : result Q :=
  v ← getitem r k; num v.

(** A Number Memory result that ranks behind every entry of [lb]: a
    shorter longest length, or the same length and a longer time. *)
Definition ranks_behind_all (max_length : Z) (total_time : Q) (lb : list value) : Prop :=
  Forall (λ x, ∃ a t, number_field x "max_length" = Ok a ∧
                      number_field x "total_time" = Ok t ∧
                      (inject_Z max_length < a ∨
                       inject_Z max_length == a ∧ t < total_time)%Q) lb.

(** A full "hard_6" board to try things on: a hundred runs of length 20,
    taking 1, 2, ... seconds. *)
Definition sample_hard_6_entry (i : nat) : value :=
  dict [("name", VStr "ann"); ("max_length", VInt 20);
        ("total_time", VFloat (inject_Z (Z.of_nat i))); ("ts", VInt (Z.of_nat i))]%string.

Definition sample_hard_6_board : list value := sample_hard_6_entry <$> seq 1 100.

Definition sample_hard_6_ledger : value :=
  dict [("leaderboards", dict [("guess_the_number", dict []);
                               ("reaction_game", dict []);
                               ("gibberish_typing", dict []);
                               ("number_memory", dict [("hard_6", VList sample_hard_6_board)]);
                               ("sequence_tap", dict []);
                               ("word_memory", dict []);
                               ("math_speed", dict [])]);
        ("players", dict [("ann", dict [("achievements", VList [VStr "nm_brain_of_steel"]);
                                        ("games_played", VInt 0)])])]%string.

(** Two ways in which a comparator could fix the order of any two
    entries by itself: by never letting two different entries tie, or,
    failing that, by ranking two entries the same way whichever of them
    is inserted first. *)
Definition strict_total_on_entries `{PyOrd K} (sort_fn : value → result K) : Prop :=
  ∀ e1 e2 k1 k2, sort_fn e1 = Ok k1 → sort_fn e2 = Ok k2 → e1 ≠ e2 →
    py_lt k1 k2 = true ∨ py_lt k2 k1 = true.

Definition insertion_order_free `{PyOrd K} (sort_fn : value → result K) : Prop :=
  ∀ data game_key mode_key e1 e2 w d12 w12 d21 w21,
    add_entries [e1; e2] data game_key mode_key sort_fn w = Ok (d12, w12) →
    add_entries [e2; e1] data game_key mode_key sort_fn w = Ok (d21, w21) →
    read_board d12 game_key mode_key = read_board d21 game_key mode_key.

(** The shape of a ledger: a dict with a "leaderboards" dict that has
    all seven game keys, and a "players" entry. *)
Definition has_schema (data : value) : Prop :=
  ∃ m boards : gmap string value,
    data = VDict m ∧ m !! "leaderboards" = Some (VDict boards) ∧
    Forall (λ g, is_Some (boards !! g)) GAME_KEYS ∧
    is_Some (m !! "players").

(** [setdefault(key, {})] for each of [keys], on the map itself. *)
Definition with_keys (keys : list string) (boards : gmap string value) : gmap string value :=
  foldl (λ b key, match b !! key with Some _ => b | None => <[key:=dict []]> b end) boards keys.

(** ** Reading a player *)

(** What menu choice 9 shows of a player: [p.get("achievements", [])]
    and [p.get("games_played", 0)]; a name without a record has
    neither. *)
Definition achievements_of (data : value) (name : string) : list value :=
  match at_path ["players"; name; "achievements"]%string data with
  | Some (VList l) => l
  | _ => []
  end.

Definition games_played_of (data : value) (name : string) : value :=
  default (VInt 0) (at_path ["players"; name; "games_played"]%string data).

(** The keys that some [play_*] function passes to
    [award_achievement]. *)
Definition awarded_somewhere (k : string) : bool :=
  bool_decide (k ∈ ["gtn_first_try"; "gtn_speed_demon"; "gtn_sniper"; "gtn_persistent";
                    "gtn_nightmare"; "gtn_iron_streak_5"; "rx_lightning"; "rx_consistent";
                    "rx_marathon"; "gt_perfect_accuracy"; "gt_typing_machine";
                    "gt_flawless_streak3"; "nm_brain_of_steel"; "nm_flash_recall";
                    "st_pattern_pro"; "wm_word_wizard"; "ms_lightning_calc";
                    "ms_math_genius"]%string).

(** How the player records of [data'] may differ from those of [data]
    after some ledger operations: for every name, keys have been added
    behind the ones held, each of them a key allowed by [P]; a list
    without repetition is still one; the games-played counter is what
    it was. *)
Definition ledger_step (P : string → Prop) (data data' : value) : Prop :=
  ∀ name,
    (∃ new, achievements_of data' name = achievements_of data name ++ new ∧
            Forall (λ v, ∃ k, v = VStr k ∧ P k) new) ∧
    (NoDup (achievements_of data name) → NoDup (achievements_of data' name)) ∧
    games_played_of data' name = games_played_of data name.

(** The player a game is played by. *)
Definition player_of (c : play) : string :=
  match c with
  | GuessTheNumber o => gn_player o
  | Reaction o => rx_player o
  | Gibberish o => gb_player o
  | NumberMemory o => nm_player o
  | SequenceTap o => st_player o
  | WordMemory o => wm_player o
  | MathSpeed o => ms_player o
  end.

(** A Gibberish Typing run whose tokens are not the targets, or a
    Sequence Tap run whose line is not the sequence. *)
Definition imperfect (c : play) : Prop :=
  match c with
  | Gibberish o => gb_typed_tokens o ≠ gb_targets o
  | SequenceTap o => st_typed o ≠ String.concat "" (st_seq o)
  | _ => False
  end.

(** A small ledger to try things on: one player, one achievement. *)
Definition sample_ledger : value :=
  dict [("leaderboards", dict [("guess_the_number", dict []);
                               ("reaction_game", dict []);
                               ("gibberish_typing", dict []);
                               ("number_memory", dict []);
                               ("sequence_tap", dict []);
                               ("word_memory", dict []);
                               ("math_speed", dict [])]);
        ("players", dict [("ann", dict [("achievements", VList [VStr "nm_brain_of_steel"]);
                                        ("games_played", VInt 0)])])]%string.

(** Fifty games by one player: ten rounds of five different games. *)
Definition fifty_plays : list play :=
  concat (replicate 10
    [GuessTheNumber (GuessRun "Alice" "3" 4 12 1000);
     Reaction (ReactionRun "Alice" 2 [3 # 10; 4 # 10]%Q 1001);
     SequenceTap (SequenceTapRun "Alice" 5 ["A"; "7"; "Q"; "2"; "Z"] "A7Q2Z" 6 1002);
     WordMemory (WordMemoryRun "Alice" 5 ["apple"; "river"; "mount"; "stone"; "train"]
                   ["apple"; "river"; "stone"] 9 1003);
     MathSpeed (MathSpeedRun "Alice" 50 20 1004)]%string).

(** A Number Memory run on "hard_6": [n] correct answers, then a wrong
    one. *)
Definition number_memory_streak (n : nat) : play :=
  NumberMemory (NumberMemoryRun "Alice" "hard_6"
    (replicate n (NmRound "123456" "123456" 2) ++ [NmRound "123456" "123465" 2]) 1005).

(** ** Well-formed ledgers *)

(** An entry to which the sort function of its game gives a key made
    of numbers. *)
Definition entry_ok (game_key : string) (e : value) : Prop :=
  if decide (game_key = "guess_the_number"%string)
  then keyed_in guess_sort_fn (both is_num is_num) e
  else if decide (game_key = "number_memory"%string)
  then keyed_in number_memory_sort_fn (both is_num is_num) e
  else if decide (game_key = "word_memory"%string)
  then keyed_in word_memory_sort_fn (both is_num is_num) e
  else keyed_in time_sort_fn is_num e.

(** The ledger as the games leave it: all seven games are there;
    boards are lists of entries with numbers to rank them by, in dicts
    by mode, in a dict by game; player records are dicts with a list
    of achievements. *)
Definition ledger_ok (data : value) : Prop :=
  ∃ m boards players : gmap string value,
    data = VDict m ∧
    m !! "leaderboards" = Some (VDict boards) ∧
    m !! "players" = Some (VDict players) ∧
    Forall (λ g, is_Some (boards !! g)) GAME_KEYS ∧
    (∀ g b, boards !! g = Some b →
       ∃ lbs : gmap string value, b = VDict lbs ∧
         ∀ md v, lbs !! md = Some v → ∃ lb, v = VList lb ∧ Forall (entry_ok g) lb) ∧
    (∀ name r, players !! name = Some r →
       ∃ (rec : gmap string value) l, r = VDict rec ∧ rec !! "achievements" = Some (VList l)).

(** The [fmt] with which the board of a game is shown. *)
Definition fmt_of (game_key : string) : value → result unit :=
  if decide (game_key = "guess_the_number"%string) then guess_fmt
  else if decide (game_key = "number_memory"%string) then number_memory_fmt
  else if decide (game_key = "word_memory"%string) then word_memory_fmt
  else time_fmt.

(** Boards that can be shown: every entry has what the [fmt] of its
    game looks up, a name among it, and a time that can be printed. *)
Definition boards_shown (data : value) : Prop :=
  ∀ g md lb, at_path ["leaderboards"; g; md]%string data = Some (VList lb) →
    Forall (λ e, is_ok (fmt_of g e)) lb.

Definition ledger_shown (data : value) : Prop := ledger_ok data ∧ boards_shown data.

(** A play that comes to an end: a Number Memory run has a wrong
    answer in it. *)
Definition finished (c : play) : Prop :=
  match c with
  | NumberMemory o => Exists (λ r, nm_answer r ≠ nm_shown r) (nm_rounds o)
  | _ => True
  end.

(** A well-formed ledger with a record for [name]. *)
Definition ledger_with (name : string) (data : value) : Prop :=
  ledger_ok data ∧ is_Some (at_path ["players"; name]%string data).

Definition shown_with (name : string) (data : value) : Prop :=
  ledger_with name data ∧ boards_shown data.

(** [m] returns, and what it returns satisfies [Q]. *)
Definition returns {A} (Q : A → Prop) (m : M A) (w : world) : Prop :=
  ∃ a w', m w = Ok (a, w') ∧ Q a.

(** ** What a play does *)

Definition is_dict (v : value) : Prop := ∃ m : gmap string value, v = VDict m.

(** The game key and the mode key under which a play files its
    entry. *)
Definition game_key_of (c : play) : string :=
  match c with
  | GuessTheNumber _ => "guess_the_number"
  | Reaction _ => "reaction_game"
  | Gibberish _ => "gibberish_typing"
  | NumberMemory _ => "number_memory"
  | SequenceTap _ => "sequence_tap"
  | WordMemory _ => "word_memory"
  | MathSpeed _ => "math_speed"
  end.

Definition mode_key_of (c : play) : string :=
  match c with
  | GuessTheNumber o => gn_mode_key o
  | Reaction o => pretty (rx_rounds o)
  | Gibberish o => pretty (gb_words o)
  | NumberMemory o => nm_mode_choice o
  | SequenceTap o => pretty (st_steps o)
  | WordMemory o => pretty (wm_words_count o)
  | MathSpeed o => pretty (ms_problems o)
  end.

(** Between [(data, w)] and [(data', w')] the keys [keys], none of
    them held before and none twice, were put behind the achievements
    of [p], in this order, and one line was printed for each, in this
    order; nobody else's achievements changed. *)
Definition unlocks (p : string) (keys : list string)
    (data : value) (w : world) (data' : value) (w' : world) : Prop :=
  achievements_of data' p = achievements_of data p ++ (VStr <$> keys) ∧
  Forall (λ k, VStr k ∉ achievements_of data p) keys ∧
  NoDup keys ∧
  (∀ name, name ≠ p → achievements_of data' name = achievements_of data name) ∧
  notices w' = notices w ++ ((λ k, unlocked_line (ACH_LIST !!! k)) <$> keys).

(** Everything outside the board of [(game_key, mode_key)] and outside
    the players reads the same in [data'] as in [data]. *)
Definition same_but_board (game_key mode_key : string) (data data' : value) : Prop :=
  (∀ k, k ≠ "leaderboards"%string → k ≠ "players"%string →
        at_path [k] data' = at_path [k] data) ∧
  (∀ g, g ≠ game_key →
        at_path ["leaderboards"%string; g] data' = at_path ["leaderboards"%string; g] data) ∧
  (∀ m, m ≠ mode_key →
        at_path ["leaderboards"%string; game_key; m] data'
          = at_path ["leaderboards"%string; game_key; m] data).

Definition is_guess (c : play) : bool :=
  match c with GuessTheNumber _ => true | _ => false end.

(** The answers of a Number Memory run that were right, up to the
    first wrong one. *)
Fixpoint correct_rounds (rounds : list nm_round) : list nm_round :=
  match rounds with
  | [] => []
  | r :: rounds =>
      if bool_decide (nm_answer r = nm_shown r) then r :: correct_rounds rounds else []
  end.

Definition start_len_of (mode_choice : string) : Z :=
  if bool_decide (mode_choice = "easy_2"%string) then 2
  else if bool_decide (mode_choice = "normal_4"%string) then 4 else 6.

Local Open Scope string_scope.

(** The award calls of the Number Memory loop, round by round, on
    [max_len] and [round_no] as they stand before the round: after a
    right answer, "Brain of Steel" for a number of ten digits or more
    and "Flash Recall" from the fifth round on. *)
Fixpoint nm_rules (rounds : list nm_round) (max_len round_no : Z) : list (bool * string) :=
  match rounds with
  | [] => []
  | r :: rounds =>
      if bool_decide (nm_answer r = nm_shown r) then
        (bool_decide (10 ≤ max_len + 1 - 1)%Z, "nm_brain_of_steel")
        :: (bool_decide (5 ≤ round_no + 1)%Z, "nm_flash_recall")
        :: nm_rules rounds (max_len + 1) (round_no + 1)
      else []
  end.

(** The award calls of a play with their conditions, in the order in
    which the play makes them. *)
Definition award_rules (c : play) (session : SessionTracker) : list (bool * string) :=
  match c with
  | GuessTheNumber o =>
      [(bool_decide (gn_attempts o = 1), "gtn_first_try");
       (py_lt (gn_elapsed o) 5%Q, "gtn_speed_demon");
       (bool_decide (gn_attempts o < 3)%Z, "gtn_sniper");
       (bool_decide (20 ≤ gn_attempts o)%Z, "gtn_persistent");
       (bool_decide (gn_mode_key o = "7"), "gtn_nightmare");
       (bool_decide (5 ≤ consecutive_gtn_wins session + 1)%Z, "gtn_iron_streak_5")]
  | Reaction o =>
      [(existsb (λ dt, py_lt dt (round64 (2 # 10))) (rx_times o), "rx_lightning");
       (forallb (λ dt, py_lt dt (5 # 10)%Q) (rx_times o), "rx_consistent");
       (bool_decide (rx_rounds o = 25), "rx_marathon")]
  | Gibberish o =>
      if bool_decide (gb_typed_tokens o = gb_targets o) then
        [(true, "gt_perfect_accuracy");
         (py_lt (fdiv (gb_elapsed o) (round64 (inject_Z (Z.max 1 (gb_words o))))) 1%Q,
          "gt_typing_machine");
         (bool_decide (3 ≤ perfect_gibberish_streak session + 1)%Z, "gt_flawless_streak3")]
      else []
  | NumberMemory o => nm_rules (nm_rounds o) (start_len_of (nm_mode_choice o)) 0
  | SequenceTap o =>
      if bool_decide (st_typed o = String.concat "" (st_seq o)) then
        [(bool_decide (st_steps o = 20), "st_pattern_pro")]
      else []
  | WordMemory o =>
      [(bool_decide (Z.of_nat (length (filter (λ ab, ab.1 = ab.2)
                                         (zip (wm_words o) (wm_typed o)))) = wm_words_count o)
        && bool_decide (15 ≤ wm_words_count o)%Z, "wm_word_wizard")]
  | MathSpeed o =>
      [(bool_decide (20 ≤ ms_problems o)%Z && py_lt (ms_elapsed o) 30%Q, "ms_lightning_calc");
       (bool_decide (ms_problems o = 50), "ms_math_genius")]
  end.
Local Close Scope string_scope.

(** The keys a run of award calls unlocks, given what is held: a call
    whose condition holds and whose key is not held by then adds the
    key. *)
Fixpoint unlocked (held : list value) (rules : list (bool * string)) : list string :=
  match rules with
  | [] => []
  | (c, k) :: rules =>
      if c && negb (existsb (is_str k) held) then k :: unlocked (held ++ [VStr k]) rules
      else unlocked held rules
  end.

(** Where a play stands after the award calls [rules]: the ledger is
    well formed and has the player; the calls have unlocked what they
    had to; nothing outside the players has changed. *)
Definition awarded (p : string) (rules : list (bool * string))
    (data : value) (w : world) (data' : value) (w' : world) : Prop :=
  ledger_with p data' ∧
  unlocks p (unlocked (achievements_of data p) rules) data w data' w' ∧
  (∀ k, k ≠ "players"%string → at_path [k] data' = at_path [k] data).

(** What a play adds to the session's count of games, and to its set
    of games played. *)
Definition games_counted (c : play) : Z :=
  match c with
  | NumberMemory o => Z.of_nat (length (correct_rounds (nm_rounds o)))
  | _ => 1
  end.

Definition session_id (c : play) : gset string :=
  match c with
  | GuessTheNumber _ => {["guess"%string]}
  | Reaction _ => {["reaction"%string]}
  | Gibberish _ => {["gibberish"%string]}
  | _ => ∅
  end.

(** ** The declared ranking *)

(** The ranking keys that the specification declares for each game
    (the table of its section on the leaderboard engine), as fields of
    the entries: a primary key with its direction, and for three of
    the games a tie-break, ascending. *)
Inductive direction := Asc | Desc.

Record ranking := Ranking {
  primary : string; primary_order : direction; tie_break : option string }.

Definition declared_ranking (c : play) : ranking :=
  match c with
  | GuessTheNumber _ => Ranking "attempts" Asc (Some "time"%string)
  | Reaction _ => Ranking "total_time" Asc None
  | Gibberish _ => Ranking "total_time" Asc None
  | NumberMemory _ => Ranking "max_length" Desc (Some "total_time"%string)
  | SequenceTap _ => Ranking "total_time" Asc None
  | WordMemory _ => Ranking "correct" Desc (Some "total_time"%string)
  | MathSpeed _ => Ranking "total_time" Asc None
  end.

Definition precedes (d : direction) (a b : Q) : Prop :=
  match d with Asc => (a < b)%Q | Desc => (b < a)%Q end.

(** [e1] is ranked before [e2] by the declared keys: it is better on
    the primary key, or equal there and smaller on the tie-break. *)
Definition ranked_before (r : ranking) (e1 e2 : value) : Prop :=
  ∃ p1 p2, number_field e1 (primary r) = Ok p1 ∧ number_field e2 (primary r) = Ok p2 ∧
    (precedes (primary_order r) p1 p2 ∨
     (p1 == p2)%Q ∧
     match tie_break r with
     | Some k => ∃ t1 t2, number_field e1 k = Ok t1 ∧ number_field e2 k = Ok t2 ∧ (t1 < t2)%Q
     | None => False
     end).

(** [e1] and [e2] tie on all declared keys. *)
Definition ties (r : ranking) (e1 e2 : value) : Prop :=
  ∃ p1 p2, number_field e1 (primary r) = Ok p1 ∧ number_field e2 (primary r) = Ok p2 ∧
    (p1 == p2)%Q ∧
    match tie_break r with
    | Some k => ∃ t1 t2, number_field e1 k = Ok t1 ∧ number_field e2 k = Ok t2 ∧ (t1 == t2)%Q
    | None => True
    end.

(** A tie to try things on: a second run of fifty problems in twenty
    seconds, on the ledger that holds the first. *)
Definition sample_tie_play : play := MathSpeed (MathSpeedRun "cy" 50 20 12).

(** Times whose sums, taken from the left as the loops take them,
    stay within the range of doubles. *)
Definition sums_in_range (dts : list Q) : Prop :=
  ∀ k, (- inject_Z (2 ^ 1024) < foldl fadd 0 (take k dts) < inject_Z (2 ^ 1024))%Q.

(** A line that [int] accepts. *)
Definition is_number (l : line) : bool := bool_decide (is_Some (as_int l)).

(** Three plays on the small ledger, with the ledger each returns and
    the lines it prints. *)
Definition sample_guess_play : play := GuessTheNumber (GuessRun "ann" "7" 1 3 10).

Definition sample_guess_ledger : value :=
  dict [("leaderboards",
         dict [("guess_the_number",
                dict [("7", VList [dict [("name", VStr "ann"); ("attempts", VInt 1);
                                         ("time", VFloat 3); ("ts", VInt 10)]])]);
               ("reaction_game", dict []);
               ("gibberish_typing", dict []);
               ("number_memory", dict []);
               ("sequence_tap", dict []);
               ("word_memory", dict []);
               ("math_speed", dict [])]);
        ("players",
         dict [("ann", dict [("achievements",
                              VList [VStr "nm_brain_of_steel"; VStr "gtn_first_try";
                                     VStr "gtn_speed_demon"; VStr "gtn_sniper";
                                     VStr "gtn_nightmare"]);
                             ("games_played", VInt 0)])])]%string.

Definition sample_guess_lines : list string :=
  [unlocked_line "Lucky First Guess (1 attempt)";
   unlocked_line "Speed Demon (<5s)";
   unlocked_line "Sniper (<3 attempts)";
   unlocked_line "Impossible Odds — Beat Nightmare range"].

Definition sample_math_play : play := MathSpeed (MathSpeedRun "bob" 50 20 11).

Definition sample_math_ledger : value :=
  dict [("leaderboards",
         dict [("guess_the_number", dict []);
               ("reaction_game", dict []);
               ("gibberish_typing", dict []);
               ("number_memory", dict []);
               ("sequence_tap", dict []);
               ("word_memory", dict []);
               ("math_speed",
                dict [("50", VList [dict [("name", VStr "bob"); ("total_time", VFloat 20);
                                          ("problems", VInt 50); ("ts", VInt 11)]])])]);
        ("players",
         dict [("ann", dict [("achievements", VList [VStr "nm_brain_of_steel"]);
                             ("games_played", VInt 0)]);
               ("bob", dict [("achievements",
                              VList [VStr "ms_lightning_calc"; VStr "ms_math_genius"]);
                             ("games_played", VInt 0)])])]%string.

Definition sample_math_lines : list string :=
  [unlocked_line "Lightning Calculator (20 in <30s)";
   unlocked_line "Math Genius (perfect on 50)"].

Definition sample_memory_play : play :=
  NumberMemory (NumberMemoryRun "ann" "hard_6"
    (replicate 5 (NmRound "123456" "123456" 2) ++ [NmRound "123456" "123465" 2]) 1005).

Definition sample_memory_ledger : value :=
  dict [("leaderboards",
         dict [("guess_the_number", dict []);
               ("reaction_game", dict []);
               ("gibberish_typing", dict []);
               ("number_memory",
                dict [("hard_6", VList [dict [("name", VStr "ann"); ("max_length", VInt 10);
                                              ("total_time", VFloat 12);
                                              ("ts", VInt 1005)]])]);
               ("sequence_tap", dict []);
               ("word_memory", dict []);
               ("math_speed", dict [])]);
        ("players",
         dict [("ann", dict [("achievements",
                              VList [VStr "nm_brain_of_steel"; VStr "nm_flash_recall"]);
                             ("games_played", VInt 0)])])]%string.

Definition sample_memory_lines : list string :=
  [unlocked_line "Flash Recall (5 in a row)"].

(** [Q] holds of what a run returned. *)
Definition returned {A} (r : result A) (Q : A → Prop) : Prop :=
  match r with Ok a => Q a | Raise _ => False end.

(** * Properties *)

(** ** Keys are ordered *)


Lemma num_lt_spec (x y : Q) : py_lt x y = true ↔ (x < y)%Q.
Proof.
  simpl. rewrite negb_true_iff, <- not_true_iff_false, Qle_bool_iff.
  split; [apply Qnot_le_lt | apply Qlt_not_le].
Qed.

Lemma num_ge_spec (x y : Q) : py_lt x y = false ↔ (y <= x)%Q.
Proof. simpl. by rewrite negb_false_iff, Qle_bool_iff. Qed.

#[export] Instance num_ord_laws : PyOrdLaws Q.
Proof.
  split.
  - done.
  - intros x. apply num_ge_spec, Qle_refl.
  - intros x y z. rewrite !num_lt_spec. apply Qlt_trans.
  - intros x y z. rewrite !num_ge_spec. intros ??. by eapply Qle_trans.
  - intros x y. rewrite !num_ge_spec. simpl. rewrite Qeq_bool_iff. split.
    + intros E. rewrite E. split; apply Qle_refl.
    + intros [??]. by apply Qle_antisym.
Qed.

Section laws.
Context `{PyOrdLaws K}.

Lemma py_lt_asym (x y : K) : py_lt x y = true → py_lt y x = false.
Proof.
  intros Hxy. destruct (py_lt y x) eqn:Hyx; [|done].
  by rewrite <- (py_lt_irrefl x), (py_lt_trans x y x).
Qed.

Lemma py_eq_not_lt (x y : K) : py_eq x y = true → py_lt x y = false.
Proof. intros E. by apply py_eq_ties in E as [??]. Qed.

Lemma py_eq_refl (x : K) : py_eq x x = true.
Proof. apply py_eq_ties. split; apply py_lt_irrefl. Qed.

Lemma py_eq_sym (x y : K) : py_eq x y = py_eq y x.
Proof.
  apply eq_true_iff_eq. unfold is_true. rewrite !py_eq_ties. tauto.
Qed.

Lemma py_eq_trans (x y z : K) : py_eq x y = true → py_eq y z = true → py_eq x z = true.
Proof.
  rewrite !py_eq_ties. intros [??] [??]. split; by eapply py_ge_trans.
Qed.

Lemma py_lt_eq_l (x y z : K) : py_eq x y = true → py_lt x z = py_lt y z.
Proof.
  rewrite py_eq_ties. intros [Hxy Hyx].
  destruct (py_lt x z) eqn:E1, (py_lt y z) eqn:E2; try done.
  - by rewrite (py_ge_trans x y z) in E1.
  - by rewrite (py_ge_trans y x z) in E2.
Qed.

Lemma py_lt_eq_r (x y z : K) : py_eq x y = true → py_lt z x = py_lt z y.
Proof.
  rewrite py_eq_ties. intros [Hxy Hyx].
  destruct (py_lt z x) eqn:E1, (py_lt z y) eqn:E2; try done.
  - by rewrite (py_ge_trans z y x) in E1.
  - by rewrite (py_ge_trans z x y) in E2.
Qed.

Lemma py_lt_total (x y : K) : py_lt x y = true ∨ py_eq x y = true ∨ py_lt y x = true.
Proof.
  destruct (py_lt x y) eqn:E1; [by left|].
  destruct (py_lt y x) eqn:E2; [by right; right|].
  right; left. by apply py_eq_ties.
Qed.
End laws.

#[export] Instance tuple_ord_laws `{PyOrdLaws A, PyOrdLaws B} : PyOrdLaws (A * B).
Proof.
  assert (∀ a1 a2 a3 : A, py_eq a1 a2 = true → py_eq a1 a3 = true → py_eq a2 a3 = true)
    as eq_l by (intros a1 a2 a3 E; rewrite (py_eq_sym a1 a2) in E; by apply py_eq_trans).
  assert (∀ a1 a2 a3 : A, py_eq a2 a3 = true → py_eq a1 a3 = true → py_eq a1 a2 = true)
    as eq_r by (intros a1 a2 a3 E E'; rewrite (py_eq_sym a2 a3) in E; by eapply py_eq_trans).
  split.
  - intros [a1 b1] [a2 b2]. simpl. rewrite !py_ok_all. by destruct (py_eq a1 a2), (py_eq b1 b2).
  - intros [a b]. simpl. by rewrite py_eq_refl, py_lt_irrefl.
  - intros [a1 b1] [a2 b2] [a3 b3]. simpl.
    destruct (py_eq a1 a2) eqn:E12, (py_eq a2 a3) eqn:E23, (py_eq a1 a3) eqn:E13;
      try apply py_lt_trans.
    + by rewrite (py_eq_trans a1 a2 a3) in E13.
    + by rewrite (eq_l a1 a2 a3) in E23.
    + rewrite (py_lt_eq_l a1 a2 a3) by done. by intros _ ?.
    + by rewrite (eq_r a1 a2 a3) in E12.
    + rewrite <- (py_lt_eq_r a2 a3 a1) by done. by intros ? _.
    + intros H12 H23. pose proof (py_lt_trans _ _ _ H12 H23) as H13.
      by rewrite (py_eq_not_lt a1 a3) in H13.
  - intros [a1 b1] [a2 b2] [a3 b3]. simpl.
    destruct (py_eq a1 a2) eqn:E12, (py_eq a2 a3) eqn:E23, (py_eq a1 a3) eqn:E13;
      try apply py_ge_trans.
    + by rewrite (py_eq_trans a1 a2 a3) in E13.
    + by rewrite (eq_l a1 a2 a3) in E23.
    + rewrite (py_lt_eq_l a1 a2 a3) by done. by intros _ ?.
    + by rewrite (eq_r a1 a2 a3) in E12.
    + rewrite <- (py_lt_eq_r a2 a3 a1) by done. by intros ? _.
    + intros H12 H23. apply py_eq_ties in E13 as [_ H31].
      assert (py_eq a1 a2 = true); [|congruence].
      apply py_eq_ties. split; [done|]. by eapply py_ge_trans.
  - intros [a1 b1] [a2 b2]. simpl. rewrite (py_eq_sym a2 a1).
    destruct (py_eq a1 a2) eqn:E; simpl.
    + apply py_eq_ties.
    + split; [done|]. intros [Hlt Hgt].
      assert (py_eq a1 a2 = true) by by apply py_eq_ties.
      congruence.
Qed.

(** ** Floats *)

(** Sums are rounded as doubles are: 0.1 + 0.2 + 0.3, added from the
    left, is 0.6000000000000001. *)
Lemma fadd_rounds_to_double :
  foldl fadd 0%Q [round64 (1 # 10); round64 (2 # 10); round64 (3 # 10)]
  = (1351079888211149 # 2251799813685248)%Q.
Proof. by vm_compute. Qed.

(** ** Keys that [<] orders *)

Lemma num_as_number (v : value) (q : Q) : num v = Ok q ↔ as_number v = Some q.
Proof. destruct v; simpl; naive_solver. Qed.

Lemma is_num_spec (v : value) : is_num v = true ↔ ∃ q, as_number v = Some q.
Proof. unfold is_num. destruct (as_number v); naive_solver. Qed.

(** Numbers compare as the rationals they stand for. *)
Lemma value_cmp_numbers (v w : value) (a b : Q) :
  as_number v = Some a → as_number w = Some b →
  value_lt v w = py_lt a b ∧ value_eq v w = py_eq a b ∧ value_ok v w = true.
Proof. destruct v, w; simpl; intros; by simplify_eq. Qed.

Lemma key_in_laws `{PyOrd K} (P : K → bool) : orders P → PyOrdLaws (key_in P).
Proof.
  intros HP. split.
  - intros [x Hx] [y Hy]. by apply (ord_ok P HP).
  - intros [x Hx]. by apply (ord_irrefl P HP).
  - intros [x Hx] [y Hy] [z Hz]. by apply (ord_trans P HP).
  - intros [x Hx] [y Hy] [z Hz]. by apply (ord_ge_trans P HP).
  - intros [x Hx] [y Hy]. by apply (ord_ties P HP).
Qed.

Lemma laws_order `{PyOrdLaws K} : orders (λ _ : K, true).
Proof.
  split; intros.
  - apply py_ok_all.
  - apply py_lt_irrefl.
  - by eapply py_lt_trans.
  - by eapply py_ge_trans.
  - apply py_eq_ties.
Qed.

Lemma numbers_ordered : orders is_num.
Proof.
  assert (∀ v w, is_num v = true → is_num w = true →
            ∃ a b : Q, value_lt v w = py_lt a b ∧ value_eq v w = py_eq a b ∧
                       value_ok v w = true ∧
                       as_number v = Some a ∧ as_number w = Some b) as Hcmp.
  { intros v w [a Ha]%is_num_spec [b Hb]%is_num_spec. exists a, b.
    destruct (value_cmp_numbers v w a b Ha Hb) as (? & ? & ?). by split_and!. }
  split.
  - intros x y Hx Hy. by destruct (Hcmp x y Hx Hy) as (? & ? & _ & _ & ? & _).
  - intros x Hx. destruct (Hcmp x x Hx Hx) as (a & b & E & _ & _ & Ha & Hb).
    change (py_lt x x) with (value_lt x x). rewrite E. simplify_eq. apply py_lt_irrefl.
  - intros x y z Hx Hy Hz.
    destruct (Hcmp x y Hx Hy) as (a & b & E1 & _ & _ & Ha & Hb).
    destruct (Hcmp y z Hy Hz) as (b' & c & E2 & _ & _ & Hb' & Hc).
    destruct (Hcmp x z Hx Hz) as (a' & c' & E3 & _ & _ & Ha' & Hc').
    change (@py_lt value _) with value_lt. rewrite E1, E2, E3. simplify_eq.
    apply py_lt_trans.
  - intros x y z Hx Hy Hz.
    destruct (Hcmp x y Hx Hy) as (a & b & E1 & _ & _ & Ha & Hb).
    destruct (Hcmp y z Hy Hz) as (b' & c & E2 & _ & _ & Hb' & Hc).
    destruct (Hcmp x z Hx Hz) as (a' & c' & E3 & _ & _ & Ha' & Hc').
    change (@py_lt value _) with value_lt. rewrite E1, E2, E3. simplify_eq.
    apply py_ge_trans.
  - intros x y Hx Hy.
    destruct (Hcmp x y Hx Hy) as (a & b & E1 & E2 & _ & Ha & Hb).
    destruct (Hcmp y x Hy Hx) as (b' & a' & E3 & _ & _ & Hb' & Ha').
    change (@py_lt value _) with value_lt. change (@py_eq value _) with value_eq.
    rewrite E1, E2, E3. simplify_eq. apply py_eq_ties.
Qed.

(** Pairs of ordered keys are ordered. *)
Lemma pairs_ordered `{PyOrd A, PyOrd B} (PA : A → bool) (PB : B → bool) :
  orders PA → orders PB → orders (both PA PB).
Proof.
  intros HA HB.
  pose proof (key_in_laws PA HA). pose proof (key_in_laws PB HB).
  split.
  - intros [a b] [c d] [Ha Hb]%andb_prop [Hc Hd]%andb_prop. cbn [fst snd] in *.
    exact (py_ok_all (K:=key_in PA * key_in PB) (a ↾ Ha, b ↾ Hb) (c ↾ Hc, d ↾ Hd)).
  - intros [a b] [Ha Hb]%andb_prop. cbn [fst snd] in *.
    exact (py_lt_irrefl (K:=key_in PA * key_in PB) (a ↾ Ha, b ↾ Hb)).
  - intros [a b] [c d] [e f] [Ha Hb]%andb_prop [Hc Hd]%andb_prop [He Hf]%andb_prop.
    cbn [fst snd] in *.
    exact (py_lt_trans (K:=key_in PA * key_in PB)
             (a ↾ Ha, b ↾ Hb) (c ↾ Hc, d ↾ Hd) (e ↾ He, f ↾ Hf)).
  - intros [a b] [c d] [e f] [Ha Hb]%andb_prop [Hc Hd]%andb_prop [He Hf]%andb_prop.
    cbn [fst snd] in *.
    exact (py_ge_trans (K:=key_in PA * key_in PB)
             (a ↾ Ha, b ↾ Hb) (c ↾ Hc, d ↾ Hd) (e ↾ He, f ↾ Hf)).
  - intros [a b] [c d] [Ha Hb]%andb_prop [Hc Hd]%andb_prop. cbn [fst snd] in *.
    exact (py_eq_ties (K:=key_in PA * key_in PB) (a ↾ Ha, b ↾ Hb) (c ↾ Hc, d ↾ Hd)).
Qed.

Lemma number_pairs_ordered : orders (both is_num is_num).
Proof. apply pairs_ordered; apply numbers_ordered. Qed.

(** ** Stable sorting *)

Section sorting.
Context `{PyOrdLaws K}.
Implicit Types (x y : K * value) (l : list (K * value)).


Lemma key_le_trans x y z : key_le x y → key_le y z → key_le x z.
Proof. unfold key_le. intros ??. by eapply py_ge_trans. Qed.

Lemma insert_keyed_length x l : length (insert_keyed x l) = S (length l).
Proof. induction l as [|y l IH]; simpl; [done|]. case_match; simpl; by rewrite ?IH. Qed.

Lemma insert_keyed_perm x l : insert_keyed x l ≡ₚ x :: l.
Proof.
  induction l as [|y l IH]; simpl; [done|]. case_match; [done|].
  by rewrite IH, Permutation_swap.
Qed.

Lemma insert_keyed_sorted x l :
  StronglySorted key_le l → StronglySorted key_le (insert_keyed x l).
Proof.
  induction l as [|y l IH]; simpl; intros Hs.
  - repeat constructor.
  - apply StronglySorted_cons in Hs as [Hy Hs]. destruct (py_lt x.1 y.1) eqn:E.
    + apply StronglySorted_cons. split; [|by apply StronglySorted_cons].
      assert (key_le x y) by by apply py_lt_asym.
      constructor; [done|]. eapply Forall_impl; [done|]. intros z ?.
      by eapply key_le_trans.
    + apply StronglySorted_cons. split; [|by apply IH].
      rewrite insert_keyed_perm. by constructor.
Qed.

(** Where the new element lands: behind every element it is not
    less than, in front of the first it is less than. *)
Lemma insert_keyed_split x l :
  ∃ l1 l2, l = l1 ++ l2 ∧ insert_keyed x l = l1 ++ x :: l2 ∧
    Forall (λ y, py_lt x.1 y.1 = false) l1 ∧
    (StronglySorted key_le l → Forall (λ y, py_lt x.1 y.1 = true) l2).
Proof.
  induction l as [|y l (l1 & l2 & -> & Hins & H1 & H2)]; simpl.
  - by exists [], [].
  - destruct (py_lt x.1 y.1) eqn:E.
    + exists [], (y :: l1 ++ l2). repeat split; [done|].
      intros [Hy _]%StronglySorted_cons. constructor; [done|].
      eapply Forall_impl; [done|]. intros z Hz. simpl in Hz.
      destruct (py_lt x.1 z.1) eqn:E'; [done|].
      by rewrite (py_ge_trans x.1 z.1 y.1) in E.
    + exists (y :: l1), l2. rewrite Hins. repeat split; [by constructor|].
      intros [_ ?]%StronglySorted_cons. by apply H2.
Qed.

Lemma insert_keyed_last x l :
  Forall (λ y, py_lt x.1 y.1 = false) l → insert_keyed x l = l ++ [x].
Proof. induction 1 as [|y l E _ IH]; simpl; [done|]. by rewrite E, IH. Qed.

Lemma sort_keyed_snoc l x : sort_keyed (l ++ [x]) = insert_keyed x (sort_keyed l).
Proof. unfold sort_keyed. by rewrite foldl_app. Qed.

Lemma sort_keyed_length l : length (sort_keyed l) = length l.
Proof.
  induction l as [|x l IH] using rev_ind; [done|].
  rewrite sort_keyed_snoc, insert_keyed_length, IH, length_app. simpl. lia.
Qed.

Lemma sort_keyed_perm l : sort_keyed l ≡ₚ l.
Proof.
  induction l as [|x l IH] using rev_ind; [done|].
  by rewrite sort_keyed_snoc, insert_keyed_perm, IH, Permutation_cons_append.
Qed.

Lemma sort_keyed_sorted l : StronglySorted key_le (sort_keyed l).
Proof.
  induction l as [|x l IH] using rev_ind; [constructor|].
  rewrite sort_keyed_snoc. by apply insert_keyed_sorted.
Qed.

(** A list already in order is left as it is. *)
Lemma sort_keyed_id l : StronglySorted key_le l → sort_keyed l = l.
Proof.
  induction l as [|x l IH] using rev_ind; [done|].
  intros (Hlx & Hl & _)%StronglySorted_app.
  rewrite sort_keyed_snoc, IH by done. apply insert_keyed_last, Forall_forall.
  intros y Hy. apply Hlx; [done|]. by apply list_elem_of_singleton.
Qed.

Context (sort_fn : value → result K).


Lemma decorate_inv (vs : list value) l :
  decorate sort_fn vs = Ok l → l.*2 = vs ∧ Forall (keyed_by sort_fn) l.
Proof.
  revert l. induction vs as [|v vs IH]; simpl; intros l Hl.
  - by simplify_eq.
  - destruct (sort_fn v) as [k|] eqn:Ek; [|done]. simpl in Hl.
    destruct (decorate sort_fn vs) as [l'|]; [|done]. simpl in Hl.
    injection Hl as <-. destruct (IH l' eq_refl) as [<- ?].
    split; [done|]. by constructor.
Qed.

Lemma decorate_keyed l : Forall (keyed_by sort_fn) l → decorate sort_fn l.*2 = Ok l.
Proof.
  induction 1 as [|[k v] l Hk _ IH]; [done|].
  unfold keyed_by in Hk. simpl in Hk. rewrite fmap_cons. cbn [decorate snd].
  rewrite Hk. cbn [mbind result_bind]. by rewrite IH.
Qed.

Lemma decorate_app (vs1 vs2 : list value) l1 l2 :
  decorate sort_fn vs1 = Ok l1 → decorate sort_fn vs2 = Ok l2 →
  decorate sort_fn (vs1 ++ vs2) = Ok (l1 ++ l2).
Proof.
  intros [<- H1]%decorate_inv [<- H2]%decorate_inv.
  rewrite <- fmap_app. apply decorate_keyed. by apply Forall_app.
Qed.

Lemma decorate_total (vs : list value) :
  Forall (λ v, is_ok (sort_fn v)) vs → is_ok (decorate sort_fn vs).
Proof.
  induction 1 as [|v vs [k Hk] _ [l IH]]; simpl; [by eexists|].
  rewrite Hk, IH. by eexists.
Qed.

Lemma decorate_elem (vs : list value) l v :
  decorate sort_fn vs = Ok l → v ∈ vs → is_ok (sort_fn v).
Proof.
  intros [<- Hl]%decorate_inv ([k v'] & -> & Hin)%list_elem_of_fmap.
  rewrite Forall_forall in Hl. exists k. by apply (Hl _ Hin).
Qed.


Lemma ranked_nil : ranked sort_fn [].
Proof. exists []. split; [done|constructor]. Qed.

Lemma ranked_take n (vs : list value) : ranked sort_fn vs → ranked sort_fn (take n vs).
Proof.
  intros (l & [<- Hk]%decorate_inv & Hs). exists (take n l). split.
  - rewrite <- fmap_take. apply decorate_keyed. by apply Forall_take.
  - rewrite <- (take_drop n l) in Hs. by apply StronglySorted_app in Hs as (_ & ? & _).
Qed.

Lemma all_ok_true l : all_ok l = true.
Proof.
  induction l as [|x l IH]; [done|]. cbn [all_ok]. rewrite IH, andb_true_r.
  apply forallb_forall. intros y _. apply py_ok_all.
Qed.

(** [list.sort] on values, for a list whose elements all have keys. *)
Lemma list_sort_keyed l :
  Forall (keyed_by sort_fn) l → list_sort sort_fn (VList l.*2) = Ok (VList (sort_keyed l).*2).
Proof.
  intros Hl. unfold list_sort. rewrite decorate_keyed by done.
  cbn [mbind result_bind]. by rewrite all_ok_true.
Qed.

Lemma list_sort_ranked (vs vs' : list value) :
  list_sort sort_fn (VList vs) = Ok (VList vs') →
  ranked sort_fn vs' ∧ vs' ≡ₚ vs ∧ length vs' = length vs.
Proof.
  unfold list_sort. destruct (decorate sort_fn vs) as [l|] eqn:Hl; [|done].
  cbn [mbind result_bind]. rewrite all_ok_true.
  intros [= <-]. apply decorate_inv in Hl as [<- Hk]. split_and!.
  - exists (sort_keyed l). split; [|apply sort_keyed_sorted].
    apply decorate_keyed. by rewrite sort_keyed_perm.
  - by rewrite sort_keyed_perm.
  - by rewrite !length_fmap, sort_keyed_length.
Qed.
End sorting.

(** ** Sorting keys that [<] orders *)

(** What holds of sorting under the laws holds of sorting keys in a
    set that [<] orders: such keys are sorted as keys of [key_in P]. *)
Section sorting_in.
Context `{PyOrd K} (P : K → bool) (HP : orders P).
Implicit Types (x y : K * value) (l : list (K * value)).

Local Notation "'out'" := (prod_map (proj1_sig (P:=λ k : K, P k = true)) (@id value)).

Lemma keys_in l :
  Forall (λ x, P x.1 = true) l → ∃ l' : list (key_in P * value), l = out <$> l'.
Proof.
  induction 1 as [|[k v] l Hk _ [l' ->]]; [by exists []|].
  by exists ((k ↾ Hk, v) :: l').
Qed.

Lemma insert_keyed_out (x' : key_in P * value) (l' : list (key_in P * value)) :
  insert_keyed (out x') (out <$> l') = out <$> insert_keyed x' l'.
Proof.
  induction l' as [|y' l' IH]; [done|]. rewrite fmap_cons. cbn [insert_keyed].
  change (py_lt (out x').1 (out y').1) with (py_lt x'.1 y'.1).
  destruct (py_lt x'.1 y'.1); [done|]. by rewrite IH.
Qed.

Lemma sort_keyed_out (l' : list (key_in P * value)) :
  sort_keyed (out <$> l') = out <$> sort_keyed l'.
Proof.
  induction l' as [|x' l' IH] using rev_ind; [done|].
  rewrite fmap_app, fmap_cons, fmap_nil, !sort_keyed_snoc, IH.
  apply insert_keyed_out.
Qed.

Lemma sorted_out (l' : list (key_in P * value)) :
  StronglySorted key_le (out <$> l') ↔ StronglySorted key_le l'.
Proof.
  induction l' as [|x' l' IH]; [split; constructor|].
  rewrite fmap_cons, !StronglySorted_cons, IH, Forall_fmap. done.
Qed.

Lemma insert_keyed_keys x l :
  P x.1 = true → Forall (λ y, P y.1 = true) l → Forall (λ y, P y.1 = true) (insert_keyed x l).
Proof. intros Hx Hl. rewrite insert_keyed_perm. by constructor. Qed.

Lemma sort_keyed_keys l :
  Forall (λ y, P y.1 = true) l → Forall (λ y, P y.1 = true) (sort_keyed l).
Proof. by rewrite sort_keyed_perm. Qed.

Lemma insert_keyed_sorted_in x l :
  P x.1 = true → Forall (λ y, P y.1 = true) l →
  StronglySorted key_le l → StronglySorted key_le (insert_keyed x l).
Proof.
  pose proof (key_in_laws P HP).
  destruct x as [k v]. intros Hx [l' ->]%keys_in.
  change (k, v) with (out (k ↾ Hx, v)). rewrite insert_keyed_out, !sorted_out.
  apply insert_keyed_sorted.
Qed.

Lemma insert_keyed_split_in x l :
  P x.1 = true → Forall (λ y, P y.1 = true) l →
  ∃ l1 l2, l = l1 ++ l2 ∧ insert_keyed x l = l1 ++ x :: l2 ∧
    Forall (λ y, py_lt x.1 y.1 = false) l1 ∧
    (StronglySorted key_le l → Forall (λ y, py_lt x.1 y.1 = true) l2).
Proof.
  pose proof (key_in_laws P HP).
  destruct x as [k v]. intros Hx [l' ->]%keys_in.
  destruct (insert_keyed_split (K:=key_in P) (k ↾ Hx, v) l')
    as (l1 & l2 & -> & Hins & H1 & H2).
  exists (out <$> l1), (out <$> l2). split_and!.
  - by rewrite fmap_app.
  - change (k, v) with (out (k ↾ Hx, v)). by rewrite insert_keyed_out, Hins, fmap_app.
  - by apply Forall_fmap.
  - rewrite sorted_out. intros Hs. by apply Forall_fmap, H2.
Qed.

Lemma sort_keyed_sorted_in l :
  Forall (λ y, P y.1 = true) l → StronglySorted key_le (sort_keyed l).
Proof.
  pose proof (key_in_laws P HP).
  intros [l' ->]%keys_in. rewrite sort_keyed_out, sorted_out. apply sort_keyed_sorted.
Qed.

Lemma all_ok_in l : Forall (λ y, P y.1 = true) l → all_ok l = true.
Proof.
  induction 1 as [|x l Hx Hl IH]; [done|]. cbn [all_ok]. rewrite IH, andb_true_r.
  apply forallb_forall. intros y Hy. apply (ord_ok P HP); [done|].
  rewrite Forall_forall in Hl. apply Hl. by apply list_elem_of_In.
Qed.

Lemma py_lt_total_in (k1 k2 : K) :
  P k1 = true → P k2 = true → py_lt k1 k2 = true ∨ py_eq k1 k2 = true ∨ py_lt k2 k1 = true.
Proof.
  intros H1 H2. destruct (py_lt k1 k2) eqn:E1; [by left|].
  destruct (py_lt k2 k1) eqn:E2; [by right; right|].
  right; left. by apply (ord_ties P HP).
Qed.

Context (sort_fn : value → result K).

Lemma decorate_keys_in (vs : list value) l :
  decorate sort_fn vs = Ok l →
  Forall (keyed_in sort_fn P) vs ↔ Forall (λ y, P y.1 = true) l.
Proof.
  intros [<- Hl]%decorate_inv. induction Hl as [|[k v] l Hk _ IH]; [done|].
  rewrite fmap_cons, !Forall_cons, IH. unfold keyed_by in Hk. cbn [fst snd] in *.
  unfold keyed_in. rewrite Hk. naive_solver.
Qed.

Lemma decorate_total_in (vs : list value) :
  Forall (keyed_in sort_fn P) vs →
  ∃ l, decorate sort_fn vs = Ok l ∧ Forall (λ y, P y.1 = true) l.
Proof.
  intros Hvs. destruct (decorate_total sort_fn vs) as [l Hl].
  { eapply Forall_impl; [done|]. intros v (k & ? & _). by exists k. }
  exists l. split; [done|]. by apply (decorate_keys_in vs).
Qed.

Lemma ranked_take_in n (vs : list value) :
  Forall (keyed_in sort_fn P) vs → Forall (keyed_in sort_fn P) (take n vs).
Proof. apply Forall_take. Qed.

(** [list.sort] on a list of entries with keys in [P]. *)
Lemma list_sort_in (vs : list value) :
  Forall (keyed_in sort_fn P) vs →
  ∃ vs', list_sort sort_fn (VList vs) = Ok (VList vs') ∧
    ranked sort_fn vs' ∧ Forall (keyed_in sort_fn P) vs' ∧
    vs' ≡ₚ vs ∧ length vs' = length vs.
Proof.
  intros Hvs. destruct (decorate_total_in vs Hvs) as (l & Hl & HPl).
  exists (sort_keyed l).*2. pose proof (decorate_inv _ _ _ Hl) as [<- Hk].
  assert (decorate sort_fn (sort_keyed l).*2 = Ok (sort_keyed l)) as Hl'.
  { apply decorate_keyed. by rewrite sort_keyed_perm. }
  split_and!.
  - unfold list_sort. rewrite Hl. cbn [mbind result_bind]. by rewrite all_ok_in.
  - exists (sort_keyed l). split; [done|]. by apply sort_keyed_sorted_in.
  - apply (decorate_keys_in _ _ Hl'). by apply sort_keyed_keys.
  - by rewrite sort_keyed_perm.
  - by rewrite !length_fmap, sort_keyed_length.
Qed.
End sorting_in.


(** ** Running the monads *)

Lemma result_bind_ok {A B} (r : result A) (f : A → result B) b :
  r ≫= f = Ok b ↔ ∃ a, r = Ok a ∧ f a = Ok b.
Proof. destruct r; simpl; naive_solver. Qed.

Lemma M_bind_ok {A B} (m : M A) (f : A → M B) w r :
  (m ≫= f) w = Ok r ↔ ∃ a w', m w = Ok (a, w') ∧ f a w' = Ok r.
Proof.
  unfold mbind, M_bind. destruct (m w) as [[a w']|]; naive_solver.
Qed.

Lemma M_ret_ok {A} (a b : A) w w' : mret (M:=M) a w = Ok (b, w') ↔ b = a ∧ w' = w.
Proof. unfold mret, M_ret. naive_solver. Qed.

Lemma lift_ok {A} (r : result A) w a w' : lift r w = Ok (a, w') ↔ r = Ok a ∧ w' = w.
Proof. unfold lift. destruct r; naive_solver. Qed.

Lemma lift_bind_run {A B} (r : result A) (f : A → M B) a w :
  r = Ok a → (lift r ≫= f) w = f a w.
Proof. by intros ->. Qed.

Lemma getitem_ok d k v : getitem d k = Ok v ↔ ∃ m, d = VDict m ∧ m !! k = Some v.
Proof.
  destruct d; simpl; try naive_solver.
  destruct (d !! k) eqn:E; naive_solver.
Qed.

Lemma setdefault_ok d k dflt v d' :
  setdefault d k dflt = Ok (v, d') ↔
  ∃ m, d = VDict m ∧
    (m !! k = Some v ∧ d' = d ∨ m !! k = None ∧ v = dflt ∧ d' = VDict (<[k:=dflt]> m)).
Proof.
  destruct d; simpl; try naive_solver.
  destruct (d !! k) eqn:E; naive_solver.
Qed.

Lemma setitem_ok d k v d' :
  setitem d k v = Ok d' ↔ ∃ m, d = VDict m ∧ d' = VDict (<[k:=v]> m).
Proof. destruct d; simpl; naive_solver. Qed.

Lemma append_ok l x l' : append l x = Ok l' ↔ ∃ xs, l = VList xs ∧ l' = VList (xs ++ [x]).
Proof. destruct l; simpl; naive_solver. Qed.

Lemma slice_to_ok l n l' :
  slice_to l n = Ok l' ↔
  ∃ xs, l = VList xs ∧
    l' = VList (if decide (0 ≤ n) then take (Z.to_nat n) xs
                else take (length xs - Z.to_nat (- n))%nat xs).
Proof. destruct l; simpl; naive_solver. Qed.

Lemma list_sort_ok `{PyOrd K} (sort_fn : value → result K) l l' :
  list_sort sort_fn l = Ok l' ↔
  ∃ xs kl, l = VList xs ∧ decorate sort_fn xs = Ok kl ∧ all_ok kl = true ∧
    l' = VList (sort_keyed kl).*2.
Proof.
  split.
  - destruct l as [| | | | |xs|]; try done. unfold list_sort.
    intros (kl & ? & Hl)%result_bind_ok. destruct (all_ok kl) eqn:Hok; [|done].
    injection Hl as <-. by exists xs, kl.
  - intros (xs & kl & -> & Hkl & Hok & ->). unfold list_sort. rewrite Hkl.
    cbn [mbind result_bind]. by rewrite Hok.
Qed.

Lemma write_save_ok data w u w' :
  write_save data w = Ok (u, w') ↔ w' = World (Stored data) (notices w).
Proof. unfold write_save. destruct u. naive_solver. Qed.

Lemma print_ok line w u w' :
  print line w = Ok (u, w') ↔ w' = World (disk w) (notices w ++ [line]).
Proof. unfold print. destruct u. naive_solver. Qed.

(** Takes a run that ended well apart, step by step. *)
Ltac unbind H :=
  repeat match type of H with
  | (_ ≫= _) _ = Ok _ =>
      let a := fresh "a" in let w := fresh "w" in let H' := fresh "Hstep" in
      apply M_bind_ok in H as (a & w & H' & H); unbind H'
  | _ ≫= _ = Ok _ =>
      let a := fresh "a" in let H' := fresh "Hstep" in
      apply result_bind_ok in H as (a & H' & H); unbind H'
  | lift _ _ = Ok _ => apply lift_ok in H as [H ?]
  | mret _ _ = Ok _ => apply M_ret_ok in H as [? ?]
  | mret _ = Ok _ => injection H as ?
  | (let '(_, _) := ?p in _) _ = Ok _ => destruct p
  | (let '(_, _) := ?p in _) = Ok _ => destruct p
  | getitem _ _ = Ok _ => apply getitem_ok in H as (? & ? & H)
  | setdefault _ _ _ = Ok ?p => is_var p; destruct p
  | setdefault _ _ _ = Ok (_, _) => apply setdefault_ok in H as (? & ? & H)
  | setitem _ _ _ = Ok _ => apply setitem_ok in H as (? & ? & ?)
  | append _ _ = Ok _ => apply append_ok in H as (? & ? & ?)
  | slice_to _ _ = Ok _ => apply slice_to_ok in H as (? & ? & ?)
  | list_sort _ _ = Ok _ => apply list_sort_ok in H as (? & ? & ? & H & ? & ?)
  | write_save _ _ = Ok _ => apply write_save_ok in H
  | print _ _ = Ok _ => apply print_ok in H
  end.


(** ** The leaderboard engine *)

Section engine.
Context `{PyOrd K} (sort_fn : value → result K).

(** What a successful insert has done, and that nothing else can
    have happened. *)
Lemma add_leaderboard_entry_inv data game_key mode_key entry top_n w data' w' :
  add_leaderboard_entry data game_key mode_key entry sort_fn top_n w = Ok (data', w') ↔
  ∃ (m boards lbs : gmap string value) (lb : list value) (kl : list (K * value)),
    data = VDict m ∧ m !! "leaderboards" = Some (VDict boards) ∧
    (boards !! game_key = None ∧ lbs = ∅ ∨ boards !! game_key = Some (VDict lbs)) ∧
    (lbs !! py_str mode_key = None ∧ lb = [] ∨ lbs !! py_str mode_key = Some (VList lb)) ∧
    decorate sort_fn (lb ++ [entry]) = Ok kl ∧
    all_ok kl = true ∧
    data' = VDict (<["leaderboards" :=
              VDict (<[game_key :=
                VDict (<[py_str mode_key :=
                  VList (if decide (0 ≤ top_n) then take (Z.to_nat top_n) (sort_keyed kl).*2
                         else take (length (sort_keyed kl).*2 - Z.to_nat (- top_n))%nat
                                   (sort_keyed kl).*2)]> lbs)]> boards)]> m) ∧
    w' = World (Stored data') (notices w).
Proof.
  split.
  - intros Hrun. unfold add_leaderboard_entry in Hrun. unbind Hrun. simplify_eq.
    match goal with z : () |- _ => destruct z end.
    rename select (_ !! "leaderboards" = Some _) into Hm.
    rename select (decorate _ _ = Ok _) into Hkl.
    rename select (all_ok _ = true) into Hall.
    match goal with
    | Hb' : _ !! game_key = _ ∧ _ ∨ _, Hl' : _ !! py_str mode_key = _ ∧ _ ∨ _ |- _ =>
        rename Hb' into Hb; rename Hl' into Hl
    end.
    change (dict []) with (VDict ∅) in *.
    destruct Hb as [[Hb ?]|(Hb & ? & ?)], Hl as [[Hl ?]|(Hl & ? & ?)]; simplify_eq.
    + eexists _, _, _, _, _.
      split; [done|]. split; [exact Hm|]. split; [right; exact Hb|].
      split; [right; exact Hl|]. split; [exact Hkl|]. by split; [exact Hall|].
    + eexists _, _, _, [], _.
      split; [done|]. split; [exact Hm|]. split; [right; exact Hb|].
      split; [by left|]. split; [exact Hkl|]. split; [exact Hall|].
      by rewrite insert_insert_eq.
    + eexists _, _, ∅, [], _.
      split; [done|]. split; [exact Hm|]. split; [by left|].
      split; [by left|]. split; [exact Hkl|]. split; [exact Hall|].
      by rewrite !insert_insert_eq.
  - intros (m & boards & lbs & lb & kl & -> & Hm & Hb & Hl & Hkl & Hall & -> & ->).
    unfold add_leaderboard_entry.
    erewrite lift_bind_run by (simpl; by rewrite Hm).
    change (dict []) with (VDict ∅).
    destruct Hb as [[Hb ->]|Hb], Hl as [[Hl ->]|Hl];
      (erewrite lift_bind_run by (simpl; by rewrite Hb)); cbv beta iota;
      (erewrite lift_bind_run by (simpl; by rewrite Hl)); cbv beta iota;
      (erewrite lift_bind_run by done);
      (erewrite lift_bind_run
         by (unfold list_sort; rewrite Hkl; cbn [mbind result_bind]; by rewrite Hall));
      do 4 (erewrite lift_bind_run by done);
      unfold write_save, mbind, M_bind, mret, M_ret;
      by rewrite ?insert_insert_eq.
Qed.
End engine.

Lemma dict_get_ok d k dflt v :
  dict_get d k dflt = Ok v ↔ ∃ m, d = VDict m ∧ v = default dflt (m !! k).
Proof. destruct d; simpl; naive_solver. Qed.

Lemma read_board_ok data game_key mode_key v :
  read_board data game_key mode_key = Ok v ↔
  ∃ (m boards lbs : gmap string value),
    data = VDict m ∧ m !! "leaderboards" = Some (VDict boards) ∧
    (boards !! game_key = None ∧ lbs = ∅ ∨ boards !! game_key = Some (VDict lbs)) ∧
    v = default (VList []) (lbs !! py_str mode_key).
Proof.
  unfold read_board. split.
  - intros Hrun. unbind Hrun. simplify_eq.
    apply dict_get_ok in Hstep0 as (boards & -> & ->).
    apply dict_get_ok in Hrun as (lbs & Hlbs & ->).
    eexists _, boards, lbs. split; [done|]. split; [done|]. split; [|done].
    change (dict []) with (VDict ∅) in Hlbs.
    destruct (boards !! game_key) as [b|]; simpl in Hlbs; simplify_eq; [by right|by left].
  - intros (m & boards & lbs & -> & Hm & Hb & ->). simpl. rewrite Hm. simpl.
    by destruct Hb as [[-> ->]| ->].
Qed.


Section board.
Context `{PyOrd K} (P : K → bool) (HP : orders P) (sort_fn : value → result K).

(** An insert into a readable board whose entries, like the new one,
    have keys that [<] orders: it goes through, and the board then
    reads as the sorted list cut to size. *)
Lemma add_leaderboard_entry_board data game_key mode_key entry top_n w lb kl :
  read_board data game_key mode_key = Ok (VList lb) →
  decorate sort_fn (lb ++ [entry]) = Ok kl →
  Forall (λ x, P x.1 = true) kl →
  0 ≤ top_n →
  ∃ data',
    add_leaderboard_entry data game_key mode_key entry sort_fn top_n w
      = Ok (data', World (Stored data') (notices w)) ∧
    read_board data' game_key mode_key
      = Ok (VList (take (Z.to_nat top_n) (sort_keyed kl).*2)).
Proof.
  intros (m & boards & lbs & -> & Hm & Hb & Hlb)%read_board_ok Hkl HPkl Hn.
  eexists. split.
  - apply add_leaderboard_entry_inv. exists m, boards, lbs, lb, kl.
    split_and!; try done; [|by apply (all_ok_in P)].
    destruct (lbs !! py_str mode_key); simpl in Hlb; simplify_eq; [by right|by left].
  - apply read_board_ok. eexists _, _, _. split; [done|].
    split; [by rewrite lookup_insert_eq|]. split; [right; by rewrite lookup_insert_eq|].
    rewrite lookup_insert_eq. simpl. by rewrite decide_True.
Qed.

(** On a ranked board the new entry is put in its place; nothing
    else moves. *)
Lemma add_leaderboard_entry_ranked data game_key mode_key entry top_n w lb k :
  read_board data game_key mode_key = Ok (VList lb) →
  ranked sort_fn lb → Forall (keyed_in sort_fn P) lb →
  sort_fn entry = Ok k → P k = true → 0 ≤ top_n →
  ∃ data' kl,
    decorate sort_fn lb = Ok kl ∧
    Forall (λ x, P x.1 = true) kl ∧
    add_leaderboard_entry data game_key mode_key entry sort_fn top_n w
      = Ok (data', World (Stored data') (notices w)) ∧
    read_board data' game_key mode_key
      = Ok (VList (take (Z.to_nat top_n) (insert_keyed (k, entry) kl).*2)) ∧
    ranked sort_fn (take (Z.to_nat top_n) (insert_keyed (k, entry) kl).*2) ∧
    Forall (keyed_in sort_fn P) (take (Z.to_nat top_n) (insert_keyed (k, entry) kl).*2).
Proof.
  intros Hread (kl & Hkl & Hs) Hlb Hk HPk Hn.
  pose proof (proj1 (decorate_keys_in P sort_fn lb kl Hkl) Hlb) as HPkl.
  assert (decorate sort_fn (lb ++ [entry]) = Ok (kl ++ [(k, entry)])) as Hkl'.
  { apply decorate_app; [done|]. simpl. by rewrite Hk. }
  destruct (add_leaderboard_entry_board data game_key mode_key entry top_n w lb _
              Hread Hkl') as (data' & Hrun & Hread'); [|done|].
  { apply Forall_app. split; [done|]. by constructor. }
  rewrite sort_keyed_snoc, sort_keyed_id in Hread' by done.
  assert (decorate sort_fn (insert_keyed (k, entry) kl).*2 = Ok (insert_keyed (k, entry) kl))
    as Hins.
  { apply decorate_keyed. rewrite insert_keyed_perm. constructor; [done|].
    by apply decorate_inv in Hkl as [_ ?]. }
  exists data', kl. split_and!; try done.
  - apply ranked_take. exists (insert_keyed (k, entry) kl). split; [done|].
    by apply (insert_keyed_sorted_in P).
  - apply Forall_take. apply (decorate_keys_in P sort_fn _ _ Hins).
    by apply insert_keyed_keys.
Qed.

Lemma add_entries_bound entries : ∀ data game_key mode_key w lb,
  read_board data game_key mode_key = Ok (VList lb) →
  ranked sort_fn lb → Forall (keyed_in sort_fn P) lb →
  (length lb ≤ 100)%nat →
  Forall (keyed_in sort_fn P) entries →
  ∃ data' w' lb',
    add_entries entries data game_key mode_key sort_fn w = Ok (data', w') ∧
    read_board data' game_key mode_key = Ok (VList lb') ∧
    length lb' = ((length lb + length entries) `min` 100)%nat ∧
    ranked sort_fn lb'.
Proof.
  induction entries as [|e es IH]; intros data game_key mode_key w lb Hread Hlb HPlb Hle Hes.
  - exists data, w, lb. split_and!; try done. simpl. lia.
  - apply Forall_cons in Hes as [(k & Hk & HPk) Hes].
    destruct (add_leaderboard_entry_ranked data game_key mode_key e TOP_N w lb k)
      as (data1 & kl & Hkl & _ & Hrun & Hread1 & Hranked & HP1); try done.
    destruct (IH data1 game_key mode_key (World (Stored data1) (notices w)) _
                Hread1 Hranked HP1) as (data' & w' & lb' & Hrun' & Hread' & Hlen & Hr');
      [rewrite length_take; change (Z.to_nat TOP_N) with 100%nat; lia|done|].
    exists data', w', lb'. split_and!; try done.
    + simpl. unfold mbind, M_bind. by rewrite Hrun.
    + rewrite Hlen, length_take, length_fmap, insert_keyed_length.
      apply decorate_inv in Hkl as [<- _]. rewrite length_fmap.
      change (Z.to_nat TOP_N) with 100%nat. rewrite length_cons. lia.
Qed.

(** Where an insert into a ranked board puts the new entry: behind
    every stored entry whose key is not greater, so also behind those
    with an equal key, and in front of the rest. *)
Lemma add_leaderboard_entry_place data game_key mode_key entry k w lb :
  read_board data game_key mode_key = Ok (VList lb) →
  ranked sort_fn lb → Forall (keyed_in sort_fn P) lb →
  sort_fn entry = Ok k → P k = true →
  ∃ data' before after,
    add_leaderboard_entry data game_key mode_key entry sort_fn TOP_N w
      = Ok (data', World (Stored data') (notices w)) ∧
    lb = before ++ after ∧
    read_board data' game_key mode_key = Ok (VList (take 100 (before ++ entry :: after))) ∧
    Forall (λ x, ∃ kx, sort_fn x = Ok kx ∧ py_lt k kx = false) before ∧
    Forall (λ x, ∃ kx, sort_fn x = Ok kx ∧ py_lt k kx = true) after.
Proof.
  intros Hread Hranked HPlb Hk HPk.
  destruct (add_leaderboard_entry_ranked data game_key mode_key entry TOP_N w lb k)
    as (data' & kl & Hkl & HPkl & Hrun & Hread' & _); try done.
  destruct Hranked as (kl' & Hkl' & Hsorted). rewrite Hkl in Hkl'. injection Hkl' as <-.
  destruct (insert_keyed_split_in P HP (k, entry) kl) as (l1 & l2 & -> & Hins & H1 & H2);
    [done..|].
  apply decorate_inv in Hkl as [<- Hkeyed]. apply Forall_app in Hkeyed as [Hk1 Hk2].
  exists data', l1.*2, l2.*2. split_and!.
  - done.
  - by rewrite fmap_app.
  - by rewrite Hread', Hins, fmap_app.
  - apply Forall_fmap, Forall_forall. intros [kx x] Hx. exists kx.
    rewrite Forall_forall in Hk1, H1. split; [by apply (Hk1 _ Hx)|by apply (H1 _ Hx)].
  - apply Forall_fmap, Forall_forall. intros [kx x] Hx. exists kx.
    specialize (H2 Hsorted). rewrite Forall_forall in Hk2, H2.
    split; [by apply (Hk2 _ Hx)|by apply (H2 _ Hx)].
Qed.
End board.

(** C1. Leaderboard bound: start from a ledger in which the board of
    [(game_key, mode_key)] is empty or not yet there, and insert
    [entries] one after the other, each of which has a key under the
    mode's [sort_fn], the keys being of a kind that [<] orders (as
    numbers are, and pairs of numbers).  After the first [k] inserts,
    for every [k] up to the number of entries, the board holds
    [min k 100] entries and is in ascending key order. *)
Theorem leaderboard_bound `{PyOrd K} (sort_fn : value → result K) (P : K → bool)
    (data : value) (game_key : string) (mode_key : modekey)
    (entries : list value) (w : world) (k : nat) :
  orders P →
  read_board data game_key mode_key = Ok (VList []) →
  Forall (keyed_in sort_fn P) entries →
  (k ≤ length entries)%nat →
  ∃ data' w' lb,
    add_entries (take k entries) data game_key mode_key sort_fn w = Ok (data', w') ∧
    read_board data' game_key mode_key = Ok (VList lb) ∧
    length lb = (k `min` 100)%nat ∧
    ranked sort_fn lb.
Proof.
  intros HP Hread Hes Hk.
  destruct (add_entries_bound P HP sort_fn (take k entries) data game_key mode_key w [])
    as (data' & w' & lb & Hrun & Hread' & Hlen & Hranked).
  - done.
  - apply ranked_nil.
  - constructor.
  - simpl. lia.
  - by apply Forall_take.
  - exists data', w', lb. split_and!; try done.
    rewrite Hlen, length_take. simpl. lia.
Qed.

Lemma leaderboard_bound_witness :
  ∃ data' w' lb,
    add_entries
      (take 2 [dict [("name", VStr "ann"); ("total_time", VFloat (3 # 2))];
               dict [("name", VStr "bob"); ("total_time", VFloat (1 # 2))];
               dict [("name", VStr "cy"); ("total_time", VFloat 1)]]%string)
      BASE_SAVE "reaction_game" (MInt 5) time_sort_fn (World Absent [])
      = Ok (data', w') ∧
    read_board data' "reaction_game" (MInt 5) = Ok (VList lb) ∧
    length lb = (2 `min` 100)%nat ∧
    ranked time_sort_fn lb.
Proof.
  apply (leaderboard_bound time_sort_fn is_num).
  - exact numbers_ordered.
  - reflexivity.
  - repeat constructor; eexists; split; reflexivity.
  - simpl. lia.
Defined.

(** C10. Frame of an insert: whenever [add_leaderboard_entry] goes
    through, every top-level key other than "leaderboards" (the players
    map among them), the mode map of every other game and every other
    mode of the same game read as before; the board written is the one
    under [str(mode_key)], so an int mode key and its decimal string
    name the same board. *)
Theorem add_leaderboard_entry_frame `{PyOrd K} (sort_fn : value → result K)
    (data : value) (game_key : string) (mode_key : modekey) (entry : value)
    (top_n : Z) (w : world) (data' : value) (w' : world) :
  add_leaderboard_entry data game_key mode_key entry sort_fn top_n w = Ok (data', w') →
  (∀ k, k ≠ "leaderboards"%string → at_path [k] data' = at_path [k] data) ∧
  at_path ["players"%string] data' = at_path ["players"%string] data ∧
  (∀ g, g ≠ game_key →
     at_path ["leaderboards"%string; g] data' = at_path ["leaderboards"%string; g] data) ∧
  (∀ m, m ≠ py_str mode_key →
     at_path ["leaderboards"%string; game_key; m] data'
       = at_path ["leaderboards"%string; game_key; m] data) ∧
  (∃ lb, at_path ["leaderboards"%string; game_key; py_str mode_key] data' = Some (VList lb)) ∧
  (∀ n, mode_key = MInt n →
     add_leaderboard_entry data game_key (MStr (pretty n)) entry sort_fn top_n w
       = Ok (data', w')).
Proof.
  intros Hrun. split_and!; [| | | | |by intros n ->].
  all: apply add_leaderboard_entry_inv in Hrun
         as (m & boards & lbs & lb & kl & -> & Hm & Hb & Hl & Hkl & Hall & -> & ->);
       cbn [at_path].
  - intros k Hk. by rewrite lookup_insert_ne.
  - by rewrite lookup_insert_ne.
  - intros g Hg. rewrite lookup_insert_eq, Hm. simpl. by rewrite lookup_insert_ne.
  - intros md Hmd. rewrite lookup_insert_eq, Hm. simpl. rewrite lookup_insert_eq. simpl.
    rewrite lookup_insert_ne by done.
    destruct Hb as [[-> ->]| ->]; [|done]. simpl. by rewrite lookup_empty.
  - rewrite !lookup_insert_eq. simpl. rewrite !lookup_insert_eq. simpl.
    rewrite lookup_insert_eq. by eexists.
Qed.

Lemma add_leaderboard_entry_frame_witness :
  let entry := dict [("name", VStr "ann"); ("total_time", VFloat (3 # 2)); ("ts", VInt 7)]%string in
  let data' :=
    dict [("leaderboards",
           dict [("guess_the_number", dict []);
                 ("reaction_game", dict []);
                 ("gibberish_typing", dict []);
                 ("number_memory", dict []);
                 ("sequence_tap", dict [("20", VList [entry])]);
                 ("word_memory", dict []);
                 ("math_speed", dict [])]);
          ("players", dict [])]%string in
  (∀ k, k ≠ "leaderboards"%string → at_path [k] data' = at_path [k] BASE_SAVE) ∧
  at_path ["players"%string] data' = at_path ["players"%string] BASE_SAVE ∧
  (∀ g, g ≠ "sequence_tap"%string →
     at_path ["leaderboards"%string; g] data' = at_path ["leaderboards"%string; g] BASE_SAVE) ∧
  (∀ m, m ≠ py_str (MInt 20) →
     at_path ["leaderboards"%string; "sequence_tap"%string; m] data'
       = at_path ["leaderboards"%string; "sequence_tap"%string; m] BASE_SAVE) ∧
  (∃ lb, at_path ["leaderboards"%string; "sequence_tap"%string; py_str (MInt 20)] data'
           = Some (VList lb)) ∧
  (∀ n, MInt 20 = MInt n →
     add_leaderboard_entry BASE_SAVE "sequence_tap" (MStr (pretty n)) entry time_sort_fn
       TOP_N (World Absent [])
       = Ok (data', World (Stored data') [])).
Proof.
  intros entry data'.
  apply (add_leaderboard_entry_frame time_sort_fn BASE_SAVE "sequence_tap" (MInt 20)
           entry TOP_N (World Absent []) data' (World (Stored data') [])).
  reflexivity.
Defined.

(** What the comparators make of entries with numbers in their
    fields. *)
Lemma pair_cmp_numbers (v1 v2 w1 w2 : value) (a1 a2 b1 b2 : Q) :
  as_number v1 = Some a1 → as_number v2 = Some a2 →
  as_number w1 = Some b1 → as_number w2 = Some b2 →
  py_lt (v1, v2) (w1, w2) = py_lt (a1, a2) (b1, b2) ∧
  both is_num is_num (v1, v2) = true.
Proof.
  intros H1 H2 H3 H4.
  destruct (value_cmp_numbers v1 w1 a1 b1 H1 H3) as (E1 & E2 & _).
  destruct (value_cmp_numbers v2 w2 a2 b2 H2 H4) as (E3 & _ & _).
  split.
  - change (py_lt (v1, v2) (w1, w2))
      with (if value_eq v1 w1 then value_lt v2 w2 else value_lt v1 w1).
    by rewrite E1, E2, E3.
  - unfold both, is_num. cbn [fst snd]. by rewrite H1, H2.
Qed.

Lemma neg_number (v : value) (a : Q) :
  as_number v = Some a → ∃ v', neg v = Ok v' ∧ as_number v' = Some (- a)%Q.
Proof.
  destruct v as [| [] | | | | |]; simpl; intros; simplify_eq; by eexists.
Qed.

Lemma number_memory_sort_fn_fields (x : value) (a t : Q) :
  number_field x "max_length" = Ok a → number_field x "total_time" = Ok t →
  ∃ v1 v2, number_memory_sort_fn x = Ok (v1, v2) ∧
    as_number v1 = Some (- a)%Q ∧ as_number v2 = Some t.
Proof.
  unfold number_field, number_memory_sort_fn. intros Ha Ht.
  unbind Ha. unbind Ht. subst. simplify_eq.
  apply num_as_number in Ha, Ht. destruct (neg_number _ _ Ha) as (v1 & Hneg & Hv1).
  eexists v1, _. split; [|done]. simpl.
  rewrite Hstep, Hstep0. simpl. by rewrite Hneg.
Qed.

Lemma number_memory_key_behind (ml a t tt : Q) :
  (ml < a ∨ ml == a ∧ t < tt)%Q → py_lt ((- ml)%Q, tt) ((- a)%Q, t) = false.
Proof.
  intros Hw. simpl. destruct (Qeq_bool (- ml) (- a)) eqn:E.
  - apply Qeq_bool_iff in E. apply negb_false_iff, Qle_bool_iff. lra.
  - apply negb_false_iff, Qle_bool_iff. destruct Hw as [?|[E' _]]; [lra|].
    apply Qeq_bool_neq in E. lra.
Qed.

(** C8. A full Number Memory "hard_6" board (100 entries, ranked)
    receives an entry that ranks behind every stored one.  The insert
    goes through; sorted with the newcomer the list is the old board
    followed by the newcomer, so the newcomer is the lowest-ranked
    entry after the insert; it is the one cut off, and the board reads
    as the same 100 entries in the same places. *)
Theorem number_memory_full_board_drops_last (data : value) (w : world)
    (lb : list value) (name : string) (max_length : Z) (total_time : Q) (ts : Z) :
  let entry := dict [("name", VStr name); ("max_length", VInt max_length);
                     ("total_time", VFloat total_time); ("ts", VInt ts)]%string in
  read_board data "number_memory" (MStr "hard_6") = Ok (VList lb) →
  length lb = 100%nat →
  ranked number_memory_sort_fn lb →
  ranks_behind_all max_length total_time lb →
  ∃ data',
    add_leaderboard_entry data "number_memory" (MStr "hard_6") entry
      number_memory_sort_fn TOP_N w = Ok (data', World (Stored data') (notices w)) ∧
    list_sort number_memory_sort_fn (VList (lb ++ [entry])) = Ok (VList (lb ++ [entry])) ∧
    read_board data' "number_memory" (MStr "hard_6") = Ok (VList lb).
Proof.
  intros entry Hread Hlen Hranked Hbehind.
  set (k := (VInt (- max_length), VFloat total_time)).
  assert (number_memory_sort_fn entry = Ok k) as Hk by reflexivity.
  assert (Forall (λ x, ∃ kx, number_memory_sort_fn x = Ok kx ∧
                         both is_num is_num kx = true ∧ py_lt k kx = false) lb) as Hlb.
  { eapply Forall_impl; [exact Hbehind|]. intros x (a & t & Ha & Ht & Hw).
    destruct (number_memory_sort_fn_fields x a t Ha Ht) as (v1 & v2 & Hx & H1 & H2).
    exists (v1, v2). split; [done|].
    destruct (pair_cmp_numbers (VInt (- max_length)) (VFloat total_time) v1 v2
                (- inject_Z max_length)%Q total_time (- a)%Q t) as [E _]; try done.
    destruct (pair_cmp_numbers v1 v2 v1 v2 (- a)%Q t (- a)%Q t) as [_ ?]; try done.
    split; [done|]. unfold k. rewrite E. by apply number_memory_key_behind. }
  assert (Forall (keyed_in number_memory_sort_fn (both is_num is_num)) lb) as HPlb.
  { eapply Forall_impl; [exact Hlb|]. intros x (kx & ? & ? & _). by exists kx. }
  destruct (add_leaderboard_entry_ranked (both is_num is_num) number_pairs_ordered
              number_memory_sort_fn data "number_memory"
              (MStr "hard_6") entry TOP_N w lb _ Hread Hranked HPlb Hk)
    as (data' & kl & Hkl & HPkl & Hrun & Hread' & _); [done..|].
  destruct Hranked as (kl' & Hkl' & Hsorted).
  rewrite Hkl in Hkl'. injection Hkl' as <-.
  pose proof (decorate_inv _ _ _ Hkl) as [Hkllb Hkeyed].
  assert (insert_keyed (k, entry) kl = kl ++ [(k, entry)]) as Hins.
  { apply insert_keyed_last. apply Forall_forall. intros [kx x] Hx.
    rewrite Forall_forall in Hkeyed. pose proof (Hkeyed _ Hx) as Hkx.
    rewrite Forall_forall in Hlb.
    destruct (Hlb x) as (kx' & Hx' & _ & Hlt).
    { rewrite <- Hkllb. apply list_elem_of_fmap. by exists (kx, x). }
    unfold keyed_by in Hkx. cbn [fst snd] in *. rewrite Hx' in Hkx. by injection Hkx as <-. }
  rewrite Hins, fmap_app, Hkllb in Hread'. simpl in Hread'.
  change (Z.to_nat TOP_N) with 100%nat in Hread'.
  rewrite take_app_length' in Hread' by done.
  exists data'. split_and!; [done| |done].
  assert (decorate number_memory_sort_fn (lb ++ [entry]) = Ok (kl ++ [(k, entry)])) as Hkl'.
  { apply decorate_app; [done|]. cbn [decorate]. by rewrite Hk. }
  unfold list_sort. rewrite Hkl'.
  cbn [mbind result_bind]. rewrite (all_ok_in (both is_num is_num) number_pairs_ordered).
  - rewrite sort_keyed_snoc, sort_keyed_id, Hins by done.
    by rewrite fmap_app, Hkllb.
  - apply Forall_app. split; [done|]. by constructor.
Qed.

Lemma number_memory_full_board_drops_last_witness :
  let entry := dict [("name", VStr "bob"); ("max_length", VInt 6);
                     ("total_time", VFloat 1); ("ts", VInt 0)]%string in
  ∃ data',
    add_leaderboard_entry sample_hard_6_ledger "number_memory" (MStr "hard_6") entry
      number_memory_sort_fn TOP_N (World Absent [])
      = Ok (data', World (Stored data') (notices (World Absent []))) ∧
    list_sort number_memory_sort_fn (VList (sample_hard_6_board ++ [entry]))
      = Ok (VList (sample_hard_6_board ++ [entry])) ∧
    read_board data' "number_memory" (MStr "hard_6") = Ok (VList sample_hard_6_board).
Proof.
  apply (number_memory_full_board_drops_last sample_hard_6_ledger (World Absent [])
           sample_hard_6_board "bob" 6 1 0).
  - reflexivity.
  - reflexivity.
  - destruct (list_sort_in (both is_num is_num) number_pairs_ordered number_memory_sort_fn
                sample_hard_6_board) as (lb' & Hsort & Hranked & _).
    + apply Forall_fmap, Forall_forall. intros i _. eexists. split; reflexivity.
    + assert (list_sort number_memory_sort_fn (VList sample_hard_6_board)
              = Ok (VList sample_hard_6_board)) as E by reflexivity.
      rewrite E in Hsort. by injection Hsort as <-.
  - apply Forall_fmap, Forall_forall. intros i _.
    exists 20%Q, (inject_Z (Z.of_nat i)). split; [reflexivity|]. split; [reflexivity|].
    left. reflexivity.
Defined.

Lemma tuple_lt_spec (a1 t1 a2 t2 : Q) :
  py_lt (a1, t1) (a2, t2) = true ↔ (a1 < a2 ∨ a1 == a2 ∧ t1 < t2)%Q.
Proof.
  change (py_lt (a1, t1) (a2, t2))
    with (if Qeq_bool a1 a2 then py_lt t1 t2 else py_lt a1 a2).
  destruct (Qeq_bool a1 a2) eqn:E; rewrite num_lt_spec.
  - apply Qeq_bool_iff in E. split; [by right|]. intros [?|[_ ?]]; [lra|done].
  - apply Qeq_bool_neq in E. split; [by left|]. intros [?|[? _]]; [done|lra].
Qed.

(** ** The store *)

Lemma ensure_keys_loop (keys : list string) : ∀ boards : gmap string value,
  foldl (λ acc key, b ← acc; '(_, b) ← setdefault b key (dict []); mret b)
        (Ok (VDict boards)) keys = Ok (VDict (with_keys keys boards)).
Proof.
  induction keys as [|key keys IH]; intros boards; [done|].
  unfold with_keys. simpl. destruct (boards !! key); simpl; apply IH.
Qed.

Lemma with_keys_keeps (keys : list string) : ∀ (boards : gmap string value) g v,
  boards !! g = Some v → with_keys keys boards !! g = Some v.
Proof.
  induction keys as [|key keys IH]; intros boards g v Hg; [done|].
  unfold with_keys. simpl. apply IH. destruct (boards !! key) eqn:E; [done|].
  rewrite lookup_insert_ne; [done|]. intros ->. congruence.
Qed.

Lemma with_keys_has (keys : list string) : ∀ boards : gmap string value,
  Forall (λ g, is_Some (with_keys keys boards !! g)) keys.
Proof.
  induction keys as [|key keys IH]; intros boards; constructor; [|apply IH].
  unfold with_keys. simpl. destruct (boards !! key) eqn:E.
  - eexists. by apply with_keys_keeps.
  - eexists. apply with_keys_keeps. apply lookup_insert_eq.
Qed.

Lemma with_keys_id (keys : list string) (boards : gmap string value) :
  Forall (λ g, is_Some (boards !! g)) keys → with_keys keys boards = boards.
Proof.
  induction 1 as [|key keys [v Hv] _ IH]; [done|].
  unfold with_keys. simpl. by rewrite Hv.
Qed.

(** A document that is a dict, with "leaderboards" absent or a dict,
    is completed to the schema; what it had is kept, and a missing
    "players" becomes the empty dict. *)
Lemma ensure_keys_repairs (m : gmap string value) :
  (m !! "leaderboards" = None ∨ ∃ boards, m !! "leaderboards" = Some (VDict boards)) →
  ∃ data,
    ensure_keys (VDict m) = Ok data ∧ has_schema data ∧
    (∀ k v, m !! k = Some v → k ≠ "leaderboards"%string → at_path [k] data = Some v) ∧
    (∀ g v, at_path ["leaderboards"%string; g] (VDict m) = Some v →
            at_path ["leaderboards"%string; g] data = Some v) ∧
    (m !! "players" = None → at_path ["players"%string] data = Some (VDict ∅)).
Proof.
  intros Hm. unfold has_schema, ensure_keys. remember GAME_KEYS as keys eqn:Hkeys.
  set (boards := match m !! "leaderboards" with Some (VDict b) => b | _ => ∅ end).
  set (m1 := <["leaderboards":=VDict (with_keys keys boards)]> m).
  set (m2 := match m !! "players" with Some _ => m1 | None => <["players":=VDict ∅]> m1 end).
  assert (m2 !! "leaderboards" = Some (VDict (with_keys keys boards))) as Hlb.
  { unfold m2, m1. destruct (m !! "players");
      by rewrite ?(lookup_insert_ne _ "players") by done; rewrite lookup_insert_eq. }
  exists (VDict m2). split_and!.
  - unfold m2, m1, boards.
    destruct Hm as [Hm|[b Hm]]; cbn [setdefault]; rewrite Hm; cbn [mbind result_bind].
    + change (Ok (dict [])) with (Ok (VDict ∅)).
      rewrite (ensure_keys_loop keys ∅). cbn [mbind result_bind setitem setdefault].
      rewrite insert_insert_eq, lookup_insert_ne by done.
      by destruct (m !! "players").
    + rewrite (ensure_keys_loop keys b). cbn [mbind result_bind setitem setdefault].
      rewrite lookup_insert_ne by done. by destruct (m !! "players").
  - exists m2, (with_keys keys boards). split_and!; [done|done|apply with_keys_has|].
    unfold m2, m1. destruct (m !! "players") eqn:E.
    + rewrite lookup_insert_ne by done. by rewrite E.
    + by rewrite lookup_insert_eq.
  - intros k v Hk Hne. cbn [at_path]. unfold m2, m1.
    destruct (m !! "players") eqn:E.
    + by rewrite lookup_insert_ne, Hk.
    + destruct (decide (k = "players"%string)) as [->|]; [congruence|].
      by rewrite !lookup_insert_ne, Hk by done.
  - intros g v. cbn [at_path]. rewrite Hlb. unfold boards.
    destruct (m !! "leaderboards") as [[| | | | | |b]|]; simpl; try done.
    intros Hg. destruct (b !! g) eqn:E; simpl in Hg; [|done].
    by rewrite (with_keys_keeps _ _ _ _ E).
  - intros Hp. cbn [at_path]. unfold m2. by rewrite Hp, lookup_insert_eq.
Qed.

(** On a ledger the three [setdefault] steps change nothing. *)
Lemma ensure_keys_id (data : value) : has_schema data → ensure_keys data = Ok data.
Proof.
  intros (m & boards & -> & Hm & Hkeys & [p Hp]). unfold ensure_keys.
  cbn [setdefault]. rewrite Hm. cbn [mbind result_bind].
  rewrite (ensure_keys_loop GAME_KEYS boards), with_keys_id by done.
  cbn [mbind result_bind setitem setdefault]. by rewrite insert_id, Hp.
Qed.

Lemma BASE_SAVE_schema : has_schema BASE_SAVE.
Proof.
  eexists _, _. split; [done|]. split; [done|]. split; [|by eexists].
  repeat constructor; by eexists.
Qed.

(** Where [read_save] does return, and what it then returns. *)
Lemma read_save_repairs (w : world) :
  disk w = Absent ∨ disk w = Garbled ∨
    (∃ m, disk w = Stored (VDict m) ∧
          (m !! "leaderboards" = None ∨ ∃ boards, m !! "leaderboards" = Some (VDict boards))) →
  ∃ data w', read_save w = Ok (data, w') ∧ has_schema data ∧ notices w' = notices w.
Proof.
  unfold read_save. intros [E|[E|(m & E & Hm)]]; rewrite E.
  - eexists _, _. split; [done|]. split; [apply BASE_SAVE_schema|done].
  - rewrite (ensure_keys_id _ BASE_SAVE_schema). simpl.
    eexists _, _. split; [done|]. split; [apply BASE_SAVE_schema|done].
  - destruct (ensure_keys_repairs m Hm) as (data & -> & Hs & _). simpl. by eexists _, _.
Qed.

(** C5, at documents that parse but are not a dict of dicts: the
    repair steps of [read_save] are outside its [try], and on a JSON
    array, or on a "leaderboards" entry that is an array or null,
    [setdefault] is missing and the call raises. *)
Theorem read_save_raises_on_other_shapes :
  read_save (World (Stored (VList [])) []) = Raise AttributeError ∧
  read_save (World (Stored (dict [("leaderboards"%string, VList [])])) []) = Raise AttributeError ∧
  read_save (World (Stored (dict [("leaderboards"%string, VNone);
                                  ("players"%string, dict [])])) []) = Raise AttributeError.
Proof. by split_and!. Qed.

(** C7. Saving a ledger and loading it again gives the same ledger
    back: the same boards with the same entries in the same order and
    the same player records.  Maps are compared by what is stored
    under each key, so the order in which keys were added plays no
    part. *)
Theorem save_load_round_trip (data : value) (w : world) :
  has_schema data →
  (write_save data;; read_save) w = Ok (data, World (Stored data) (notices w)).
Proof.
  intros Hs. unfold mbind, M_bind, write_save, read_save. simpl.
  by rewrite (ensure_keys_id _ Hs).
Qed.

Lemma save_load_round_trip_witness :
  (write_save sample_hard_6_ledger;; read_save) (World Garbled ["x"%string])
  = Ok (sample_hard_6_ledger,
        World (Stored sample_hard_6_ledger) (notices (World Garbled ["x"%string]))).
Proof.
  apply save_load_round_trip.
  eexists _, _. split; [done|]. split; [done|]. split; [|by eexists].
  repeat constructor; by eexists.
Defined.

(** ** Player records *)

Lemma contains_ok k c b :
  contains k c = Ok b ↔
  (∃ m, c = VDict m ∧ b = bool_decide (is_Some (m !! k))) ∨
  (∃ l, c = VList l ∧ b = existsb (is_str k) l) ∨
  (∃ s, c = VStr s ∧ b = bool_decide (is_Some (String.index 0 k s))).
Proof. destruct c; simpl; naive_solver. Qed.

Lemma existsb_is_str k l : existsb (is_str k) l = true ↔ VStr k ∈ l.
Proof.
  rewrite existsb_exists. setoid_rewrite <- list_elem_of_In. split.
  - intros (v & Hv & Hk). destruct v; try done. simpl in Hk.
    by apply bool_decide_eq_true in Hk as ->.
  - intros Hk. exists (VStr k). split; [done|]. simpl. by apply bool_decide_eq_true.
Qed.

Section steps.
Context (P : string → Prop).

Lemma ledger_step_refl data : ledger_step P data data.
Proof. intros name. split_and!; [|done|done]. exists []. by rewrite app_nil_r. Qed.

Lemma ledger_step_trans d1 d2 d3 :
  ledger_step P d1 d2 → ledger_step P d2 d3 → ledger_step P d1 d3.
Proof.
  intros H12 H23 name.
  destruct (H12 name) as ((n1 & E1 & F1) & N1 & G1), (H23 name) as ((n2 & E2 & F2) & N2 & G2).
  split_and!.
  - exists (n1 ++ n2). rewrite E2, E1, <- app_assoc. split; [done|]. by apply Forall_app.
  - auto.
  - congruence.
Qed.

(** Two ledgers with the same players have made no step. *)
Lemma ledger_step_same_players data data' :
  at_path ["players"%string] data' = at_path ["players"%string] data → ledger_step P data data'.
Proof.
  intros E name.
  assert (∀ path, at_path ("players"%string :: path) data' = at_path ("players"%string :: path) data)
    as E'.
  { intros path. cbn [at_path] in *. destruct data, data'; try done.
    all: rewrite ?option_bind_None in E; simplify_eq.
    all: try (destruct (d !! "players") eqn:E1; simpl in *; simplify_eq; by rewrite ?E1).
    destruct (d !! "players") eqn:E1, (d0 !! "players") eqn:E2; simpl in *; by simplify_eq. }
  unfold achievements_of, games_played_of. rewrite !E'. split_and!; [|done|done].
  exists []. by rewrite app_nil_r.
Qed.
End steps.

Lemma ensure_player_inv data name data' :
  ensure_player data name = Ok data' →
  ∃ m : gmap string value,
    data = VDict m ∧
    (data' = data ∧ is_Some (m !! "players") ∨
     ∃ pm : gmap string value,
       (m !! "players" = Some (VDict pm) ∨ m !! "players" = None ∧ pm = ∅) ∧
       pm !! name = None ∧
       data' = VDict (<["players":=VDict (<[name:=new_player]> pm)]> m)).
Proof.
  unfold ensure_player. intros Hrun. unbind Hrun. subst.
  change (dict []) with (VDict ∅) in *.
  eexists. split; [done|]. destruct a; simpl in Hrun.
  - left. injection Hrun as <-. apply contains_ok in Hstep0.
    destruct Hstep as [[Hp ->]|(Hp & -> & ->)]; [by split; [|eexists]|].
    destruct Hstep0 as [(? & ? & E)|[(? & ? & _)|(? & ? & _)]]; simplify_eq.
  - right. unbind Hrun. subst. apply contains_ok in Hstep0
      as [(pm & [= <-] & Hk)|[(? & ? & _)|(? & ? & _)]]; [|done..].
    symmetry in Hk. apply bool_decide_eq_false in Hk.
    exists x0. split_and!.
    + destruct Hstep as [[Hp _]|(Hp & ? & _)]; [by left|right]. by simplify_eq.
    + by apply eq_None_not_Some.
    + destruct Hstep as [[Hp ?]|(Hp & ? & ?)]; simplify_eq; [done|].
      by rewrite insert_insert_eq.
Qed.

Lemma ensure_player_same data name data' :
  ensure_player data name = Ok data' →
  (∀ k, k ≠ "players"%string → at_path [k] data' = at_path [k] data) ∧
  (∀ n, achievements_of data' n = achievements_of data n) ∧
  (∀ n, games_played_of data' n = games_played_of data n).
Proof.
  intros (m & -> & [[-> _]|(pm & Hp & Hname & ->)])%ensure_player_inv; [done|].
  split_and!.
  - intros k Hk. cbn [at_path]. by rewrite lookup_insert_ne.
  - intros n. unfold achievements_of. cbn [at_path]. rewrite lookup_insert_eq. simpl.
    destruct (decide (n = name)) as [->|Hn].
    + rewrite lookup_insert_eq. simpl.
      by destruct Hp as [-> |[-> ->]]; simpl; rewrite ?Hname.
    + rewrite lookup_insert_ne by done.
      by destruct Hp as [-> |[-> ->]]; simpl; rewrite ?lookup_empty.
  - intros n. unfold games_played_of. cbn [at_path]. rewrite lookup_insert_eq. simpl.
    destruct (decide (n = name)) as [->|Hn].
    + rewrite lookup_insert_eq. simpl.
      by destruct Hp as [-> |[-> ->]]; simpl; rewrite ?Hname.
    + rewrite lookup_insert_ne by done.
      by destruct Hp as [-> |[-> ->]]; simpl; rewrite ?lookup_empty.
Qed.

Lemma ensure_player_step P data name data' :
  ensure_player data name = Ok data' → ledger_step P data data'.
Proof.
  intros (_ & Ha & Hg)%ensure_player_same n. rewrite Ha, Hg. split_and!; [|done|done].
  exists []. by rewrite app_nil_r.
Qed.

(** What [award_achievement] has done when it returns: made sure the
    player is there, and then either found the key held and left
    everything alone, or put the key at the end of the list, printed
    the line and saved. *)
Lemma award_achievement_inv data p ach_key ach_name w data' w' :
  award_achievement data p ach_key ach_name w = Ok (data', w') →
  ∃ d1, ensure_player data p = Ok d1 ∧
    (data' = d1 ∧ w' = w ∨
     ∃ (m pm rec : gmap string value) (l : list value),
       d1 = VDict m ∧ m !! "players" = Some (VDict pm) ∧ pm !! p = Some (VDict rec) ∧
       rec !! "achievements" = Some (VList l) ∧ (VStr ach_key ∉ l) ∧
       data' = VDict (<["players":=
                 VDict (<[p:=VDict (<["achievements":=VList (l ++ [VStr ach_key])]> rec)]> pm)]> m) ∧
       w' = World (Stored data') (notices w ++ [unlocked_line ach_name])).
Proof.
  unfold award_achievement. intros Hrun. unbind Hrun. subst.
  eexists. split; [done|]. destruct a3; simpl in Hrun.
  - left. by unbind Hrun.
  - right. unbind Hrun. simplify_eq.
    match goal with z : () |- _ => destruct z end.
    match goal with z : () |- _ => destruct z end.
    apply contains_ok in Hstep3 as [(? & ? & _)|[(l & [= <-] & Hk)|(? & ? & _)]]; [done| |done].
    eexists _, _, _, _. split_and!; try done.
    intros Hin%existsb_is_str. congruence.
Qed.

Lemma award_achievement_step (P : string → Prop) data p ach_key ach_name w data' w' :
  P ach_key →
  award_achievement data p ach_key ach_name w = Ok (data', w') →
  ledger_step P data data' ∧
  (∀ k, k ≠ "players"%string → at_path [k] data' = at_path [k] data).
Proof.
  intros Hkey (d1 & Hd1 & Hrun)%award_achievement_inv.
  pose proof (ensure_player_step P _ _ _ Hd1) as Hstep1.
  apply ensure_player_same in Hd1 as (Hframe & _ & _).
  destruct Hrun as [[-> ->]|(m & pm & rec & l & -> & Hm & Hp & Hrec & Hnew & -> & ->)];
    [done|].
  split.
  - eapply ledger_step_trans; [done|]. intros n.
    unfold achievements_of, games_played_of. cbn [at_path].
    rewrite lookup_insert_eq, Hm. simpl.
    destruct (decide (n = p)) as [->|Hn].
    + rewrite lookup_insert_eq, Hp. simpl. rewrite lookup_insert_eq, Hrec.
      rewrite lookup_insert_ne by done. split_and!; [|intros Hnd|done].
      * eexists. split; [done|]. repeat constructor. by exists ach_key.
      * apply NoDup_app. split_and!; [done| |apply NoDup_singleton].
        intros v Hv ->%list_elem_of_singleton. done.
    + rewrite lookup_insert_ne by done. split_and!; [|done|done].
      exists []. by rewrite app_nil_r.
  - intros k Hk. rewrite <- Hframe by done. cbn [at_path]. by rewrite lookup_insert_ne.
Qed.

Lemma award_if_step (P : string → Prop) c data p ach_key w data' w' :
  P ach_key →
  award_if c data p ach_key w = Ok (data', w') →
  ledger_step P data data' ∧
  (∀ k, k ≠ "players"%string → at_path [k] data' = at_path [k] data).
Proof.
  intros Hkey. unfold award_if. destruct c.
  - by apply award_achievement_step.
  - intros [-> ->]%M_ret_ok. split; [apply ledger_step_refl|done].
Qed.

Lemma add_leaderboard_entry_step `{PyOrd K} (sort_fn : value → result K) P
    data game_key mode_key entry top_n w data' w' :
  add_leaderboard_entry data game_key mode_key entry sort_fn top_n w = Ok (data', w') →
  ledger_step P data data'.
Proof.
  intros (m & boards & lbs & lb & kl & -> & _ & _ & _ & _ & _ & -> & _)%add_leaderboard_entry_inv.
  apply ledger_step_same_players. cbn [at_path]. by rewrite lookup_insert_ne.
Qed.

(** ** The games *)

(** Turns every finished ledger call among the hypotheses into the
    step it has made, and strings the steps together. *)
Ltac steps :=
  repeat match goal with
  | H : ensure_player _ _ = Ok _ |- _ =>
      apply (ensure_player_step (λ k, awarded_somewhere k = true)) in H
  | H : award_if _ _ _ _ _ = Ok _ |- _ =>
      apply (award_if_step (λ k, awarded_somewhere k = true)) in H as [H _]; [|done]
  | H : add_leaderboard_entry _ _ _ _ _ _ _ = Ok _ |- _ =>
      apply (add_leaderboard_entry_step _ (λ k, awarded_somewhere k = true)) in H
  end;
  repeat (eapply ledger_step_trans; [eassumption|]);
  try apply ledger_step_refl.

Lemma number_memory_loop_step rounds : ∀ p mode_choice ts max_len total_time round_no
    data session w data' session' w',
  number_memory_loop rounds p mode_choice ts max_len total_time round_no data session w
    = Ok (data', session', w') →
  ledger_step (λ k, awarded_somewhere k = true) data data'.
Proof.
  induction rounds as [|r rounds IH]; intros * Hrun; [done|].
  simpl in Hrun. destruct (bool_decide (nm_answer r = nm_shown r)).
  - unbind Hrun. apply IH in Hrun. steps.
  - unbind Hrun. simplify_eq. steps.
Qed.

Lemma play_game_step c data session w data' session' w' :
  play_game c data session w = Ok (data', session', w') →
  ledger_step (λ k, awarded_somewhere k = true) data data'.
Proof.
  destruct c as [o|o|o|o|o|o|o]; simpl; intros Hrun.
  - unfold play_guess_the_number in Hrun. unbind Hrun. simplify_eq. steps.
  - unfold play_reaction in Hrun.
    destruct (foldl reaction_round _ _) as [[[total per_round] any_below] all_below].
    unbind Hrun. simplify_eq. steps.
  - unfold play_gibberish in Hrun. unbind Hrun.
    destruct (bool_decide (gb_typed_tokens o = gb_targets o)); unbind Hrun; simplify_eq; steps.
  - unfold play_number_memory in Hrun. unbind Hrun.
    apply number_memory_loop_step in Hrun. steps.
  - unfold play_sequence_tap in Hrun. unbind Hrun.
    destruct (bool_decide (st_typed o = _)); unbind Hstep0; simplify_eq; steps.
  - unfold play_word_memory in Hrun. unbind Hrun. simplify_eq. steps.
  - unfold play_math_speed in Hrun. unbind Hrun. simplify_eq. steps.
Qed.

Lemma play_all_step cs : ∀ data session w data' session' w',
  play_all cs data session w = Ok (data', session', w') →
  ledger_step (λ k, awarded_somewhere k = true) data data'.
Proof.
  induction cs as [|c cs IH]; intros * Hrun; simpl in Hrun.
  - unbind Hrun. simplify_eq. apply ledger_step_refl.
  - unbind Hrun. apply play_game_step in Hstep. apply IH in Hrun.
    by eapply ledger_step_trans.
Qed.

(** C2. A Gibberish Typing play whose tokens differ from the targets,
    or a Sequence Tap play whose line differs from the sequence, does
    as much to the ledger as [ensure_player] for its player does: it
    returns that ledger, with no line printed and nothing saved.  The
    leaderboards are the ones before the play, every player's
    achievements are the ones before the play, and after the Gibberish
    play the perfect streak is zero. *)
Theorem imperfect_attempt_not_recorded (c : play) (data : value)
    (session : SessionTracker) (w : world) (d1 : value) :
  imperfect c →
  ensure_player data (player_of c) = Ok d1 →
  ∃ session',
    play_game c data session w = Ok (d1, session', w) ∧
    at_path ["leaderboards"%string] d1 = at_path ["leaderboards"%string] data ∧
    (∀ name, achievements_of d1 name = achievements_of data name) ∧
    (∀ o, c = Gibberish o → perfect_gibberish_streak session' = 0).
Proof.
  intros Himp Hd1. pose proof (ensure_player_same _ _ _ Hd1) as (Hframe & Hach & _).
  destruct c as [o|o|o|o|o|o|o]; try done; cbn [imperfect player_of play_game] in *.
  - eexists. split.
    { unfold play_gibberish. erewrite lift_bind_run by done.
      by rewrite bool_decide_eq_false_2. }
    split_and!; [by apply Hframe|done|by intros ? [= <-]].
  - eexists. split.
    { unfold play_sequence_tap. erewrite lift_bind_run by done.
      by rewrite bool_decide_eq_false_2. }
    split_and!; [by apply Hframe|done|done].
Qed.

Lemma imperfect_attempt_not_recorded_witness :
  let c := Gibberish (GibberishRun "ann" 10 ["zaqi"; "xovu"] ["zaqi"; "xovo"] 3 50)%string in
  let d1 := dict [("leaderboards", dict [("guess_the_number", dict []);
                                         ("reaction_game", dict []);
                                         ("gibberish_typing", dict []);
                                         ("number_memory", dict []);
                                         ("sequence_tap", dict []);
                                         ("word_memory", dict []);
                                         ("math_speed", dict [])]);
                  ("players", dict [("ann", new_player)])]%string in
  ∃ session',
    play_game c BASE_SAVE (Session None ∅ 0 2 0) (World Absent []) = Ok (d1, session', World Absent []) ∧
    at_path ["leaderboards"%string] d1 = at_path ["leaderboards"%string] BASE_SAVE ∧
    (∀ name, achievements_of d1 name = achievements_of BASE_SAVE name) ∧
    (∀ o, c = Gibberish o → perfect_gibberish_streak session' = 0).
Proof.
  intros c d1. apply (imperfect_attempt_not_recorded c).
  - simpl. intros [=].
  - reflexivity.
Defined.

(** C4. Awarding a key that the player holds returns the ledger as it
    is and prints nothing (and saves nothing).  Whatever key is
    awarded, and whatever games are played one after the other, every
    player's list afterwards starts with the list before, and has no
    key twice if it had none twice before. *)
Theorem achievements_unique_and_kept :
  (∀ data p ach_key ach_name w,
     VStr ach_key ∈ achievements_of data p →
     award_achievement data p ach_key ach_name w = Ok (data, w)) ∧
  (∀ data p ach_key ach_name w data' w',
     award_achievement data p ach_key ach_name w = Ok (data', w') →
     ∀ name,
       achievements_of data name `prefix_of` achievements_of data' name ∧
       (NoDup (achievements_of data name) → NoDup (achievements_of data' name))) ∧
  (∀ cs data session w data' session' w',
     play_all cs data session w = Ok (data', session', w') →
     ∀ name,
       achievements_of data name `prefix_of` achievements_of data' name ∧
       (NoDup (achievements_of data name) → NoDup (achievements_of data' name))).
Proof.
  split_and!.
  - intros data p ach_key ach_name w. unfold achievements_of. cbn [at_path].
    destruct data as [| | | | | |m]; try by intros ?%elem_of_nil.
    destruct (m !! "players") as [[| | | | | |pm]|] eqn:Hm; simpl; try by intros ?%elem_of_nil.
    destruct (pm !! p) as [[| | | | | |rec]|] eqn:Hp; simpl; try by intros ?%elem_of_nil.
    destruct (rec !! "achievements") as [[| | | | |l|]|] eqn:Hrec; simpl;
      try by intros ?%elem_of_nil.
    intros Hin%existsb_is_str.
    unfold award_achievement, ensure_player. cbn [setdefault]. rewrite Hm.
    cbn [mbind result_bind contains]. rewrite bool_decide_eq_true_2 by by eexists.
    cbn [negb]. erewrite lift_bind_run by done.
    erewrite lift_bind_run by (cbn [getitem]; by rewrite Hm).
    erewrite lift_bind_run by (cbn [getitem]; by rewrite Hp).
    erewrite lift_bind_run by (cbn [getitem]; by rewrite Hrec).
    erewrite lift_bind_run by (cbn [contains]; by rewrite Hin). done.
  - intros data p ach_key ach_name w data' w' Hrun name.
    apply (award_achievement_step (λ _, True)) in Hrun as [Hstep _]; [|done].
    destruct (Hstep name) as ((new & -> & _) & Hnd & _). split; [|done].
    by apply prefix_app_r.
  - intros cs data session w data' session' w' Hrun name.
    apply play_all_step in Hrun. destruct (Hrun name) as ((new & -> & _) & Hnd & _).
    split; [|done]. by apply prefix_app_r.
Qed.

Lemma achievements_unique_and_kept_witness :
  let w := World Absent [] in
  award_achievement sample_ledger "ann" "nm_brain_of_steel"
    (ACH_LIST !!! "nm_brain_of_steel") w = Ok (sample_ledger, w) ∧
  returned (award_achievement sample_ledger "ann" "nm_flash_recall"
              (ACH_LIST !!! "nm_flash_recall") w)
    (λ r, ∀ name,
       achievements_of sample_ledger name `prefix_of` achievements_of r.1 name ∧
       (NoDup (achievements_of sample_ledger name) → NoDup (achievements_of r.1 name))) ∧
  returned (play_all [GuessTheNumber (GuessRun "ann" "7" 1 3 10);
                      MathSpeed (MathSpeedRun "bob" 50 20 11)]
              sample_ledger (SessionTracker_init None) w)
    (λ r, ∀ name,
       achievements_of sample_ledger name `prefix_of` achievements_of r.1.1 name ∧
       (NoDup (achievements_of sample_ledger name) → NoDup (achievements_of r.1.1 name))).
Proof.
  intros w. destruct achievements_unique_and_kept as (Hheld & Haward & Hplays).
  split_and!.
  - apply Hheld. apply list_elem_of_singleton. reflexivity.
  - assert (∃ r, award_achievement sample_ledger "ann" "nm_flash_recall"
                     (ACH_LIST !!! "nm_flash_recall") w = Ok r) as [[data' w'] E]
      by (eexists; reflexivity).
    rewrite E. exact (Haward _ _ _ _ _ _ _ E).
  - assert (∃ r, play_all [GuessTheNumber (GuessRun "ann" "7" 1 3 10);
                           MathSpeed (MathSpeedRun "bob" 50 20 11)]
                   sample_ledger (SessionTracker_init None) w = Ok r)
      as [[[data' session'] w'] E] by (eexists; reflexivity).
    rewrite E. exact (Hplays _ _ _ _ _ _ _ E).
Defined.

(** No game touches a games-played counter, and none awards
    "cg_grinder_50". *)
Lemma no_play_counts_games cs data session w data' session' w' :
  play_all cs data session w = Ok (data', session', w') →
  ∀ name,
    games_played_of data' name = games_played_of data name ∧
    (VStr "cg_grinder_50" ∈ achievements_of data' name →
     VStr "cg_grinder_50" ∈ achievements_of data name).
Proof.
  intros Hrun%play_all_step name. destruct (Hrun name) as ((new & -> & Hnew) & _ & Hg).
  split; [done|]. intros [?|Hin]%elem_of_app; [done|].
  rewrite Forall_forall in Hnew. by destruct (Hnew _ Hin) as (k & [= <-] & ?).
Qed.

(** C3, at fifty games played by "Alice" from a fresh save, ten each
    of five games: the session has counted fifty, the record's
    games-played counter is still 0, and the achievements unlocked do
    not include "cg_grinder_50". *)
Theorem fifty_plays_without_grinder :
  returned (main_menu fifty_plays (World Absent []))
    (λ r, total_games_played r.1.2 = 50 ∧
          games_played_of r.1.1 "Alice" = VInt 0 ∧
          achievements_of r.1.1 "Alice"
            = [VStr "rx_consistent"; VStr "ms_lightning_calc"; VStr "ms_math_genius";
               VStr "gtn_iron_streak_5"]).
Proof. vm_compute. done. Qed.

(** The three games that do record a play in the session. *)
Lemma first_three_games_record_play c data session w data' session' w' :
  play_game c data session w = Ok (data', session', w') →
  ∀ id, (∃ o, c = GuessTheNumber o ∧ id = "guess"%string) ∨
        (∃ o, c = Reaction o ∧ id = "reaction"%string) ∨
        (∃ o, c = Gibberish o ∧ id = "gibberish"%string) →
  games_this_session session' = {[id]} ∪ games_this_session session ∧
  total_games_played session' = total_games_played session + 1.
Proof.
  intros Hrun id [(o & -> & ->)|[(o & -> & ->)|(o & -> & ->)]]; simpl in Hrun.
  - unfold play_guess_the_number in Hrun. unbind Hrun. by simplify_eq.
  - unfold play_reaction in Hrun.
    destruct (foldl reaction_round _ _) as [[[total per_round] any_below] all_below].
    unbind Hrun. by simplify_eq.
  - unfold play_gibberish in Hrun. unbind Hrun.
    destruct (bool_decide (gb_typed_tokens o = gb_targets o)); unbind Hrun; by simplify_eq.
Qed.

(** C9, at plays of the other four games from a fresh save.  A
    Sequence Tap, Word Memory or Math Speed play counts as one game
    but leaves the set of games played empty.  A Number Memory play
    leaves the set empty as well and counts one game for every correct
    answer: none when the first answer is wrong, three after three
    correct answers. *)
Theorem four_games_do_not_record_play :
  let w := World Absent [] in
  let s0 := SessionTracker_init None in
  let seen_and_total (r : value * SessionTracker * world) :=
    (elements (games_this_session r.1.2), total_games_played r.1.2) in
  returned (play_game (SequenceTap (SequenceTapRun "Alice" 5 ["A"; "7"; "Q"; "2"; "Z"]
                                      "A7Q2Z" 6 1002)) BASE_SAVE s0 w)
    (λ r, seen_and_total r = ([], 1)) ∧
  returned (play_game (WordMemory (WordMemoryRun "Alice" 5
                                     ["apple"; "river"; "mount"; "stone"; "train"]
                                     ["apple"; "river"; "stone"] 9 1003)) BASE_SAVE s0 w)
    (λ r, seen_and_total r = ([], 1)) ∧
  returned (play_game (MathSpeed (MathSpeedRun "Alice" 50 20 1004)) BASE_SAVE s0 w)
    (λ r, seen_and_total r = ([], 1)) ∧
  returned (play_game (number_memory_streak 0) BASE_SAVE s0 w)
    (λ r, seen_and_total r = ([], 0)) ∧
  returned (play_game (number_memory_streak 3) BASE_SAVE s0 w)
    (λ r, seen_and_total r = ([], 3)).
Proof. vm_compute. done. Qed.

(** ** Well-formed ledgers stay well-formed, and the games return *)

Lemma returns_bind {A B} (P : A → Prop) (Q : B → Prop) (m : M A) (f : A → M B) w :
  returns P m w →
  (∀ a w', P a → returns Q (f a) w') →
  returns Q (m ≫= f) w.
Proof.
  intros (a & w' & Hm & Ha) Hf. destruct (Hf a w' Ha) as (b & w'' & Hfa & Hb).
  exists b, w''. split; [|done]. apply M_bind_ok. by exists a, w'.
Qed.

Lemma returns_ret {A} (Q : A → Prop) (a : A) w : Q a → returns Q (mret a) w.
Proof. intros Ha. by exists a, w. Qed.

Lemma ensure_player_ok data name :
  ledger_ok data → ∃ data', ensure_player data name = Ok data' ∧ ledger_with name data'.
Proof.
  intros (m & boards & players & -> & Hb & Hp & Hkeys & Hboards & Hplayers).
  unfold ensure_player. cbn [setdefault]. rewrite Hp. cbn [mbind result_bind contains].
  destruct (players !! name) as [r|] eqn:Hname.
  - rewrite bool_decide_eq_true_2 by by eexists. cbn [negb].
    eexists. split; [done|]. split; [by exists m, boards, players|].
    cbn [at_path]. rewrite Hp. simpl. rewrite Hname. by eexists.
  - rewrite bool_decide_eq_false_2 by by intros [??]. cbn [negb mbind result_bind setitem].
    eexists. split; [done|]. split.
    + eexists _, boards, _. split; [done|].
      rewrite lookup_insert_ne, lookup_insert_eq by done. split_and!; try done.
      intros n r [[<- <-]|[? Hn]]%lookup_insert_Some; [|by eapply Hplayers].
      by eexists _, [].
    + cbn [at_path]. rewrite lookup_insert_eq. simpl. rewrite lookup_insert_eq. by eexists.
Qed.

Lemma ensure_player_returns data name w :
  ledger_ok data → returns (ledger_with name) (lift (ensure_player data name)) w.
Proof.
  intros (d1 & Hd1 & Hok)%(ensure_player_ok _ name). exists d1, w. by rewrite Hd1.
Qed.

(** Steps that leave the players as they are, or change one record,
    keep the records that were there. *)
Lemma player_kept (m : gmap string value) (players : gmap string value) q p r :
  m !! "players" = Some (VDict players) →
  is_Some (at_path ["players"%string; q] (VDict m)) →
  is_Some (at_path ["players"%string; q] (VDict (<["players":=VDict (<[p:=r]> players)]> m))).
Proof.
  cbn [at_path]. intros ->. rewrite lookup_insert_eq. simpl.
  destruct (decide (p = q)) as [->|]; [by rewrite lookup_insert_eq; eexists|].
  by rewrite lookup_insert_ne.
Qed.

Lemma award_achievement_ok q data p ach_key ach_name w :
  ledger_with q data → returns (ledger_with q) (award_achievement data p ach_key ach_name) w.
Proof.
  intros [Hok Hq]. destruct (ensure_player_ok data p Hok) as (d1 & Hd1 & Hok1 & Hhas).
  assert (is_Some (at_path ["players"%string; q] d1)) as Hq1.
  { apply ensure_player_inv in Hd1 as (m & -> & [[-> _]|(pm & Hpm & _ & ->)]); [done|].
    destruct Hok as (? & ? & players & [= <-] & _ & Hp & _).
    destruct Hpm as [Hpm|[Hpm _]]; rewrite Hp in Hpm; [|done]. injection Hpm as <-.
    by apply player_kept. }
  destruct Hok1 as (m & boards & players & -> & Hb & Hp & Hkeys & Hboards & Hplayers).
  cbn [at_path] in Hhas. rewrite Hp in Hhas. simpl in Hhas.
  destruct (players !! p) as [r|] eqn:Hr; [|by destruct Hhas].
  destruct (Hplayers p r Hr) as (rec & l & -> & Hrec).
  unfold award_achievement, returns.
  erewrite lift_bind_run by done.
  erewrite lift_bind_run by (cbn [getitem]; by rewrite Hp).
  erewrite lift_bind_run by (cbn [getitem]; by rewrite Hr).
  erewrite lift_bind_run by (cbn [getitem]; by rewrite Hrec).
  erewrite lift_bind_run by done.
  destruct (existsb (is_str ach_key) l); cbn [negb].
  - eexists _, _. split; [done|]. split; [by exists m, boards, players|done].
  - do 4 (erewrite lift_bind_run by done).
    eexists _, _. split; [done|]. split; [|by apply player_kept].
    eexists _, boards, _. split; [done|].
    rewrite lookup_insert_ne, lookup_insert_eq by done. split_and!; try done.
    intros n r [[<- <-]|[? Hn]]%lookup_insert_Some; [|by eapply Hplayers].
    eexists _, _. split; [done|]. by rewrite lookup_insert_eq.
Qed.

Lemma award_if_ok q c data p ach_key w :
  ledger_with q data → returns (ledger_with q) (award_if c data p ach_key) w.
Proof.
  intros Hok. unfold award_if. destruct c; [by apply award_achievement_ok|].
  by apply returns_ret.
Qed.

Lemma at_path_cons k path data :
  at_path (k :: path) data = at_path [k] data ≫= at_path path.
Proof. destruct data; try done. cbn [at_path]. by destruct (_ !! k). Qed.

Lemma at_path_under k path data data' :
  at_path [k] data' = at_path [k] data → at_path (k :: path) data' = at_path (k :: path) data.
Proof. intros E. by rewrite !(at_path_cons k path), E. Qed.

(** The players' side of the ledger has no part in what the boards
    show. *)
Lemma boards_shown_same data data' :
  at_path ["leaderboards"%string] data' = at_path ["leaderboards"%string] data →
  boards_shown data → boards_shown data'.
Proof.
  intros E Hshown g md lb Hat. apply (Hshown g md).
  by rewrite <- (at_path_under _ _ _ _ E).
Qed.

Lemma ensure_player_boards data name data' :
  ensure_player data name = Ok data' →
  at_path ["leaderboards"%string] data' = at_path ["leaderboards"%string] data.
Proof.
  intros (m & -> & [[-> _]|(pm & _ & _ & ->)])%ensure_player_inv; [done|].
  cbn [at_path]. by rewrite lookup_insert_ne.
Qed.

Lemma returns_keep {A} (P Q : A → Prop) (m : M A) w :
  returns P m w → (∀ a w', m w = Ok (a, w') → Q a) → returns (λ a, P a ∧ Q a) m w.
Proof. intros (a & w' & Hm & Ha) HQ. exists a, w'. split; [done|]. split; [done|by eapply HQ]. Qed.

Lemma ensure_player_shown data name w :
  ledger_shown data → returns (shown_with name) (lift (ensure_player data name)) w.
Proof.
  intros [Hok Hshown]. apply returns_keep; [by apply ensure_player_returns|].
  intros d w' [Hd _]%lift_ok. eapply boards_shown_same; [|done].
  by eapply ensure_player_boards.
Qed.

Lemma award_achievement_boards data p ach_key ach_name w data' w' :
  award_achievement data p ach_key ach_name w = Ok (data', w') →
  at_path ["leaderboards"%string] data' = at_path ["leaderboards"%string] data.
Proof.
  intros (d1 & Hd1 & [[-> _]|(m & pm & rec & l & -> & _ & _ & _ & _ & -> & _)])
    %award_achievement_inv; rewrite <- (ensure_player_boards _ _ _ Hd1); [done|].
  cbn [at_path]. by rewrite lookup_insert_ne.
Qed.

Lemma award_if_shown q c data p ach_key w :
  shown_with q data → returns (shown_with q) (award_if c data p ach_key) w.
Proof.
  intros [Hok Hshown]. apply returns_keep; [by apply award_if_ok|].
  intros d w' Hrun. eapply boards_shown_same; [|done].
  unfold award_if in Hrun. destruct c; [by eapply award_achievement_boards|].
  by apply M_ret_ok in Hrun as [-> _].
Qed.

Lemma add_leaderboard_entry_ok `{PyOrd K} (P : K → bool) (sort_fn : value → result K)
    q data game_key mode_key entry w :
  orders P →
  (∀ e, entry_ok game_key e ↔ keyed_in sort_fn P e) →
  entry_ok game_key entry →
  is_ok (fmt_of game_key entry) →
  shown_with q data →
  returns (shown_with q) (add_leaderboard_entry data game_key mode_key entry sort_fn TOP_N) w.
Proof.
  intros HP Hfn Hentry Hfmt
    [[(m & boards & players & -> & Hb & Hp & Hkeys & Hboards & Hplayers) Hq] Hshown].
  set (lbs := match boards !! game_key with Some (VDict lbs) => lbs | _ => ∅ end).
  set (lb := match lbs !! py_str mode_key with Some (VList lb) => lb | _ => [] end).
  assert (boards !! game_key = None ∧ lbs = ∅ ∨ boards !! game_key = Some (VDict lbs)) as Hg.
  { unfold lbs. destruct (boards !! game_key) as [b|] eqn:E; [|by left].
    destruct (Hboards _ _ E) as (? & -> & _). by right. }
  assert (Forall (entry_ok game_key) lb ∧
          (lbs !! py_str mode_key = None ∧ lb = [] ∨ lbs !! py_str mode_key = Some (VList lb)))
    as [Hlb Hmd].
  { unfold lb. destruct (lbs !! py_str mode_key) as [v|] eqn:E; [|by split; [|left]].
    destruct Hg as [[_ Hemp]|Hg]; [by rewrite Hemp, lookup_empty in E|].
    destruct (Hboards _ _ Hg) as (? & [= <-] & Hmodes).
    destruct (Hmodes _ _ E) as (? & -> & ?). split; [done|by right]. }
  assert (Forall (λ e, is_ok (fmt_of game_key e)) lb) as Hlbshown.
  { destruct Hmd as [[_ ->]|Hmd]; [constructor|].
    destruct Hg as [[_ Hemp]|Hg]; [by rewrite Hemp, lookup_empty in Hmd|].
    apply (Hshown game_key (py_str mode_key)). cbn [at_path]. rewrite Hb. simpl.
    rewrite Hg. simpl. by rewrite Hmd. }
  destruct (decorate_total_in P sort_fn (lb ++ [entry])) as (kl & Hkl & HPkl).
  { apply Forall_app. split; [|by repeat constructor; apply Hfn].
    eapply Forall_impl; [exact Hlb|]. intros e. apply Hfn. }
  assert ((sort_keyed kl).*2 ≡ₚ lb ++ [entry]) as Hperm.
  { apply decorate_inv in Hkl as [Hvs _]. by rewrite sort_keyed_perm, Hvs. }
  eexists _, _. split.
  { apply add_leaderboard_entry_inv. exists m, boards, lbs, lb, kl.
    split_and!; try done. by apply (all_ok_in P). }
  split; [split|].
  - eexists _, _, players. split; [done|].
    rewrite lookup_insert_eq, lookup_insert_ne by done. split_and!; try done.
    { eapply Forall_impl; [done|]. intros g' ?. by apply lookup_insert_is_Some'; right. }
    intros g b [[<- <-]|[? Hgb]]%lookup_insert_Some; [|by eapply Hboards].
    eexists. split; [done|].
    intros md v [[<- <-]|[? Hv]]%lookup_insert_Some.
    + eexists. split; [done|]. rewrite decide_True by done. apply Forall_take.
      rewrite Hperm. apply Forall_app. split; [done|by repeat constructor].
    + destruct Hg as [[_ Hemp]|Hg]; [by rewrite Hemp, lookup_empty in Hv|].
      destruct (Hboards _ _ Hg) as (? & [= <-] & Hmodes). by eapply Hmodes.
  - cbn [at_path] in *. by rewrite lookup_insert_ne.
  - intros g md lb' Hat. cbn [at_path] in Hat. rewrite lookup_insert_eq in Hat.
    simpl in Hat. destruct (decide (g = game_key)) as [->|Hne].
    + rewrite lookup_insert_eq in Hat. simpl in Hat.
      destruct (decide (md = py_str mode_key)) as [->|Hne'].
      * rewrite lookup_insert_eq in Hat. injection Hat as <-.
        rewrite ?decide_True by done. apply Forall_take.
        rewrite Hperm. apply Forall_app. split; [done|by repeat constructor].
      * rewrite lookup_insert_ne in Hat by done.
        destruct Hg as [[_ Hemp]|Hg]; [by rewrite Hemp, lookup_empty in Hat|].
        apply (Hshown game_key md). cbn [at_path]. rewrite Hb. simpl. by rewrite Hg.
    + rewrite lookup_insert_ne in Hat by done.
      apply (Hshown g md). cbn [at_path]. by rewrite Hb.
Qed.

Lemma show_entries_ok (fmt_fn : value → result unit) (lb : list value) :
  Forall (λ e, is_ok (fmt_fn e)) lb → show_entries fmt_fn lb = Ok ().
Proof.
  induction 1 as [|e lb [[] He] _ IH]; [done|]. cbn [show_entries]. by rewrite He.
Qed.

(** The board of any game and mode of such a ledger is shown. *)
Lemma show_leaderboard_generic_ok data game_key mode_key fmt_fn w :
  fmt_of game_key = fmt_fn →
  ledger_shown data →
  returns (λ _, True) (lift (show_leaderboard_generic data game_key mode_key fmt_fn)) w.
Proof.
  intros <- [(m & boards & players & -> & Hb & Hp & Hkeys & Hboards & Hplayers) Hshown].
  exists (), w. split; [|done]. apply lift_ok. split; [|done].
  unfold show_leaderboard_generic, read_board. cbn [getitem]. rewrite Hb.
  cbn [mbind result_bind dict_get].
  destruct (boards !! game_key) as [b|] eqn:Hg; [|done].
  destruct (Hboards _ _ Hg) as (lbs & -> & Hmodes).
  cbn [from_option dict_get mbind result_bind id].
  destruct (lbs !! py_str mode_key) as [v|] eqn:Hmd; [|done].
  destruct (Hmodes _ _ Hmd) as (lb & -> & _). cbn [from_option id falsy].
  case_bool_decide; [done|]. apply show_entries_ok.
  apply (Hshown game_key (py_str mode_key)). cbn [at_path]. rewrite Hb. simpl.
  rewrite Hg. simpl. by rewrite Hmd.
Qed.

(** Walks through a game: each ledger call returns and keeps the
    ledger well-formed, with the player's record in it and boards
    that can be shown. *)
Ltac entry_has_key :=
  unfold entry_ok; repeat (rewrite decide_False by done); rewrite ?(decide_True (P:=_ = _)) by done;
  eexists; split; reflexivity.

Ltac sort_fn_of_game :=
  let e := fresh "e" in
  intros e; unfold entry_ok; repeat (rewrite decide_False by done);
  by rewrite ?(decide_True (P:=_ = _)) by done.

Ltac fmt_of_game :=
  unfold fmt_of; repeat (rewrite decide_False by done);
  by rewrite ?(decide_True (P:=_ = _)) by done.

Ltac entry_is_shown :=
  unfold fmt_of; repeat (rewrite decide_False by done); rewrite ?(decide_True (P:=_ = _)) by done;
  eexists; reflexivity.

Ltac returning p :=
  repeat first
    [ apply returns_ret; cbn [fst];
      match goal with H : shown_with _ ?d |- ledger_shown ?d =>
        exact (conj (proj1 (proj1 H)) (proj2 H)) end
    | eapply (returns_bind (λ _, True));
      [ apply show_leaderboard_generic_ok;
        [ fmt_of_game
        | match goal with H : shown_with _ ?d |- ledger_shown ?d =>
            exact (conj (proj1 (proj1 H)) (proj2 H)) end ]
      | intros ? ? _ ]
    | eapply (returns_bind (shown_with p));
      [ first [ by apply ensure_player_shown
              | by apply award_if_shown
              | eapply add_leaderboard_entry_ok;
                [ first [exact numbers_ordered | exact number_pairs_ordered]
                | sort_fn_of_game | entry_has_key | entry_is_shown | done ] ]
      | intros ??? ] ].

Lemma number_memory_loop_returns rounds : ∀ p mode_choice ts max_len total_time round_no
    data session w,
  Exists (λ r, nm_answer r ≠ nm_shown r) rounds →
  shown_with p data →
  returns (λ r, ledger_shown r.1)
    (number_memory_loop rounds p mode_choice ts max_len total_time round_no data session) w.
Proof.
  induction rounds as [|r rounds IH]; intros * Hwrong Hok; [by apply Exists_nil in Hwrong|].
  cbn [number_memory_loop]. cbv zeta. case_bool_decide as Hr.
  - apply Exists_cons in Hwrong as [?|Hwrong]; [done|].
    eapply (returns_bind (shown_with p)); [by apply award_if_shown|]. intros ???.
    eapply (returns_bind (shown_with p)); [by apply award_if_shown|]. intros ???.
    by apply IH.
  - unfold show_number_memory_leaderboard. returning p.
Qed.

(** Every finished play on a well-formed ledger whose boards can be
    shown returns, with such a ledger. *)
Lemma play_game_returns c data session w :
  ledger_shown data → finished c →
  returns (λ r, ledger_shown r.1) (play_game c data session) w.
Proof.
  intros Hok Hfin. destruct c as [o|o|o|o|o|o|o]; cbn [play_game].
  - unfold play_guess_the_number, show_guess_leaderboard. cbv zeta.
    returning (gn_player o).
  - unfold play_reaction, show_reaction_leaderboard. cbv zeta.
    destruct (foldl reaction_round _ _) as [[[total per_round] any_below] all_below].
    returning (rx_player o).
  - unfold play_gibberish, show_gibberish_leaderboard. cbv zeta.
    eapply (returns_bind (shown_with (gb_player o))); [by apply ensure_player_shown|].
    intros d1 w1 H1. case_bool_decide.
    + eapply (returns_bind (shown_with (gb_player o))); [by apply award_if_shown|].
      intros d2 w2 H2.
      eapply (returns_bind (shown_with (gb_player o))); [by apply award_if_shown|].
      intros d3 w3 [[H3 Hp3] Hs3].
      eapply (returns_bind (λ _, True)).
      { destruct H3 as (m & boards & players & -> & _ & Hp & _). cbn [at_path] in Hp3.
        rewrite Hp in Hp3. simpl in Hp3.
        destruct (players !! gb_player o) as [r|] eqn:Hr; [|by destruct Hp3].
        exists r, w3. split; [|done]. cbn [getitem]. rewrite Hp.
        cbn [mbind result_bind getitem]. by rewrite Hr. }
      intros _ w4 _. assert (shown_with (gb_player o) d3) by done.
      returning (gb_player o).
    + apply returns_ret. destruct H1 as [[? _] ?]. by split.
  - unfold play_number_memory. cbv zeta.
    eapply (returns_bind (shown_with (nm_player o))); [by apply ensure_player_shown|].
    intros d1 w1 H1. by apply number_memory_loop_returns.
  - unfold play_sequence_tap, show_sequence_leaderboard. cbv zeta.
    eapply (returns_bind (shown_with (st_player o))); [by apply ensure_player_shown|].
    intros d1 w1 H1.
    eapply (returns_bind (shown_with (st_player o))).
    { case_bool_decide; [|by apply returns_ret].
      eapply (returns_bind (shown_with (st_player o))); [by apply award_if_shown|].
      intros d2 w2 H2.
      eapply (returns_bind (shown_with (st_player o))).
      { eapply add_leaderboard_entry_ok;
          [exact numbers_ordered|sort_fn_of_game|entry_has_key|entry_is_shown|done]. }
      intros d3 w3 H3.
      eapply (returns_bind (λ _, True)).
      { apply show_leaderboard_generic_ok; [fmt_of_game|].
        exact (conj (proj1 (proj1 H3)) (proj2 H3)). }
      intros ? ? _. by apply returns_ret. }
    intros d2 w2 H2. apply returns_ret. exact (conj (proj1 (proj1 H2)) (proj2 H2)).
  - unfold play_word_memory, show_word_memory_leaderboard. cbv zeta.
    returning (wm_player o).
  - unfold play_math_speed, show_math_speed_leaderboard. cbv zeta.
    returning (ms_player o).
Qed.

Lemma play_all_returns cs : ∀ data session w,
  ledger_shown data → Forall finished cs →
  returns (λ r, ledger_shown r.1) (play_all cs data session) w.
Proof.
  induction cs as [|c cs IH]; intros data session w Hok Hfin; cbn [play_all].
  - by apply returns_ret.
  - apply Forall_cons in Hfin as [Hc Hcs].
    eapply returns_bind; [by apply play_game_returns|].
    intros [d s] w' Hd. by apply IH.
Qed.

Lemma ledger_ok_schema data : ledger_ok data → has_schema data.
Proof.
  intros (m & boards & players & -> & Hb & Hp & Hkeys & _). exists m, boards.
  split; [done|]. split; [done|]. split; [done|]. by eexists.
Qed.

Lemma BASE_SAVE_ok : ledger_ok BASE_SAVE.
Proof.
  eexists _, _, _. split; [done|]. split; [done|]. split; [done|].
  split; [repeat constructor; by eexists|]. split.
  - intros g b Hg. exists ∅. split.
    + rewrite !list_to_map_cons, list_to_map_nil in Hg.
      repeat (apply lookup_insert_Some in Hg as [[_ <-]|[_ Hg]]; [done|]).
      by apply lookup_empty_Some in Hg.
    + intros md v. by rewrite lookup_empty.
  - intros name r Hr. rewrite list_to_map_nil in Hr. by apply lookup_empty_Some in Hr.
Qed.

Lemma BASE_SAVE_shown : ledger_shown BASE_SAVE.
Proof.
  split; [apply BASE_SAVE_ok|]. intros g md lb Hat.
  unfold BASE_SAVE, dict in Hat. cbn [at_path] in Hat.
  rewrite list_to_map_cons, lookup_insert_eq in Hat. cbn [mbind option_bind] in Hat.
  destruct (list_to_map _ !! g) as [b|] eqn:Hg; [|done].
  rewrite !list_to_map_cons, list_to_map_nil in Hg.
  repeat (apply lookup_insert_Some in Hg as [[_ <-]|[_ Hg]];
          [cbn [at_path mbind option_bind] in Hat; by rewrite lookup_empty in Hat|]).
  by apply lookup_empty_Some in Hg.
Qed.

(** With no save file, or one that does not parse, a session of
    finished plays runs to its end. *)
Lemma main_menu_returns cs w :
  disk w = Absent ∨ disk w = Garbled → Forall finished cs →
  returns (λ r, ledger_shown r.1) (main_menu cs) w.
Proof.
  intros Hdisk Hfin. unfold main_menu.
  eapply (returns_bind ledger_shown).
  { unfold returns, read_save. destruct Hdisk as [-> | ->].
    - eexists _, _. split; [done|]. apply BASE_SAVE_shown.
    - rewrite (ensure_keys_id _ BASE_SAVE_schema). eexists _, _. split; [done|].
      apply BASE_SAVE_shown. }
  intros data w1 Hok. eapply returns_bind; [by apply play_all_returns|].
  intros [d s] w2 Hd. eapply (returns_bind (λ _, True)); [by eexists _, _|].
  intros _ w3 _. by apply returns_ret.
Qed.

(** What a session leaves on disk loads back as the ledger the session
    ended with. *)
Lemma session_saved_loads_back cs w :
  disk w = Absent ∨ disk w = Garbled → Forall finished cs →
  ∃ data session w',
    main_menu cs w = Ok (data, session, w') ∧ read_save w' = Ok (data, w').
Proof.
  intros Hdisk Hfin.
  destruct (main_menu_returns cs w Hdisk Hfin) as ([data session] & w' & Hrun & [Hok _]).
  cbn [fst] in Hok. apply ledger_ok_schema, ensure_keys_id in Hok.
  exists data, session, w'. split; [done|].
  unfold main_menu in Hrun. unbind Hrun. simplify_eq.
  unfold read_save. cbn [disk]. by rewrite Hok.
Qed.

(** A dict is what is stored under its keys: writing the same items in
    another order gives the same value. *)
Lemma dict_key_order (k1 k2 : string) (v1 v2 : value) :
  k1 ≠ k2 → dict [(k1, v1); (k2, v2)] = dict [(k2, v2); (k1, v1)].
Proof.
  intros Hne. unfold dict. f_equal. rewrite !list_to_map_cons, list_to_map_nil.
  by apply insert_insert_ne.
Qed.

(** * More of the code *)

(** ** Loading *)

(** X1. A saved document that is a dict, with "leaderboards" absent or
    a dict, loads without the file being touched: the ledger returned
    has all seven games and the players; whatever else the document
    had under its keys and under "leaderboards" is still there; absent
    players become the empty dict. *)
Theorem read_save_completes_document (w : world) (m : gmap string value) :
  disk w = Stored (VDict m) →
  (m !! "leaderboards" = None ∨ ∃ boards, m !! "leaderboards" = Some (VDict boards)) →
  ∃ data,
    read_save w = Ok (data, w) ∧ has_schema data ∧
    (∀ k v, m !! k = Some v → k ≠ "leaderboards"%string → at_path [k] data = Some v) ∧
    (∀ g v, at_path ["leaderboards"%string; g] (VDict m) = Some v →
            at_path ["leaderboards"%string; g] data = Some v) ∧
    (m !! "players" = None → at_path ["players"%string] data = Some (dict [])).
Proof.
  intros Hdisk Hm. destruct (ensure_keys_repairs m Hm) as (data & Hrun & Hrest).
  exists data. split; [|done]. unfold read_save. by rewrite Hdisk, Hrun.
Qed.

Lemma read_save_completes_document_witness :
  let m : gmap string value :=
    list_to_map [("leaderboards", dict [("snake", dict [("1", VList [VInt 3])])]);
                 ("version", VInt 2)]%string in
  ∃ data,
    read_save (World (Stored (VDict m)) []) = Ok (data, World (Stored (VDict m)) []) ∧
    has_schema data ∧
    (∀ k v, m !! k = Some v → k ≠ "leaderboards"%string → at_path [k] data = Some v) ∧
    (∀ g v, at_path ["leaderboards"%string; g] (VDict m) = Some v →
            at_path ["leaderboards"%string; g] data = Some v) ∧
    (m !! "players" = None → at_path ["players"%string] data = Some (dict [])).
Proof.
  intros m. apply (read_save_completes_document (World (Stored (VDict m)) []) m).
  - reflexivity.
  - right. eexists. reflexivity.
Defined.

(** X2. [read_save] raises in exactly these cases: the file parses,
    and the document is not a dict, or its "leaderboards" entry is
    there and is not a dict.  The exception is [AttributeError]. *)
Theorem read_save_raises_exactly (w : world) (e : exn) :
  read_save w = Raise e ↔
  e = AttributeError ∧
  ∃ doc, disk w = Stored doc ∧
    (¬ is_dict doc ∨
     ∃ (m : gmap string value) v, doc = VDict m ∧ m !! "leaderboards" = Some v ∧ ¬ is_dict v).
Proof.
  unfold read_save. split.
  - destruct (disk w) as [| |doc] eqn:Hdisk; [done| |].
    { by rewrite (ensure_keys_id _ BASE_SAVE_schema). }
    destruct doc as [| | | | | |m];
      try (intros [= <-]; split; [done|]; eexists; split; [done|]; left; by intros [??]).
    destruct (m !! "leaderboards") as [v|] eqn:Hm.
    + destruct v as [| | | | | |boards];
        try (unfold ensure_keys; cbn [setdefault]; rewrite Hm; intros [= <-]; split; [done|];
             eexists; split; [done|]; right; eexists _, _; split_and!; [done..|];
             by intros [??]).
      destruct (ensure_keys_repairs m) as (data & -> & _); [right; by eexists|done].
    + destruct (ensure_keys_repairs m) as (data & -> & _); [by left|done].
  - intros (-> & doc & -> & [Hdoc|(m & v & -> & Hm & Hv)]).
    + destruct doc; try done. destruct Hdoc. by eexists.
    + unfold ensure_keys. cbn [setdefault]. rewrite Hm.
      destruct v; try done. destruct Hv. by eexists.
Qed.

(** X3. Loading writes the file only when there is none (it then
    holds the empty ledger).  A file that does not parse is answered
    with the empty ledger and stays as it is; a document that had to
    be completed stays as it was.  Nothing is printed. *)
Theorem read_save_writes_only_missing_file (w : world) (data : value) (w' : world) :
  read_save w = Ok (data, w') →
  notices w' = notices w ∧
  (disk w = Absent → data = BASE_SAVE ∧ disk w' = Stored BASE_SAVE) ∧
  (disk w = Garbled → data = BASE_SAVE ∧ disk w' = Garbled) ∧
  (∀ doc, disk w = Stored doc → disk w' = Stored doc).
Proof.
  unfold read_save. destruct (disk w) as [| |doc] eqn:Hdisk.
  - intros [= <- <-]. split_and!; [done|intros _; by split|done|done].
  - rewrite (ensure_keys_id _ BASE_SAVE_schema). intros [= <- <-].
    split_and!; [done|done|intros _; by split|done].
  - intros [Hrun ->]%lift_ok. split_and!; [done|done|done|by intros ? [= <-]].
Qed.

Lemma read_save_writes_only_missing_file_witness :
  notices (World Garbled ["x"%string]) = notices (World Garbled ["x"%string]) ∧
  (disk (World Garbled ["x"%string]) = Absent →
     BASE_SAVE = BASE_SAVE ∧ disk (World Garbled ["x"%string]) = Stored BASE_SAVE) ∧
  (disk (World Garbled ["x"%string]) = Garbled →
     BASE_SAVE = BASE_SAVE ∧ disk (World Garbled ["x"%string]) = Garbled) ∧
  (∀ doc, disk (World Garbled ["x"%string]) = Stored doc →
     disk (World Garbled ["x"%string]) = Stored doc).
Proof.
  apply (read_save_writes_only_missing_file (World Garbled ["x"%string]) BASE_SAVE).
  reflexivity.
Defined.

(** ** Player records, once more *)

(** X4. [ensure_player] may be called again without effect, and it
    leaves every record that is there as it is, the player's own
    included; it touches nothing outside the players, and when it
    changes the ledger the change is the new, empty record. *)
Theorem ensure_player_keeps_records (data : value) (name : string) (data' : value) :
  ensure_player data name = Ok data' →
  ensure_player data' name = Ok data' ∧
  (∀ n r, at_path ["players"%string; n] data = Some r →
          at_path ["players"%string; n] data' = Some r) ∧
  (∀ k, k ≠ "players"%string → at_path [k] data' = at_path [k] data) ∧
  (data' ≠ data → at_path ["players"%string; name] data' = Some new_player).
Proof.
  intros Hrun. pose proof (ensure_player_same _ _ _ Hrun) as (Hframe & _ & _).
  pose proof Hrun as Hagain.
  apply ensure_player_inv in Hrun as (m & -> & [[-> Hp]|(pm & Hpm & Hname & ->)]).
  - by split_and!.
  - clear Hagain. split_and!; [| |done|].
    + unfold ensure_player. cbn [setdefault]. rewrite lookup_insert_eq.
      cbn [mbind result_bind contains].
      rewrite bool_decide_eq_true_2 by (rewrite lookup_insert_eq; by eexists). done.
    + intros n r. cbn [at_path]. rewrite lookup_insert_eq.
      destruct Hpm as [-> |[-> ->]]; simpl; [|done].
      intros Hn. rewrite lookup_insert_ne; [done|]. intros <-. by rewrite Hname in Hn.
    + intros _. cbn [at_path]. rewrite lookup_insert_eq. simpl. by rewrite lookup_insert_eq.
Qed.

Lemma ensure_player_keeps_records_witness :
  let data' := dict [("leaderboards", dict [("guess_the_number", dict []);
                                            ("reaction_game", dict []);
                                            ("gibberish_typing", dict []);
                                            ("number_memory", dict []);
                                            ("sequence_tap", dict []);
                                            ("word_memory", dict []);
                                            ("math_speed", dict [])]);
                     ("players", dict [("ann", dict [("achievements",
                                                     VList [VStr "nm_brain_of_steel"]);
                                                    ("games_played", VInt 0)]);
                                       ("bob", new_player)])]%string in
  ensure_player data' "bob" = Ok data' ∧
  (∀ n r, at_path ["players"%string; n] sample_ledger = Some r →
          at_path ["players"%string; n] data' = Some r) ∧
  (∀ k, k ≠ "players"%string → at_path [k] data' = at_path [k] sample_ledger) ∧
  (data' ≠ sample_ledger → at_path ["players"%string; "bob"%string] data' = Some new_player).
Proof.
  intros data'. apply (ensure_player_keeps_records sample_ledger "bob" data'). reflexivity.
Defined.

(** Awarding on a well-formed ledger, in full: it returns; if the key
    was held nothing but the player's record being there has changed,
    and if it was not, it was put last, the line was printed and the
    ledger was saved. *)
Lemma award_achievement_run data p ach_key ach_name w :
  ledger_ok data →
  ∃ data' w',
    award_achievement data p ach_key ach_name w = Ok (data', w') ∧
    ledger_with p data' ∧
    (∀ q, is_Some (at_path ["players"%string; q] data) →
          is_Some (at_path ["players"%string; q] data')) ∧
    (∀ n, n ≠ p → achievements_of data' n = achievements_of data n) ∧
    (∀ k, k ≠ "players"%string → at_path [k] data' = at_path [k] data) ∧
    ((VStr ach_key ∈ achievements_of data p) ∧
       achievements_of data' p = achievements_of data p ∧ w' = w ∨
     (VStr ach_key ∉ achievements_of data p) ∧
       achievements_of data' p = achievements_of data p ++ [VStr ach_key] ∧
       w' = World (Stored data') (notices w ++ [unlocked_line ach_name])).
Proof.
  intros Hok. destruct (ensure_player_ok data p Hok) as (d1 & Hd1 & Hok1 & Hhas).
  pose proof (ensure_player_same _ _ _ Hd1) as (Hframe & Hach & _).
  assert (∀ q, is_Some (at_path ["players"%string; q] data) →
               is_Some (at_path ["players"%string; q] d1)) as Hkept.
  { intros q Hq. pose proof Hd1 as Hd1'.
    apply ensure_player_inv in Hd1' as (m & -> & [[-> _]|(pm & Hpm & _ & ->)]); [done|].
    destruct Hok as (? & ? & players & [= <-] & _ & Hp & _).
    destruct Hpm as [Hpm|[Hpm _]]; rewrite Hp in Hpm; [|done]. injection Hpm as <-.
    by apply player_kept. }
  setoid_rewrite <- Hach. clear Hach.
  enough (∃ data' w',
    award_achievement data p ach_key ach_name w = Ok (data', w') ∧
    ledger_with p data' ∧
    (∀ q, is_Some (at_path ["players"%string; q] data) →
          is_Some (at_path ["players"%string; q] data')) ∧
    (∀ n, n ≠ p → achievements_of data' n = achievements_of d1 n) ∧
    (∀ k, k ≠ "players"%string → at_path [k] data' = at_path [k] d1) ∧
    ((VStr ach_key ∈ achievements_of d1 p) ∧
       achievements_of data' p = achievements_of d1 p ∧ w' = w ∨
     (VStr ach_key ∉ achievements_of d1 p) ∧
       achievements_of data' p = achievements_of d1 p ++ [VStr ach_key] ∧
       w' = World (Stored data') (notices w ++ [unlocked_line ach_name])))
    as (data' & w' & ? & ? & ? & ? & Hk & ?).
  { exists data', w'. split_and!; try done.
    intros k Hk'. rewrite Hk by done. by apply Hframe. }
  clear Hframe.
  destruct Hok1 as (m & boards & players & -> & Hb & Hp & Hkeys & Hboards & Hplayers).
  pose proof Hhas as Hhas'. cbn [at_path] in Hhas. rewrite Hp in Hhas. simpl in Hhas.
  destruct (players !! p) as [r|] eqn:Hr; [|by destruct Hhas].
  destruct (Hplayers p r Hr) as (rec & l & -> & Hrec).
  assert (achievements_of (VDict m) p = l) as Hl.
  { unfold achievements_of. cbn [at_path]. rewrite Hp. simpl. rewrite Hr. simpl.
    by rewrite Hrec. }
  rewrite Hl. unfold award_achievement.
  erewrite lift_bind_run by exact Hd1.
  erewrite lift_bind_run by (cbn [getitem]; by rewrite Hp).
  erewrite lift_bind_run by (cbn [getitem]; by rewrite Hr).
  erewrite lift_bind_run by (cbn [getitem]; by rewrite Hrec).
  erewrite lift_bind_run by done.
  destruct (existsb (is_str ach_key) l) eqn:Hheld; cbn [negb].
  - apply existsb_is_str in Hheld.
    eexists _, _. split; [done|].
    split; [split; [by exists m, boards, players|done]|].
    split; [done|]. split; [done|]. split; [done|]. left. by rewrite Hl.
  - assert (VStr ach_key ∉ l) as Hnew.
    { intros Hin%existsb_is_str. congruence. }
    do 4 (erewrite lift_bind_run by done).
    eexists _, _. split; [done|].
    assert (ledger_ok (VDict (<["players":=VDict (<[p:=VDict
              (<["achievements":=VList (l ++ [VStr ach_key])]> rec)]> players)]> m))) as Hok'.
    { eexists _, boards, _. split; [done|].
      rewrite lookup_insert_ne, lookup_insert_eq by done. split_and!; try done.
      intros n r [[<- <-]|[? Hn]]%lookup_insert_Some; [|by eapply Hplayers].
      eexists _, _. split; [done|]. by rewrite lookup_insert_eq. }
    split; [split; [done|by apply player_kept]|].
    split_and!.
    + intros q Hq. apply player_kept; [done|]. by apply Hkept.
    + intros n Hn. unfold achievements_of. cbn [at_path].
      rewrite lookup_insert_eq, Hp. simpl. by rewrite lookup_insert_ne.
    + intros k Hk. cbn [at_path]. by rewrite lookup_insert_ne.
    + right. split; [done|]. split; [|done].
      unfold achievements_of. cbn [at_path]. rewrite lookup_insert_eq. simpl.
      rewrite lookup_insert_eq. simpl. by rewrite lookup_insert_eq.
Qed.

(** X5. On a well-formed ledger, awarding a key the player does not
    hold returns; the key is put at the end of the player's list (a
    player not yet known gets a record first), one line with the
    achievement's name is printed, and the ledger is saved as it now
    is.  Nobody else's achievements change, and nothing outside the
    players does. *)
Theorem award_achievement_unlocks (data : value) (p ach_key ach_name : string) (w : world) :
  ledger_ok data →
  VStr ach_key ∉ achievements_of data p →
  ∃ data',
    award_achievement data p ach_key ach_name w
      = Ok (data', World (Stored data') (notices w ++ [unlocked_line ach_name])) ∧
    achievements_of data' p = achievements_of data p ++ [VStr ach_key] ∧
    (∀ n, n ≠ p → achievements_of data' n = achievements_of data n) ∧
    (∀ k, k ≠ "players"%string → at_path [k] data' = at_path [k] data) ∧
    ledger_ok data'.
Proof.
  intros Hok Hnew.
  destruct (award_achievement_run data p ach_key ach_name w Hok)
    as (data' & w' & Hrun & [Hok' _] & _ & Hothers & Hrest & [[? _]|(_ & Hp & ->)]); [done|].
  by exists data'.
Qed.

Lemma award_achievement_unlocks_witness :
  ∃ data',
    award_achievement sample_ledger "bob" "rx_marathon" (ACH_LIST !!! "rx_marathon")
      (World Absent [])
      = Ok (data', World (Stored data')
                     (notices (World Absent [])
                        ++ [unlocked_line (ACH_LIST !!! "rx_marathon")])) ∧
    achievements_of data' "bob" = achievements_of sample_ledger "bob" ++ [VStr "rx_marathon"] ∧
    (∀ n, n ≠ "bob"%string → achievements_of data' n = achievements_of sample_ledger n) ∧
    (∀ k, k ≠ "players"%string → at_path [k] data' = at_path [k] sample_ledger) ∧
    ledger_ok data'.
Proof.
  apply (award_achievement_unlocks sample_ledger "bob" "rx_marathon").
  - eexists _, _, _. split; [reflexivity|]. split; [reflexivity|]. split; [reflexivity|].
    split; [repeat constructor; by eexists|]. split.
    + intros g b Hg. exists ∅. split.
      * rewrite !list_to_map_cons, list_to_map_nil in Hg.
        repeat (apply lookup_insert_Some in Hg as [[_ <-]|[_ Hg]]; [done|]).
        by apply lookup_empty_Some in Hg.
      * intros md v. by rewrite lookup_empty.
    + intros name r Hr. rewrite !list_to_map_cons, list_to_map_nil in Hr.
      apply lookup_insert_Some in Hr as [[_ <-]|[_ Hr]]; [by eexists _, _|].
      by apply lookup_empty_Some in Hr.
  - intros Hin. apply elem_of_nil in Hin. exact Hin.
Defined.

(** ** The leaderboard engine, once more *)

Lemma decorate_raise `{PyOrd K} (sort_fn : value → result K) (vs : list value) kl v e :
  decorate sort_fn vs = Ok kl → sort_fn v = Raise e →
  decorate sort_fn (vs ++ [v]) = Raise e.
Proof.
  revert kl. induction vs as [|x vs IH]; intros kl Hkl He; simpl.
  - by rewrite He.
  - simpl in Hkl. destruct (sort_fn x) as [k|]; [|done]. simpl in *.
    destruct (decorate sort_fn vs) as [kl'|]; [|done]. by rewrite (IH kl').
Qed.

(** X6. An insert sorts the whole board.  Whatever order the stored
    entries are in, as long as they and the new entry have keys of a
    kind that [<] orders, the board afterwards is in ascending key
    order, holds one entry more but no more than [top_n], and holds
    nothing that was not stored or inserted; below the limit nothing is
    lost. *)
Theorem add_leaderboard_entry_sorts_any_board `{PyOrd K} (sort_fn : value → result K)
    (P : K → bool)
    (data : value) (game_key : string) (mode_key : modekey) (entry : value)
    (top_n : Z) (w : world) (lb : list value) :
  orders P →
  read_board data game_key mode_key = Ok (VList lb) →
  Forall (keyed_in sort_fn P) (lb ++ [entry]) →
  0 ≤ top_n →
  ∃ data' lb',
    add_leaderboard_entry data game_key mode_key entry sort_fn top_n w
      = Ok (data', World (Stored data') (notices w)) ∧
    read_board data' game_key mode_key = Ok (VList lb') ∧
    ranked sort_fn lb' ∧
    length lb' = (S (length lb) `min` Z.to_nat top_n)%nat ∧
    lb' ⊆+ lb ++ [entry] ∧
    ((length lb < Z.to_nat top_n)%nat → lb' ≡ₚ lb ++ [entry]).
Proof.
  intros HP Hread Hkeys Hn.
  destruct (decorate_total_in P sort_fn _ Hkeys) as (kl & Hkl & HPkl).
  destruct (add_leaderboard_entry_board P HP sort_fn data game_key mode_key entry top_n w lb kl)
    as (data' & Hrun & Hread'); [done..|].
  destruct (list_sort_in P HP sort_fn _ Hkeys) as (lb' & Hsort & Hranked & _ & Hperm & Hlen).
  assert (lb' = (sort_keyed kl).*2) as ->.
  { unfold list_sort in Hsort. rewrite Hkl in Hsort. cbn [mbind result_bind] in Hsort.
    rewrite (all_ok_in P HP) in Hsort by done. by injection Hsort as <-. }
  exists data', (take (Z.to_nat top_n) (sort_keyed kl).*2). split_and!; [done|done|..].
  - by apply ranked_take.
  - rewrite length_take, Hlen, length_app. cbn [length]. lia.
  - rewrite <- Hperm. apply sublist_submseteq, sublist_take.
  - intros Hlt. rewrite take_ge; [done|]. rewrite Hlen, length_app. cbn [length]. lia.
Qed.

Lemma add_leaderboard_entry_sorts_any_board_witness :
  let late := dict [("name", VStr "ann"); ("total_time", VFloat (5 # 2))]%string in
  let early := dict [("name", VStr "bob"); ("total_time", VFloat (1 # 2))]%string in
  let entry := dict [("name", VStr "cy"); ("total_time", VFloat 1)]%string in
  let data := dict [("leaderboards", dict [("math_speed", dict [("10", VList [late; early])])]);
                    ("players", dict [])]%string in
  ∃ data' lb',
    add_leaderboard_entry data "math_speed" (MInt 10) entry time_sort_fn 2 (World Absent [])
      = Ok (data', World (Stored data') (notices (World Absent []))) ∧
    read_board data' "math_speed" (MInt 10) = Ok (VList lb') ∧
    ranked time_sort_fn lb' ∧
    length lb' = (S (length [late; early]) `min` Z.to_nat 2)%nat ∧
    lb' ⊆+ [late; early] ++ [entry] ∧
    ((length [late; early] < Z.to_nat 2)%nat → lb' ≡ₚ [late; early] ++ [entry]).
Proof.
  intros late early entry data.
  apply (add_leaderboard_entry_sorts_any_board time_sort_fn is_num data "math_speed" (MInt 10)
           entry 2 (World Absent []) [late; early]).
  - exact numbers_ordered.
  - reflexivity.
  - repeat constructor; eexists; split; reflexivity.
  - lia.
Defined.

(** X7. An entry that the sort function refuses is not filed: when the
    stored entries of the board have keys and the new entry has none,
    the insert ends with the exception that the sort function raised
    on the new entry. *)
Theorem add_leaderboard_entry_refuses_keyless `{PyOrd K} (sort_fn : value → result K)
    (data : value) (game_key : string) (mode_key : modekey) (entry : value)
    (top_n : Z) (w : world) (lb : list value) (e : exn) :
  read_board data game_key mode_key = Ok (VList lb) →
  Forall (λ x, is_ok (sort_fn x)) lb →
  sort_fn entry = Raise e →
  add_leaderboard_entry data game_key mode_key entry sort_fn top_n w = Raise e.
Proof.
  intros (m & boards & lbs & -> & Hm & Hb & Hlb)%read_board_ok Hkeys He.
  destruct (decorate_total sort_fn _ Hkeys) as [kl Hkl].
  pose proof (decorate_raise sort_fn lb kl entry e Hkl He) as Hraise.
  unfold add_leaderboard_entry.
  erewrite lift_bind_run by (cbn [getitem]; by rewrite Hm).
  change (dict []) with (VDict ∅).
  destruct Hb as [[Hb ->]|Hb].
  - rewrite lookup_empty in Hlb. simpl in Hlb. simplify_eq.
    erewrite lift_bind_run by (cbn [setdefault]; by rewrite Hb). cbv beta iota.
    erewrite lift_bind_run by (cbn [setdefault]; by rewrite lookup_empty). cbv beta iota.
    erewrite lift_bind_run by done.
    unfold list_sort. rewrite Hraise. done.
  - erewrite lift_bind_run by (cbn [setdefault]; by rewrite Hb). cbv beta iota.
    destruct (lbs !! py_str mode_key) as [v|] eqn:Hmd; simpl in Hlb.
    + simplify_eq.
      erewrite lift_bind_run by (cbn [setdefault]; by rewrite Hmd). cbv beta iota.
      erewrite lift_bind_run by done.
      unfold list_sort. rewrite Hraise. done.
    + simplify_eq.
      erewrite lift_bind_run by (cbn [setdefault]; by rewrite Hmd). cbv beta iota.
      erewrite lift_bind_run by done.
      unfold list_sort. rewrite Hraise. done.
Qed.

Lemma add_leaderboard_entry_refuses_keyless_witness :
  add_leaderboard_entry BASE_SAVE "reaction_game" (MInt 5)
    (dict [("name", VStr "ann"); ("time", VFloat 1)]%string) time_sort_fn TOP_N
    (World Absent [])
  = Raise (KeyError "total_time").
Proof.
  apply (add_leaderboard_entry_refuses_keyless time_sort_fn BASE_SAVE "reaction_game" (MInt 5)
           _ TOP_N (World Absent []) []).
  - reflexivity.
  - constructor.
  - reflexivity.
Defined.

(** ** What a play unlocks *)

Lemma unlocked_snoc held rules c k :
  unlocked held (rules ++ [(c, k)])
  = unlocked held rules
    ++ (if c && negb (existsb (is_str k) (held ++ (VStr <$> unlocked held rules)))
        then [k] else []).
Proof.
  revert held. induction rules as [|[c0 k0] rules IH]; intros held; simpl.
  - rewrite app_nil_r. by destruct (c && _).
  - destruct (c0 && _); [|done]. rewrite IH. simpl. by rewrite <- app_assoc.
Qed.

Lemma unlocked_fresh held rules :
  Forall (λ k, VStr k ∉ held) (unlocked held rules) ∧ NoDup (unlocked held rules).
Proof.
  revert held. induction rules as [|[c k] rules IH]; intros held; simpl.
  - split; constructor.
  - destruct c; simpl; [|apply IH].
    destruct (existsb (is_str k) held) eqn:Hheld; simpl; [apply IH|].
    destruct (IH (held ++ [VStr k])) as [Hfresh Hnd].
    assert (VStr k ∉ held) as Hk by (intros ?%existsb_is_str; congruence).
    split.
    + constructor; [done|]. eapply Forall_impl; [done|]. intros k' Hk' ?.
      apply Hk', elem_of_app. by left.
    + constructor; [|done]. intros Hin. rewrite Forall_forall in Hfresh.
      apply (Hfresh _ Hin), elem_of_app. right. by apply list_elem_of_singleton.
Qed.

Lemma unlocked_elem held rules k :
  k ∈ unlocked held rules ↔ (VStr k ∉ held) ∧ (true, k) ∈ rules.
Proof.
  revert held. induction rules as [|[c k0] rules IH]; intros held; simpl.
  - split; [by intros ?%elem_of_nil|by intros [_ ?%elem_of_nil]].
  - destruct c; simpl.
    + destruct (existsb (is_str k0) held) eqn:Hheld; simpl.
      * apply existsb_is_str in Hheld. rewrite IH, elem_of_cons. split; [naive_solver|].
        intros [Hk [[= ->]|?]]; [done|by split].
      * assert (VStr k0 ∉ held) as Hk0 by (intros ?%existsb_is_str; congruence).
        rewrite !elem_of_cons, IH, elem_of_app, list_elem_of_singleton. split.
        -- intros [->|[Hk ?]]; [by split; [|left]|]. split; [|by right].
           intros ?. apply Hk. by left.
        -- intros [Hk [[= ->]|?]]; [by left|]. destruct (decide (k = k0)) as [->|]; [by left|].
           right. split; [|done]. intros [?|[= ?]]; done.
    + rewrite IH, elem_of_cons. naive_solver.
Qed.

Lemma ensure_player_known data p :
  ledger_with p data → ensure_player data p = Ok data.
Proof.
  intros [(m & boards & players & -> & _ & Hp & _) Hhas].
  cbn [at_path] in Hhas. rewrite Hp in Hhas. simpl in Hhas.
  unfold ensure_player. cbn [setdefault]. rewrite Hp. cbn [mbind result_bind contains].
  rewrite bool_decide_eq_true_2; [done|]. by destruct (players !! p); [eexists|destruct Hhas].
Qed.

Lemma awarded_start data p d1 w :
  ledger_ok data → ensure_player data p = Ok d1 → awarded p [] data w d1 w.
Proof.
  intros Hok Hd1. destruct (ensure_player_ok data p Hok) as (d1' & Hd1' & Hwith).
  rewrite Hd1 in Hd1'. injection Hd1' as <-.
  apply ensure_player_same in Hd1 as (Hframe & Hach & _).
  split; [done|]. split; [|done]. simpl.
  split_and!; [by rewrite app_nil_r|constructor|constructor|done|by rewrite app_nil_r].
Qed.

Lemma award_if_awarded p rules data w d1 w1 c k d2 w2 :
  awarded p rules data w d1 w1 →
  award_if c d1 p k w1 = Ok (d2, w2) →
  awarded p (rules ++ [(c, k)]) data w d2 w2.
Proof.
  intros (Hwith & (Hach & _ & _ & Hothers & Hnot) & Hframe) Hrun.
  pose proof (unlocked_fresh (achievements_of data p) (rules ++ [(c, k)])) as [Hfresh Hnd].
  assert (∀ new : list string,
    ledger_with p d2 →
    achievements_of d2 p = achievements_of d1 p ++ (VStr <$> new) →
    (∀ n, n ≠ p → achievements_of d2 n = achievements_of d1 n) →
    (∀ k, k ≠ "players"%string → at_path [k] d2 = at_path [k] d1) →
    notices w2 = notices w1 ++ ((λ k, unlocked_line (ACH_LIST !!! k)) <$> new) →
    unlocked (achievements_of data p) (rules ++ [(c, k)])
      = unlocked (achievements_of data p) rules ++ new →
    awarded p (rules ++ [(c, k)]) data w d2 w2) as Hgoal.
  { intros new Hwith2 Hach2 Hothers2 Hframe2 Hnot2 Hnew. split; [done|]. split.
    - split_and!; [|done|done| |].
      + by rewrite Hach2, Hach, Hnew, fmap_app, app_assoc.
      + intros n Hn. by rewrite Hothers2, Hothers.
      + by rewrite Hnot2, Hnot, Hnew, fmap_app, app_assoc.
    - intros k' Hk'. by rewrite Hframe2, Hframe. }
  rewrite unlocked_snoc, <- Hach in Hgoal. clear Hfresh Hnd.
  unfold award_if in Hrun. destruct c; simpl in Hgoal.
  - destruct (award_achievement_run d1 p k (ACH_LIST !!! k) w1 (proj1 Hwith))
      as (d2' & w2' & Hrun' & Hwith2 & _ & Hothers2 & Hframe2 & Hcases).
    rewrite Hrun in Hrun'. injection Hrun' as <- <-.
    destruct Hcases as [(Hheld & Hach2 & ->)|(Hnew & Hach2 & ->)].
    + apply existsb_is_str in Hheld. rewrite Hheld in Hgoal. simpl in Hgoal.
      apply (Hgoal []); rewrite ?app_nil_r; done.
    + assert (existsb (is_str k) (achievements_of d1 p) = false) as Hnot1.
      { apply not_true_is_false. by intros ?%existsb_is_str. }
      rewrite Hnot1 in Hgoal. by apply (Hgoal [k]).
  - apply M_ret_ok in Hrun as [-> ->]. apply (Hgoal []); rewrite ?app_nil_r; done.
Qed.

(** Filing the entry changes neither the players nor what was
    printed. *)
Lemma add_leaderboard_entry_players `{PyOrd K} (sort_fn : value → result K)
    data game_key mode_key entry top_n w data' w' :
  add_leaderboard_entry data game_key mode_key entry sort_fn top_n w = Ok (data', w') →
  (∀ n, achievements_of data' n = achievements_of data n) ∧
  notices w' = notices w ∧ disk w' = Stored data'.
Proof.
  intros (m & boards & lbs & lb & kl & -> & _ & _ & _ & _ & _ & -> & ->)%add_leaderboard_entry_inv.
  split; [|done]. intros n. unfold achievements_of. cbn [at_path].
  by rewrite lookup_insert_ne.
Qed.

Lemma frame_same_but_board game_key mode_key data data' :
  (∀ k, k ≠ "players"%string → at_path [k] data' = at_path [k] data) →
  same_but_board game_key mode_key data data'.
Proof.
  intros Hframe. split_and!.
  - intros k _ Hk. by apply Hframe.
  - intros g _. by apply at_path_under, Hframe.
  - intros m _. by apply at_path_under, Hframe.
Qed.

Lemma add_leaderboard_entry_same_but_board `{PyOrd K} (sort_fn : value → result K)
    data game_key mode_key entry top_n w data' w' :
  add_leaderboard_entry data game_key mode_key entry sort_fn top_n w = Ok (data', w') →
  same_but_board game_key (py_str mode_key) data data'.
Proof.
  intros (m & boards & lbs & lb & kl & -> & Hm & Hb & _ & _ & _ & -> & _)%add_leaderboard_entry_inv.
  split_and!; cbn [at_path].
  - intros k Hk _. by rewrite lookup_insert_ne.
  - intros g Hg. rewrite lookup_insert_eq, Hm. simpl. by rewrite lookup_insert_ne.
  - intros md Hmd. rewrite lookup_insert_eq, Hm. simpl. rewrite lookup_insert_eq. simpl.
    rewrite lookup_insert_ne by done.
    destruct Hb as [[-> ->]| ->]; [|done]. simpl. by rewrite lookup_empty.
Qed.

Lemma awarded_filed `{PyOrd K} (sort_fn : value → result K) p rules data w d1 w1
    game_key mode_key entry top_n d2 w2 :
  add_leaderboard_entry d1 game_key mode_key entry sort_fn top_n w1 = Ok (d2, w2) →
  awarded p rules data w d1 w1 →
  unlocks p (unlocked (achievements_of data p) rules) data w d2 w2 ∧
  same_but_board game_key (py_str mode_key) data d2 ∧
  disk w2 = Stored d2.
Proof.
  intros Hrun (_ & (Hach & Hfresh & Hnd & Hothers & Hnot) & Hframe).
  pose proof (add_leaderboard_entry_same_but_board _ _ _ _ _ _ _ _ _ Hrun) as (Hb1 & Hb2 & Hb3).
  apply add_leaderboard_entry_players in Hrun as (Hach2 & Hnot2 & Hdisk).
  split; [|split; [|done]].
  - split_and!; [|done|done| |].
    + by rewrite Hach2.
    + intros n Hn. by rewrite Hach2, Hothers.
    + by rewrite Hnot2.
  - split_and!.
    + intros k ??. by rewrite Hb1, Hframe.
    + intros g ?. rewrite Hb2 by done. by apply at_path_under, Hframe.
    + intros m ?. rewrite Hb3 by done. by apply at_path_under, Hframe.
Qed.

(** Strings the award calls of a play together. *)
Ltac started :=
  match goal with
  | Hok : ledger_ok ?data, H : ensure_player ?data _ = Ok _ |- unlocks _ _ _ ?w _ _ ∧ _ =>
      pose proof (awarded_start _ _ _ w Hok H) as Ha
  end.

Ltac filed :=
  match goal with
  | H : add_leaderboard_entry _ _ _ _ _ _ _ = Ok _, Ha : awarded _ _ _ _ _ _ |- _ =>
      eapply awarded_filed in H; [|exact Ha];
      let Hu := fresh in let Hb := fresh in let Hd := fresh in
      destruct H as (Hu & Hb & Hd);
      split; [exact Hu|]; split; [exact Hb|]; try intros _; exact Hd
  end.

Ltac awarding :=
  repeat match goal with
  | Ha : awarded ?p _ _ _ ?d1 ?w1, H : award_if _ ?d1 ?p _ ?w1 = Ok _ |- _ =>
      apply (award_if_awarded _ _ _ _ _ _ _ _ _ _ Ha) in H; clear Ha
  end.

Lemma reaction_rounds_fold (times : list Q) : ∀ total per_round any_below_200 all_below_500,
  foldl reaction_round (total, per_round, any_below_200, all_below_500) times
  = (foldl fadd total times, per_round ++ times,
     any_below_200 || existsb (λ dt, py_lt dt (round64 (2 # 10))) times,
     all_below_500 && forallb (λ dt, py_lt dt (5 # 10)%Q) times).
Proof.
  induction times as [|dt times IH]; intros total per_round a b; cbn [foldl existsb forallb].
  - by rewrite app_nil_r, orb_false_r, andb_true_r.
  - unfold reaction_round at 2. rewrite IH, <- app_assoc. cbn [app].
    f_equal; [f_equal|].
    + by destruct (py_lt dt (round64 (2 # 10))), a.
    + by destruct (py_lt dt (5 # 10)%Q), b.
Qed.

Lemma number_memory_loop_awarded rounds : ∀ p mode_choice ts max_len total_time round_no
    d1 session w1 data w rules data' session' w',
  awarded p rules data w d1 w1 →
  number_memory_loop rounds p mode_choice ts max_len total_time round_no d1 session w1
    = Ok (data', session', w') →
  unlocks p (unlocked (achievements_of data p) (rules ++ nm_rules rounds max_len round_no))
    data w data' w' ∧
  same_but_board "number_memory" mode_choice data data' ∧
  disk w' = Stored data'.
Proof.
  induction rounds as [|r rounds IH]; intros * Ha Hrun; [done|].
  cbn [number_memory_loop nm_rules] in *. cbv zeta in Hrun.
  destruct (bool_decide (nm_answer r = nm_shown r)).
  - unbind Hrun. awarding.
    eapply IH in Hrun; [|done]. by rewrite <- !app_assoc in Hrun.
  - unbind Hrun. simplify_eq. rewrite app_nil_r. filed.
Qed.

(** What a play has unlocked when it returns. *)
Lemma play_game_awarded c data session w data' session' w' :
  ledger_ok data →
  play_game c data session w = Ok (data', session', w') →
  unlocks (player_of c)
    (unlocked (achievements_of data (player_of c)) (award_rules c session))
    data w data' w' ∧
  same_but_board (game_key_of c) (mode_key_of c) data data' ∧
  (¬ imperfect c → disk w' = Stored data').
Proof.
  intros Hok Hrun. destruct c as [o|o|o|o|o|o|o];
    cbn [play_game player_of award_rules game_key_of mode_key_of imperfect] in *.
  - unfold play_guess_the_number in Hrun. unbind Hrun. simplify_eq.
    started. awarding.
    filed.
  - unfold play_reaction in Hrun. rewrite reaction_rounds_fold in Hrun.
    unbind Hrun. simplify_eq.
    started. awarding.
    filed.
  - unfold play_gibberish in Hrun. unbind Hrun.
    started.
    case_bool_decide; unbind Hrun; simplify_eq.
    + awarding. filed.
    + destruct Ha as (_ & ? & ?). split; [done|]. split; [by apply frame_same_but_board|].
      intros Himp. by destruct Himp.
  - unfold play_number_memory in Hrun. unbind Hrun. simplify_eq.
    started.
    eapply number_memory_loop_awarded in Hrun; [|exact Ha].
    destruct Hrun as (Hu & Hb & Hd). split; [exact Hu|]. by split.
  - unfold play_sequence_tap in Hrun. unbind Hrun.
    started.
    case_bool_decide; unbind Hstep0; simplify_eq.
    + awarding. filed.
    + destruct Ha as (_ & ? & ?). split; [done|]. split; [by apply frame_same_but_board|].
      intros Himp. by destruct Himp.
  - unfold play_word_memory in Hrun. unbind Hrun. simplify_eq.
    started. awarding.
    filed.
  - unfold play_math_speed in Hrun. unbind Hrun. simplify_eq.
    started. awarding.
    filed.
Qed.

Lemma play_game_holds c data session w data' session' w' k :
  ledger_ok data →
  play_game c data session w = Ok (data', session', w') →
  VStr k ∈ achievements_of data' (player_of c) ↔
  VStr k ∈ achievements_of data (player_of c) ∨ (true, k) ∈ award_rules c session.
Proof.
  intros Hok Hrun. destruct (play_game_awarded _ _ _ _ _ _ _ Hok Hrun) as ((-> & _) & _).
  rewrite elem_of_app, list_elem_of_fmap. split.
  - intros [?|(k' & [= <-] & [_ ?]%unlocked_elem)]; [by left|by right].
  - intros [?|Hrule]; [by left|].
    destruct (existsb (is_str k) (achievements_of data (player_of c))) eqn:Hheld.
    + left. by apply existsb_is_str.
    + right. exists k. split; [done|]. apply unlocked_elem. split; [|done].
      intros ?%existsb_is_str. congruence.
Qed.

Lemma nm_rules_fire rounds : ∀ max_len round_no k,
  (true, k) ∈ nm_rules rounds max_len round_no ↔
  1 ≤ Z.of_nat (length (correct_rounds rounds)) ∧
  (k = "nm_brain_of_steel"%string ∧
     10 ≤ max_len + Z.of_nat (length (correct_rounds rounds)) - 1 ∨
   k = "nm_flash_recall"%string ∧ 5 ≤ round_no + Z.of_nat (length (correct_rounds rounds))).
Proof.
  induction rounds as [|r rounds IH]; intros max_len round_no k; cbn [nm_rules correct_rounds].
  - split; [by intros ?%elem_of_nil|]. simpl. lia.
  - destruct (bool_decide (nm_answer r = nm_shown r)).
    2: { split; [by intros ?%elem_of_nil|]. simpl. lia. }
    rewrite !elem_of_cons, IH. cbn [length].
    set (n := length (correct_rounds rounds)). split.
    + intros [[= Hb ->]|[[= Hf ->]|[Hn [[-> Hb]|[-> Hf]]]]].
      * symmetry in Hb. apply bool_decide_eq_true in Hb. split; [lia|]. left. split; [done|lia].
      * symmetry in Hf. apply bool_decide_eq_true in Hf. split; [lia|]. right. split; [done|lia].
      * split; [lia|]. left. split; [done|lia].
      * split; [lia|]. right. split; [done|lia].
    + intros [_ [[-> Hb]|[-> Hf]]].
      * destruct (decide (10 ≤ max_len)) as [Hm|Hm].
        -- left. by rewrite bool_decide_eq_true_2 by lia.
        -- right; right. split; [lia|]. left. split; [done|lia].
      * destruct (decide (5 ≤ round_no + 1)) as [Hm|Hm].
        -- right; left. by rewrite bool_decide_eq_true_2 by lia.
        -- right; right. split; [lia|]. right. split; [done|lia].
Qed.

Lemma nm_rules_keys rounds : ∀ max_len round_no b k,
  (b, k) ∈ nm_rules rounds max_len round_no →
  k = "nm_brain_of_steel"%string ∨ k = "nm_flash_recall"%string.
Proof.
  induction rounds as [|r rounds IH]; intros max_len round_no b k; cbn [nm_rules].
  - by intros ?%elem_of_nil.
  - destruct (bool_decide (nm_answer r = nm_shown r)); [|by intros ?%elem_of_nil].
    rewrite !elem_of_cons. intros [[= _ ->]|[[= _ ->]|?]]; [by left|by right|by eapply IH].
Qed.

(** The sample ledger and the empty ledger are well formed. *)
Ltac small_ledger_ok :=
  eexists _, _, _; split; [reflexivity|]; split; [reflexivity|]; split; [reflexivity|];
  split; [repeat constructor; by eexists|]; split;
  [ let Hg := fresh "Hg" in
    intros ?? Hg; exists ∅; split;
    [ rewrite !list_to_map_cons, list_to_map_nil in Hg;
      repeat (apply lookup_insert_Some in Hg as [[_ <-]|[_ Hg]]; [done|]);
      by apply lookup_empty_Some in Hg
    | intros ??; by rewrite lookup_empty ]
  | let Hr := fresh "Hr" in
    intros ?? Hr; rewrite ?list_to_map_cons, list_to_map_nil in Hr;
    repeat (apply lookup_insert_Some in Hr as [[_ <-]|[_ Hr]]; [by eexists _, _|]);
    by apply lookup_empty_Some in Hr ].

(** The same for a small ledger whose boards are all empty. *)
Ltac small_ledger_shown :=
  split;
  [ small_ledger_ok
  | let Hat := fresh "Hat" in let Hg := fresh "Hg" in
    intros ? ? ? Hat; cbv delta [sample_ledger BASE_SAVE dict] in Hat; cbn [at_path] in Hat;
    rewrite list_to_map_cons, lookup_insert_eq in Hat; cbn [mbind option_bind] in Hat;
    match type of Hat with
    | context [@lookup _ _ _ _ ?g ?m] =>
        destruct (@lookup _ _ _ _ g m) eqn:Hg; [|done];
        rewrite !list_to_map_cons, list_to_map_nil in Hg;
        repeat (apply lookup_insert_Some in Hg as [[_ <-]|[_ Hg]];
                [cbn [at_path mbind option_bind] in Hat; by rewrite lookup_empty in Hat|]);
        by apply lookup_empty_Some in Hg
    end ].

(** X8. What a play unlocks.  On a well-formed ledger a play that
    returns has put behind its player's achievements exactly the keys
    of its award calls whose condition held and whose key was not held
    by then, in the order of the calls and none twice, and has printed
    one line for each, in the same order.  Nobody else's achievements
    change. *)
Theorem play_game_unlocks (c : play) (data : value) (session : SessionTracker) (w : world)
    (data' : value) (session' : SessionTracker) (w' : world) :
  ledger_ok data →
  play_game c data session w = Ok (data', session', w') →
  let p := player_of c in
  let keys := unlocked (achievements_of data p) (award_rules c session) in
  achievements_of data' p = achievements_of data p ++ (VStr <$> keys) ∧
  notices w' = notices w ++ ((λ k, unlocked_line (ACH_LIST !!! k)) <$> keys) ∧
  NoDup keys ∧
  (∀ name, name ≠ p → achievements_of data' name = achievements_of data name).
Proof.
  intros Hok Hrun p keys.
  by destruct (play_game_awarded _ _ _ _ _ _ _ Hok Hrun) as ((? & _ & ? & ? & ?) & _).
Qed.

Lemma play_game_unlocks_witness :
  let p := player_of sample_guess_play in
  let keys := unlocked (achievements_of sample_ledger p)
                (award_rules sample_guess_play (SessionTracker_init None)) in
  achievements_of sample_guess_ledger p = achievements_of sample_ledger p ++ (VStr <$> keys) ∧
  notices (World (Stored sample_guess_ledger) sample_guess_lines)
    = notices (World Absent []) ++ ((λ k, unlocked_line (ACH_LIST !!! k)) <$> keys) ∧
  NoDup keys ∧
  (∀ name, name ≠ p → achievements_of sample_guess_ledger name = achievements_of sample_ledger name).
Proof.
  apply (play_game_unlocks sample_guess_play sample_ledger (SessionTracker_init None)
           (World Absent []) sample_guess_ledger
           (Session (Some "ann"%string) {["guess"%string]} 1 0 1)
           (World (Stored sample_guess_ledger) sample_guess_lines)).
  - small_ledger_ok.
  - reflexivity.
Defined.

(** X9. Which achievements a player holds after a play: the ones held
    before, and the keys of the play's award calls whose condition
    held; no others. *)
Theorem play_game_achievements (c : play) (data : value) (session : SessionTracker)
    (w : world) (data' : value) (session' : SessionTracker) (w' : world) (k : string) :
  ledger_ok data →
  play_game c data session w = Ok (data', session', w') →
  VStr k ∈ achievements_of data' (player_of c) ↔
  VStr k ∈ achievements_of data (player_of c) ∨ (true, k) ∈ award_rules c session.
Proof. apply play_game_holds. Qed.

Lemma play_game_achievements_witness :
  VStr "ms_math_genius" ∈ achievements_of sample_math_ledger (player_of sample_math_play) ↔
  VStr "ms_math_genius" ∈ achievements_of sample_ledger (player_of sample_math_play) ∨
  (true, "ms_math_genius"%string) ∈ award_rules sample_math_play (SessionTracker_init None).
Proof.
  apply (play_game_achievements sample_math_play sample_ledger (SessionTracker_init None)
           (World Absent []) sample_math_ledger (Session (Some "bob"%string) ∅ 0 0 1)
           (World (Stored sample_math_ledger) sample_math_lines) "ms_math_genius").
  - small_ledger_ok.
  - reflexivity.
Defined.

(** X10. Number Memory, with [n] the number of right answers before
    the first wrong one.  After the play the player holds "Flash
    Recall" when it was held before or [n] is at least 5, and "Brain
    of Steel" when it was held before or there was a right answer and
    the last number recalled, of [start_len + n - 1] digits, had ten
    digits or more; in no other case. *)
Theorem number_memory_awards (o : number_memory_run) (data : value)
    (session : SessionTracker) (w : world) (data' : value) (session' : SessionTracker)
    (w' : world) :
  ledger_ok data →
  play_game (NumberMemory o) data session w = Ok (data', session', w') →
  let n := Z.of_nat (length (correct_rounds (nm_rounds o))) in
  (VStr "nm_flash_recall" ∈ achievements_of data' (nm_player o) ↔
   VStr "nm_flash_recall" ∈ achievements_of data (nm_player o) ∨ 5 ≤ n) ∧
  (VStr "nm_brain_of_steel" ∈ achievements_of data' (nm_player o) ↔
   VStr "nm_brain_of_steel" ∈ achievements_of data (nm_player o) ∨
   1 ≤ n ∧ 10 ≤ start_len_of (nm_mode_choice o) + n - 1).
Proof.
  intros Hok Hrun n. split.
  - rewrite (play_game_holds _ _ _ _ _ _ _ "nm_flash_recall" Hok Hrun).
    cbn [player_of award_rules]. rewrite nm_rules_fire. fold n.
    split; (intros [?|Hn]; [by left|right]); [|split; [lia|right; split; [done|lia]]].
    destruct Hn as [_ [[[=] _]|[_ ?]]]. lia.
  - rewrite (play_game_holds _ _ _ _ _ _ _ "nm_brain_of_steel" Hok Hrun).
    cbn [player_of award_rules]. rewrite nm_rules_fire. fold n.
    split; (intros [?|Hn]; [by left|right]); [|split; [lia|left; split; [done|lia]]].
    destruct Hn as [? [[_ ?]|[[=] _]]]. lia.
Qed.

Lemma number_memory_awards_witness :
  let o := NumberMemoryRun "ann" "hard_6"
             (replicate 5 (NmRound "123456" "123456" 2) ++ [NmRound "123456" "123465" 2])
             1005 in
  let n := Z.of_nat (length (correct_rounds (nm_rounds o))) in
  (VStr "nm_flash_recall" ∈ achievements_of sample_memory_ledger (nm_player o) ↔
   VStr "nm_flash_recall" ∈ achievements_of sample_ledger (nm_player o) ∨ 5 ≤ n) ∧
  (VStr "nm_brain_of_steel" ∈ achievements_of sample_memory_ledger (nm_player o) ↔
   VStr "nm_brain_of_steel" ∈ achievements_of sample_ledger (nm_player o) ∨
   1 ≤ n ∧ 10 ≤ start_len_of (nm_mode_choice o) + n - 1).
Proof.
  intros o.
  apply (number_memory_awards o sample_ledger (SessionTracker_init None) (World Absent [])
           sample_memory_ledger (Session (Some "ann"%string) ∅ 0 0 5)
           (World (Stored sample_memory_ledger) sample_memory_lines)).
  - small_ledger_ok.
  - reflexivity.
Defined.

(** X11. Every award call of every game names a key of the catalog,
    so the name it prints is there to be looked up; and none names a
    key outside the eighteen game achievements. *)
Theorem award_calls_name_catalog_keys (c : play) (session : SessionTracker)
    (b : bool) (k : string) :
  (b, k) ∈ award_rules c session →
  is_Some (ACH_LIST !! k) ∧ awarded_somewhere k = true.
Proof.
  intros Hin. assert (awarded_somewhere k = true) as Hk.
  { destruct c as [o|o|o|o|o|o|o]; cbn [award_rules] in Hin.
    4: { by apply nm_rules_keys in Hin as [->| ->]. }
    all: repeat case_bool_decide.
    all: repeat (apply elem_of_cons in Hin as [[= _ ->]|Hin]; [reflexivity|]).
    all: by apply elem_of_nil in Hin. }
  split; [|done]. clear Hin. unfold awarded_somewhere in Hk.
  apply bool_decide_eq_true in Hk.
  repeat (apply elem_of_cons in Hk as [->|Hk]; [eexists; reflexivity|]).
  by apply elem_of_nil in Hk.
Qed.

Lemma award_calls_name_catalog_keys_witness :
  is_Some (ACH_LIST !! "rx_marathon") ∧ awarded_somewhere "rx_marathon" = true.
Proof.
  apply (award_calls_name_catalog_keys (Reaction (ReactionRun "ann" 25 [] 0))
           (SessionTracker_init None) true "rx_marathon").
  cbn [award_rules rx_rounds]. apply elem_of_cons. right. apply elem_of_cons. right.
  apply elem_of_cons. by left.
Defined.

(** X12. Outside the players, a play changes one board at most: every
    top-level key other than "leaderboards" and "players", every other
    game's boards and every other mode's board of the same game read
    after the play as they did before. *)
Theorem play_game_touches_one_board (c : play) (data : value) (session : SessionTracker)
    (w : world) (data' : value) (session' : SessionTracker) (w' : world) :
  ledger_ok data →
  play_game c data session w = Ok (data', session', w') →
  same_but_board (game_key_of c) (mode_key_of c) data data'.
Proof.
  intros Hok Hrun. by destruct (play_game_awarded _ _ _ _ _ _ _ Hok Hrun) as (_ & ? & _).
Qed.

Lemma play_game_touches_one_board_witness :
  same_but_board (game_key_of sample_math_play) (mode_key_of sample_math_play)
    sample_ledger sample_math_ledger.
Proof.
  apply (play_game_touches_one_board sample_math_play sample_ledger (SessionTracker_init None)
           (World Absent []) sample_math_ledger (Session (Some "bob"%string) ∅ 0 0 1)
           (World (Stored sample_math_ledger) sample_math_lines)).
  - small_ledger_ok.
  - reflexivity.
Defined.

(** X13. A finished play that is recorded, on a well-formed ledger
    whose boards can be shown, returns, its board shown at the end;
    the ledger it returns is again well formed with boards that can be
    shown and is what the file then holds, and loading the file gives
    that ledger back.  (On a board with an entry that cannot be shown,
    one without a name for instance, the play files its entry and
    then ends with the exception of [fmt].) *)
Theorem play_game_saves (c : play) (data : value) (session : SessionTracker) (w : world) :
  ledger_shown data → finished c → ¬ imperfect c →
  ∃ data' session' w',
    play_game c data session w = Ok (data', session', w') ∧
    ledger_shown data' ∧
    disk w' = Stored data' ∧
    read_save w' = Ok (data', w').
Proof.
  intros Hok Hfin Hperfect.
  destruct (play_game_returns c data session w Hok Hfin) as ([data' session'] & w' & Hrun & Hok').
  cbn [fst] in Hok'.
  destruct (play_game_awarded _ _ _ _ _ _ _ (proj1 Hok) Hrun) as (_ & _ & Hdisk).
  specialize (Hdisk Hperfect).
  exists data', session', w'. split_and!; [done..|].
  unfold read_save. rewrite Hdisk.
  by rewrite (ensure_keys_id _ (ledger_ok_schema _ (proj1 Hok'))).
Qed.

Lemma play_game_saves_witness :
  ∃ data' session' w',
    play_game sample_math_play sample_ledger (SessionTracker_init None) (World Garbled [])
      = Ok (data', session', w') ∧
    ledger_shown data' ∧
    disk w' = Stored data' ∧
    read_save w' = Ok (data', w').
Proof.
  apply (play_game_saves sample_math_play sample_ledger (SessionTracker_init None)
           (World Garbled [])).
  - small_ledger_shown.
  - exact I.
  - intros Himp. exact Himp.
Defined.

(** ** The session tracker *)

Lemma number_memory_loop_session rounds : ∀ p mode_choice ts max_len total_time round_no
    data session w data' session' w',
  number_memory_loop rounds p mode_choice ts max_len total_time round_no data session w
    = Ok (data', session', w') →
  session' = set_total (total_games_played session
                        + Z.of_nat (length (correct_rounds rounds))) session.
Proof.
  induction rounds as [|r rounds IH]; intros * Hrun; [done|].
  cbn [number_memory_loop correct_rounds] in *. cbv zeta in Hrun.
  destruct (bool_decide (nm_answer r = nm_shown r)).
  - unbind Hrun. apply IH in Hrun as ->. destruct session. unfold set_total. simpl.
    f_equal. cbn [length]. lia.
  - unbind Hrun. simplify_eq.
    match goal with |- ?s = _ => destruct s end. unfold set_total. simpl. f_equal. lia.
Qed.

Lemma play_game_session c data session w data' session' w' :
  play_game c data session w = Ok (data', session', w') →
  player session' = Some (player_of c) ∧
  games_this_session session' = session_id c ∪ games_this_session session ∧
  total_games_played session' = total_games_played session + games_counted c ∧
  consecutive_gtn_wins session'
    = consecutive_gtn_wins session + (if is_guess c then 1 else 0) ∧
  (game_key_of c ≠ "gibberish_typing"%string →
   perfect_gibberish_streak session' = perfect_gibberish_streak session).
Proof.
  assert (∀ X : gset string, X = ∅ ∪ X) as Hempty by set_solver.
  destruct c as [o|o|o|o|o|o|o];
    cbn [play_game player_of session_id games_counted is_guess game_key_of]; intros Hrun.
  - unfold play_guess_the_number in Hrun. unbind Hrun. simplify_eq.
    cbn [player games_this_session total_games_played consecutive_gtn_wins
         perfect_gibberish_streak set_player add_game set_total set_gtn_wins]. by split_and!.
  - unfold play_reaction in Hrun.
    destruct (foldl reaction_round _ _) as [[[total per_round] any_below] all_below].
    unbind Hrun. simplify_eq.
    cbn [player games_this_session total_games_played consecutive_gtn_wins
         perfect_gibberish_streak set_player add_game set_total set_gtn_wins].
    split_and!; [done..|lia|done].
  - unfold play_gibberish in Hrun. unbind Hrun.
    destruct (bool_decide (gb_typed_tokens o = gb_targets o)); unbind Hrun; simplify_eq;
      cbn [player games_this_session total_games_played consecutive_gtn_wins
           set_player add_game set_total set_gtn_wins set_gibberish_streak];
      (split_and!; [done..|lia|done]).
  - unfold play_number_memory in Hrun. unbind Hrun.
    apply number_memory_loop_session in Hrun as ->.
    cbn [player games_this_session total_games_played consecutive_gtn_wins
         perfect_gibberish_streak set_player add_game set_total set_gtn_wins].
    split_and!; [done..|lia|done].
  - unfold play_sequence_tap in Hrun. unbind Hrun. simplify_eq.
    cbn [player games_this_session total_games_played consecutive_gtn_wins
         perfect_gibberish_streak set_player add_game set_total set_gtn_wins].
    split_and!; [done..|lia|done].
  - unfold play_word_memory in Hrun. unbind Hrun. simplify_eq.
    cbn [player games_this_session total_games_played consecutive_gtn_wins
         perfect_gibberish_streak set_player add_game set_total set_gtn_wins].
    split_and!; [done..|lia|done].
  - unfold play_math_speed in Hrun. unbind Hrun. simplify_eq.
    cbn [player games_this_session total_games_played consecutive_gtn_wins
         perfect_gibberish_streak set_player add_game set_total set_gtn_wins].
    split_and!; [done..|lia|done].
Qed.

Lemma play_all_tracked cs : ∀ data session w data' session' w',
  play_all cs data session w = Ok (data', session', w') →
  games_this_session session' = ⋃ (session_id <$> cs) ∪ games_this_session session ∧
  total_games_played session'
    = total_games_played session + foldr Z.add 0 (games_counted <$> cs) ∧
  consecutive_gtn_wins session'
    = consecutive_gtn_wins session + Z.of_nat (length (filter (λ c, is_guess c) cs)) ∧
  (Forall (λ c, game_key_of c ≠ "gibberish_typing"%string) cs →
   perfect_gibberish_streak session' = perfect_gibberish_streak session).
Proof.
  induction cs as [|c cs IH]; intros data session w data' session' w' Hrun;
    cbn [play_all] in Hrun.
  - apply M_ret_ok in Hrun as [[= <- <-] _]. simpl. split_and!; [set_solver|lia|lia|done].
  - apply M_bind_ok in Hrun as ([d1 s1] & w1 & Hc & Hrun).
    apply play_game_session in Hc as (_ & Hg & Ht & Hw & Hs).
    apply IH in Hrun as (Hg' & Ht' & Hw' & Hs').
    rewrite Hg', Ht', Hw', Hg, Ht, Hw, !fmap_cons, filter_cons. cbn [foldr union_list].
    split_and!; [set_solver|lia| |].
    + destruct (is_guess c); simpl; lia.
    + intros [Hc Hcs]%Forall_cons. by rewrite Hs', Hs.
Qed.

(** X14. What a run of plays leaves in the session tracker.  The set
    of games played has grown by "guess", "reaction" and "gibberish"
    for the plays of these three games and by nothing for the other
    four.  The count of games has grown by one for each play, except
    that a Number Memory play counts one for each right answer.  The
    count of Guess the Number wins has grown by one for each such play,
    whoever played and whatever was played in between: it is never set
    back.  The streak of perfect Gibberish runs is left alone by the
    other six games. *)
Theorem play_all_session (cs : list play) (data : value) (session : SessionTracker)
    (w : world) (data' : value) (session' : SessionTracker) (w' : world) :
  play_all cs data session w = Ok (data', session', w') →
  games_this_session session' = ⋃ (session_id <$> cs) ∪ games_this_session session ∧
  total_games_played session'
    = total_games_played session + foldr Z.add 0 (games_counted <$> cs) ∧
  consecutive_gtn_wins session'
    = consecutive_gtn_wins session + Z.of_nat (length (filter (λ c, is_guess c) cs)) ∧
  (Forall (λ c, game_key_of c ≠ "gibberish_typing"%string) cs →
   perfect_gibberish_streak session' = perfect_gibberish_streak session).
Proof. apply play_all_tracked. Qed.

Lemma play_all_session_witness :
  let s0 := SessionTracker_init None in
  let s1 := Session (Some "ann"%string) {["guess"%string]} 1 0 1 in
  games_this_session s1 = ⋃ (session_id <$> [sample_guess_play]) ∪ games_this_session s0 ∧
  total_games_played s1
    = total_games_played s0 + foldr Z.add 0 (games_counted <$> [sample_guess_play]) ∧
  consecutive_gtn_wins s1
    = consecutive_gtn_wins s0
      + Z.of_nat (length (filter (λ c, is_guess c) [sample_guess_play])) ∧
  (Forall (λ c, game_key_of c ≠ "gibberish_typing"%string) [sample_guess_play] →
   perfect_gibberish_streak s1 = perfect_gibberish_streak s0).
Proof.
  intros s0 s1.
  apply (play_all_session [sample_guess_play] sample_ledger s0 (World Absent [])
           sample_guess_ledger s1 (World (Stored sample_guess_ledger) sample_guess_lines)).
  reflexivity.
Defined.

(** ** The prompts of Guess the Number *)

Lemma ranges_ok ch lo hi : ranges !! ch = Some (lo, hi) → 1 ≤ lo ∧ lo < hi.
Proof.
  unfold ranges. rewrite !list_to_map_cons, list_to_map_nil. intros Hch.
  repeat (apply lookup_insert_Some in Hch as [[_ [= <- <-]]|[_ Hch]]; [lia|]).
  by apply lookup_empty_Some in Hch.
Qed.

Lemma get_guess_difficulty_inv (n : nat) : ∀ lines key lo hi rest,
  (length lines ≤ n)%nat →
  get_guess_difficulty lines = Ok (key, (lo, hi), rest) →
  (1 ≤ lo ∧ lo < hi) ∧
  (ranges !! key = Some (lo, hi) ∨
   key = ("custom_" ++ pretty lo ++ "_" ++ pretty hi)%string) ∧
  (length rest < length lines)%nat ∧ rest `suffix_of` lines.
Proof.
  induction n as [|n IH]; intros lines key lo hi rest Hn Hrun;
    destruct lines as [|l lines]; try done; [simpl in Hn; lia|].
  cbn [get_guess_difficulty] in Hrun. cbv zeta in Hrun. cbn [length] in *.
  assert (∀ lines', (length lines' ≤ n)%nat → lines' `suffix_of` lines →
            get_guess_difficulty lines' = Ok (key, (lo, hi), rest) →
            (1 ≤ lo ∧ lo < hi) ∧
            (ranges !! key = Some (lo, hi) ∨
             key = ("custom_" ++ pretty lo ++ "_" ++ pretty hi)%string) ∧
            (length rest < S (length lines))%nat ∧ rest `suffix_of` l :: lines) as Hagain.
  { intros lines' Hlen Hsuf Hrun'.
    destruct (IH _ _ _ _ _ Hlen Hrun') as ([??] & ? & ? & ?). split_and!; [done..| |].
    - apply suffix_length in Hsuf. lia.
    - apply suffix_cons_r. by etrans. }
  destruct (ranges !! stripped l) as [[lo' hi']|] eqn:Hch.
  { injection Hrun as <- <- <- <-. split_and!; [by eapply ranges_ok..|by left|lia|].
    by apply suffix_cons_r. }
  case_bool_decide; [|apply (Hagain lines); [lia|done|done]].
  destruct lines as [|l1 lines]; [done|]. cbn [length] in *.
  destruct (as_int l1) as [low|].
  2: { apply (Hagain lines); [lia|by apply suffix_cons_r|done]. }
  destruct lines as [|l2 lines]; [done|]. cbn [length] in *.
  destruct (as_int l2) as [high|].
  2: { apply (Hagain lines); [lia|by do 2 apply suffix_cons_r|done]. }
  destruct (bool_decide (1 ≤ low) && bool_decide (low < high)) eqn:Htest.
  2: { apply (Hagain lines); [lia|by do 2 apply suffix_cons_r|done]. }
  injection Hrun as <- <- <- <-.
  apply andb_true_iff in Htest as [?%bool_decide_eq_true ?%bool_decide_eq_true].
  split_and!; [done|done|by right|lia|by do 3 apply suffix_cons_r].
Qed.

(** X15. Whatever is typed at the difficulty prompts, a range that
    [get_guess_difficulty] returns is one to draw a target from: its
    lower end is at least 1 and below its upper end.  The mode key is
    a choice from 1 to 7 with the range of the table, or
    [custom_<low>_<high>] with the range typed; at least one line was
    read, and the lines left are the lines not yet read. *)
Theorem get_guess_difficulty_range (lines : list line) (key : string) (lo hi : Z)
    (rest : list line) :
  get_guess_difficulty lines = Ok (key, (lo, hi), rest) →
  (1 ≤ lo ∧ lo < hi) ∧
  (ranges !! key = Some (lo, hi) ∨
   key = ("custom_" ++ pretty lo ++ "_" ++ pretty hi)%string) ∧
  (length rest < length lines)%nat ∧ rest `suffix_of` lines.
Proof. by apply (get_guess_difficulty_inv (length lines)). Qed.

Lemma get_guess_difficulty_range_witness :
  let lines := [Line "9" (Some 9); Line "8" (Some 8); Line "ten" None;
                Line "8" (Some 8); Line "50" (Some 50); Line "5" (Some 5);
                Line "8" (Some 8); Line "10" (Some 10); Line "99" (Some 99);
                Line "42" (Some 42)] in
  let rest := [Line "42" (Some 42)] in
  (1 ≤ 10 ∧ 10 < 99) ∧
  (ranges !! "custom_10_99" = Some (10, 99) ∨
   "custom_10_99"%string = ("custom_" ++ pretty 10 ++ "_" ++ pretty 99)%string) ∧
  (length rest < length lines)%nat ∧ rest `suffix_of` lines.
Proof.
  intros lines rest.
  apply (get_guess_difficulty_range lines "custom_10_99" 10 99 rest).
  vm_compute. reflexivity.
Defined.

(** X16. [get_guess_difficulty] gives up in one way only: the input
    ends.  No line typed makes it raise anything else. *)
Theorem get_guess_difficulty_raises_eof_only (lines : list line) (e : exn) :
  get_guess_difficulty lines = Raise e → e = EOFError.
Proof.
  remember (length lines) as n eqn:Hn. assert (length lines ≤ n)%nat as Hle by lia.
  clear Hn. revert lines Hle. induction n as [|n IH]; intros lines Hle Hrun;
    destruct lines as [|l lines]; cbn [length] in *; try lia; [by injection Hrun..|].
  cbn [get_guess_difficulty] in Hrun. cbv zeta in Hrun.
  destruct (ranges !! stripped l) as [[lo' hi']|]; [done|].
  case_bool_decide; [|apply (IH lines); [lia|done]].
  destruct lines as [|l1 lines]; [by injection Hrun|]. cbn [length] in *.
  destruct (as_int l1) as [low|]; [|apply (IH lines); [lia|done]].
  destruct lines as [|l2 lines]; [by injection Hrun|]. cbn [length] in *.
  destruct (as_int l2) as [high|]; [|apply (IH lines); [lia|done]].
  destruct (bool_decide (1 ≤ low) && bool_decide (low < high)); [done|].
  apply (IH lines); [lia|done].
Qed.

Lemma get_guess_difficulty_raises_eof_only_witness : EOFError = EOFError.
Proof.
  apply (get_guess_difficulty_raises_eof_only
           [Line "0" (Some 0); Line "8" (Some 8); Line "3" (Some 3)] EOFError).
  vm_compute. reflexivity.
Defined.

Lemma guess_loop_hit before : ∀ l rest min_n max_n target attempts,
  min_n ≤ target ≤ max_n →
  as_int l = Some target →
  Forall (λ x, as_int x ≠ Some target) before →
  guess_loop (before ++ l :: rest) min_n max_n target attempts
  = Ok (attempts + Z.of_nat (length (filter (λ x, is_number x) before)) + 1, rest).
Proof.
  induction before as [|x before IH]; intros l rest min_n max_n target attempts Hin Hl Hmiss;
    cbn [app guess_loop].
  - rewrite Hl. cbv zeta.
    rewrite !bool_decide_eq_false_2 by lia. cbn [orb]. f_equal. f_equal. simpl. lia.
  - apply Forall_cons in Hmiss as [Hx Hmiss]. rewrite filter_cons.
    destruct (as_int x) as [g|] eqn:Hg.
    + cbv zeta. assert (g ≠ target) by congruence.
      rewrite decide_True by (unfold is_number; rewrite Hg; apply bool_decide_pack; by eexists).
      assert (∀ b : bool,
        (if b then guess_loop (before ++ l :: rest) min_n max_n target (attempts + 1)
         else if bool_decide (g < target)
              then guess_loop (before ++ l :: rest) min_n max_n target (attempts + 1)
              else if bool_decide (target < g)
                   then guess_loop (before ++ l :: rest) min_n max_n target (attempts + 1)
                   else Ok (attempts + 1, before ++ l :: rest))
        = guess_loop (before ++ l :: rest) min_n max_n target (attempts + 1)) as ->.
      { intros []; [done|]. repeat case_bool_decide; try done. lia. }
      rewrite IH by done. f_equal. f_equal. cbn [length]. lia.
    + rewrite decide_False by (unfold is_number; rewrite Hg; by intros [? [=]]%bool_decide_unpack).
      by rewrite IH.
Qed.

Lemma guess_loop_inv lines : ∀ min_n max_n target attempts a rest,
  guess_loop lines min_n max_n target attempts = Ok (a, rest) →
  ∃ before l,
    lines = before ++ l :: rest ∧ as_int l = Some target ∧
    (min_n ≤ target ≤ max_n → Forall (λ x, as_int x ≠ Some target) before) ∧
    a = attempts + Z.of_nat (length (filter (λ x, is_number x) before)) + 1.
Proof.
  induction lines as [|x lines IH]; intros min_n max_n target attempts a rest Hrun; [done|].
  cbn [guess_loop] in Hrun.
  assert (∀ attempts' (miss : min_n ≤ target ≤ max_n → as_int x ≠ Some target),
    attempts' = attempts + (if is_number x then 1 else 0) →
    guess_loop lines min_n max_n target attempts' = Ok (a, rest) →
    ∃ before l,
      x :: lines = before ++ l :: rest ∧ as_int l = Some target ∧
      (min_n ≤ target ≤ max_n → Forall (λ x, as_int x ≠ Some target) before) ∧
      a = attempts + Z.of_nat (length (filter (λ x, is_number x) before)) + 1) as Hagain.
  { intros attempts' Hmiss -> (before & l & -> & Hl & Hbefore & ->)%IH.
    exists (x :: before), l. split_and!; [done|done| |].
    - intros Hin. constructor; [by apply Hmiss|by apply Hbefore].
    - rewrite filter_cons. destruct (is_number x) eqn:Hx.
      + rewrite decide_True by done. cbn [length]. lia.
      + rewrite decide_False by (by intros []). lia. }
  unfold is_number in Hagain.
  destruct (as_int x) as [g|] eqn:Hg.
  - cbv zeta in Hrun. rewrite bool_decide_eq_true_2 in Hagain by by eexists.
    destruct (bool_decide (g < min_n) || bool_decide (max_n < g)) eqn:Hout.
    { apply (Hagain (attempts + 1)); [|done|done].
      apply orb_true_iff in Hout as [?%bool_decide_eq_true|?%bool_decide_eq_true];
        intros ? [= ->]; lia. }
    case_bool_decide.
    { apply (Hagain (attempts + 1)); [|done|done]. intros ? [= ->]; lia. }
    case_bool_decide.
    { apply (Hagain (attempts + 1)); [|done|done]. intros ? [= ->]; lia. }
    injection Hrun as <- <-. exists [], x. split_and!; [done| |by constructor|simpl; lia].
    rewrite Hg. f_equal. lia.
  - rewrite bool_decide_eq_false_2 in Hagain by (by intros [? [=]]).
    apply (Hagain attempts); [done|lia|done].
Qed.

(** X17. The guessing loop, for a target inside the range.  It ends
    at the first line that is the target, and at no other; the number
    of attempts it reports is the number of lines before it that were
    integers, in the range or not, plus one.  Lines that are no
    integers are asked for again and do not count. *)
Theorem guess_loop_counts (lines : list line) (min_n max_n target attempts a : Z)
    (rest : list line) :
  min_n ≤ target ≤ max_n →
  guess_loop lines min_n max_n target attempts = Ok (a, rest) ↔
  ∃ before l,
    lines = before ++ l :: rest ∧ as_int l = Some target ∧
    Forall (λ x, as_int x ≠ Some target) before ∧
    a = attempts + Z.of_nat (length (filter (λ x, is_number x) before)) + 1.
Proof.
  intros Hin. split.
  - intros (before & l & ? & ? & Hbefore & ?)%guess_loop_inv. exists before, l.
    split_and!; [done..|by apply Hbefore|done].
  - intros (before & l & -> & ? & ? & ->). by apply guess_loop_hit.
Qed.

Lemma guess_loop_counts_witness :
  let lines := [Line "50" (Some 50); Line "" None; Line "700" (Some 700);
                Line "x" None; Line "37" (Some 37); Line "1" (Some 1)] in
  guess_loop lines 1 100 37 0 = Ok (3, [Line "1" (Some 1)]) ↔
  ∃ before l,
    lines = before ++ l :: [Line "1" (Some 1)] ∧ as_int l = Some 37 ∧
    Forall (λ x, as_int x ≠ Some 37) before ∧
    3 = 0 + Z.of_nat (length (filter (λ x, is_number x) before)) + 1.
Proof.
  intros lines. apply (guess_loop_counts lines 1 100 37 0 3 [Line "1" (Some 1)]). lia.
Defined.

(** X18. The guessing loop stops for one reason only besides a hit:
    the input ends.  It raises nothing else. *)
Theorem guess_loop_raises_eof_only (lines : list line) (min_n max_n target attempts : Z)
    (e : exn) :
  guess_loop lines min_n max_n target attempts = Raise e → e = EOFError.
Proof.
  revert attempts. induction lines as [|x lines IH]; intros attempts; cbn [guess_loop].
  - by intros [= <-].
  - destruct (as_int x) as [g|]; [|apply IH]. cbv zeta.
    destruct (_ || _); [apply IH|]. repeat case_bool_decide; try apply IH. done.
Qed.

Lemma guess_loop_raises_eof_only_witness : EOFError = EOFError.
Proof.
  apply (guess_loop_raises_eof_only [Line "50" (Some 50); Line "x" None] 1 100 37 0 EOFError).
  reflexivity.
Defined.

(** ** A session from start to exit *)

(** X19. A session that starts without a save file, or with one that
    does not parse, or with a well-formed ledger in it whose boards
    can be shown, and plays finished games until it leaves with 0,
    runs to its end.  The file then holds the ledger the session ended
    with, loading it gives that ledger back, and the tracker has
    counted the games of the session from zero. *)
Theorem main_menu_saves_session (cs : list play) (w : world) :
  disk w = Absent ∨ disk w = Garbled ∨ (∃ doc, disk w = Stored doc ∧ ledger_shown doc) →
  Forall finished cs →
  ∃ data session w',
    main_menu cs w = Ok (data, session, w') ∧
    ledger_shown data ∧
    disk w' = Stored data ∧
    read_save w' = Ok (data, w') ∧
    total_games_played session = foldr Z.add 0 (games_counted <$> cs).
Proof.
  intros Hdisk Hfin.
  assert (∃ d0 w0, read_save w = Ok (d0, w0) ∧ ledger_shown d0) as (d0 & w0 & Hread & Hok0).
  { unfold read_save. destruct Hdisk as [-> |[-> |(doc & -> & Hdoc)]].
    - eexists _, _. split; [done|]. apply BASE_SAVE_shown.
    - rewrite (ensure_keys_id _ BASE_SAVE_schema). eexists _, _. split; [done|].
      apply BASE_SAVE_shown.
    - rewrite (ensure_keys_id _ (ledger_ok_schema _ (proj1 Hdoc))). by eexists _, _. }
  destruct (play_all_returns cs d0 (SessionTracker_init None) w0 Hok0 Hfin)
    as ([data session] & w1 & Hrun & Hok).
  cbn [fst] in Hok. pose proof (play_all_tracked _ _ _ _ _ _ _ Hrun) as (_ & Htotal & _).
  exists data, session, (World (Stored data) (notices w1)). split_and!; [|done|done| |done].
  - unfold main_menu. apply M_bind_ok. exists d0, w0. split; [done|].
    apply M_bind_ok. exists (data, session), w1. by split.
  - unfold read_save. cbn [disk].
    by rewrite (ensure_keys_id _ (ledger_ok_schema _ (proj1 Hok))).
Qed.

Lemma main_menu_saves_session_witness :
  ∃ data session w',
    main_menu [sample_guess_play; sample_math_play] (World (Stored sample_ledger) [])
      = Ok (data, session, w') ∧
    ledger_shown data ∧
    disk w' = Stored data ∧
    read_save w' = Ok (data, w') ∧
    total_games_played session
      = foldr Z.add 0 (games_counted <$> [sample_guess_play; sample_math_play]).
Proof.
  apply (main_menu_saves_session [sample_guess_play; sample_math_play]
           (World (Stored sample_ledger) [])).
  - right. right. exists sample_ledger. split; [reflexivity|small_ledger_shown].
  - repeat constructor.
Defined.

(** X20. No run of plays changes a games-played counter, and none
    unlocks one of the seven cross-game achievements of the catalog:
    who holds one of them after the plays held it before. *)
Theorem cross_game_keys_never_unlocked (cs : list play) (data : value)
    (session : SessionTracker) (w : world) (data' : value) (session' : SessionTracker)
    (w' : world) (name k : string) :
  play_all cs data session w = Ok (data', session', w') →
  k ∈ ["cg_triple_threat"; "cg_grinder_50"; "cg_century_100"; "cg_top10"; "cg_champion";
       "cg_collector_10"; "cg_collector_20"]%string →
  games_played_of data' name = games_played_of data name ∧
  (VStr k ∈ achievements_of data' name → VStr k ∈ achievements_of data name).
Proof.
  intros Hrun%play_all_step Hk. destruct (Hrun name) as ((new & -> & Hnew) & _ & Hg).
  split; [done|]. intros [?|Hin]%elem_of_app; [done|].
  rewrite Forall_forall in Hnew. destruct (Hnew _ Hin) as (k' & [= <-] & Hawarded).
  repeat (apply elem_of_cons in Hk as [->|Hk]; [done|]). by apply elem_of_nil in Hk.
Qed.

Lemma cross_game_keys_never_unlocked_witness :
  games_played_of sample_guess_ledger "ann" = games_played_of sample_ledger "ann" ∧
  (VStr "cg_champion" ∈ achievements_of sample_guess_ledger "ann" →
   VStr "cg_champion" ∈ achievements_of sample_ledger "ann").
Proof.
  apply (cross_game_keys_never_unlocked [sample_guess_play] sample_ledger
           (SessionTracker_init None) (World Absent []) sample_guess_ledger
           (Session (Some "ann"%string) {["guess"%string]} 1 0 1)
           (World (Stored sample_guess_ledger) sample_guess_lines) "ann" "cg_champion").
  - reflexivity.
  - do 4 (apply elem_of_cons; right). apply elem_of_cons. by left.
Defined.

(** ** What Number Memory files *)

Lemma number_memory_loop_files rounds : ∀ p mode_choice ts max_len total_time round_no
    data session w data' session' w',
  number_memory_loop rounds p mode_choice ts max_len total_time round_no data session w
    = Ok (data', session', w') →
  ∃ d1 w1,
    at_path ["leaderboards"%string] d1 = at_path ["leaderboards"%string] data ∧
    add_leaderboard_entry d1 "number_memory" (MStr mode_choice)
      (dict [("name", VStr p);
             ("max_length", VInt (max_len + Z.of_nat (length (correct_rounds rounds)) - 1));
             ("total_time",
              VFloat (foldl fadd total_time
                        (nm_dt <$> take (S (length (correct_rounds rounds))) rounds)));
             ("ts", VInt ts)]%string)
      number_memory_sort_fn TOP_N w1 = Ok (data', w').
Proof.
  induction rounds as [|r rounds IH]; intros * Hrun; [done|].
  cbn [number_memory_loop correct_rounds] in *. cbv zeta in Hrun.
  destruct (bool_decide (nm_answer r = nm_shown r)).
  - unbind Hrun.
    apply (award_if_step (λ _, True)) in Hstep as [_ Hf1]; [|done].
    apply (award_if_step (λ _, True)) in Hstep0 as [_ Hf2]; [|done].
    apply IH in Hrun as (d1 & wn & Hlb & Hrun). exists d1, wn. split.
    + by rewrite Hlb, Hf2, Hf1.
    + cbn [length take fmap list_fmap foldl].
      by replace (max_len + Z.of_nat (S (length (correct_rounds rounds))) - 1)
        with (max_len + 1 + Z.of_nat (length (correct_rounds rounds)) - 1) by lia.
  - unbind Hrun. simplify_eq. eexists _, _. split; [done|].
    cbn [length take fmap list_fmap foldl].
    by replace (max_len + Z.of_nat 0 - 1) with (max_len - 1) by lia.
Qed.

(** X21. What a Number Memory play files, with [n] the number of
    right answers before the first wrong one: one entry, whose length
    is [start_len + n - 1] (so one less than the shortest number shown
    when the first answer is wrong) and whose time is the sum of the
    times of the [n + 1] answers given, the wrong one included, added
    up from the left as floats are, each sum rounded to the nearest
    double (the sums staying within the range of doubles).  The board
    of the mode is then the old board with this entry, sorted and cut
    to a hundred. *)
Theorem number_memory_files_streak (o : number_memory_run) (data : value)
    (session : SessionTracker) (w : world) (data' : value) (session' : SessionTracker)
    (w' : world) (lb : list value) :
  read_board data "number_memory" (MStr (nm_mode_choice o)) = Ok (VList lb) →
  sums_in_range (nm_dt <$> nm_rounds o) →
  play_game (NumberMemory o) data session w = Ok (data', session', w') →
  let n := length (correct_rounds (nm_rounds o)) in
  let entry :=
    dict [("name", VStr (nm_player o));
          ("max_length", VInt (start_len_of (nm_mode_choice o) + Z.of_nat n - 1));
          ("total_time", VFloat (foldl fadd 0%Q (nm_dt <$> take (S n) (nm_rounds o))));
          ("ts", VInt (nm_ts o))]%string in
  ∃ kl,
    decorate number_memory_sort_fn (lb ++ [entry]) = Ok kl ∧
    read_board data' "number_memory" (MStr (nm_mode_choice o))
      = Ok (VList (take 100 (sort_keyed kl).*2)).
Proof.
  intros Hread _ Hrun n entry. cbn [play_game] in Hrun. unfold play_number_memory in Hrun.
  unbind Hrun. simplify_eq.
  apply ensure_player_same in Hstep as (Hf0 & _ & _).
  apply number_memory_loop_files in Hrun as (d1 & w1 & Hlb & Hrun).
  rewrite Hf0 in Hlb by done. fold (start_len_of (nm_mode_choice o)) in Hrun.
  fold n in Hrun. fold entry in Hrun.
  assert (read_board d1 "number_memory" (MStr (nm_mode_choice o)) = Ok (VList lb)) as Hread1.
  { pose proof Hrun as (m1 & boards1 & ? & ? & ? & -> & Hm1 & _)%add_leaderboard_entry_inv.
    apply read_board_ok in Hread as (m & boards & lbs & -> & Hm & Hb & Hv).
    cbn [at_path] in Hlb. rewrite Hm1, Hm in Hlb. simpl in Hlb. injection Hlb as ->.
    apply read_board_ok. by exists m1, boards, lbs. }
  assert (∃ kl', decorate number_memory_sort_fn (lb ++ [entry]) = Ok kl') as [kl' Hkl'].
  { pose proof Hrun as (m1 & boards1 & lbs1 & lb1 & kl1 & -> & Hm1 & Hb1 & Hl1 & Hkl1 & _)
      %add_leaderboard_entry_inv.
    apply read_board_ok in Hread1 as (? & ? & lbs & [= <-] & Hm & Hb & Hv).
    rewrite Hm1 in Hm. injection Hm as <-.
    assert (lbs = lbs1) as <-.
    { destruct Hb as [[Hb ->]|Hb], Hb1 as [[Hb1 ->]|Hb1]; congruence. }
    assert (lb1 = lb) as ->; [|by eexists].
    destruct Hl1 as [[Hl1 ->]|Hl1]; rewrite Hl1 in Hv; simpl in Hv; congruence. }
  exists kl'. split; [done|].
  pose proof Hrun as (m1 & boards1 & lbs1 & lb1 & kl1 & -> & Hm1 & Hb1 & Hl1 & Hkl1 & _ & -> & _)
    %add_leaderboard_entry_inv.
  apply read_board_ok in Hread1 as (? & ? & lbs & [= <-] & Hm & Hb & Hv).
  rewrite Hm1 in Hm. injection Hm as <-.
  assert (lbs = lbs1) as <-.
  { destruct Hb as [[Hb ->]|Hb], Hb1 as [[Hb1 ->]|Hb1]; congruence. }
  assert (lb1 = lb) as ->.
  { destruct Hl1 as [[Hl1 ->]|Hl1]; rewrite Hl1 in Hv; simpl in Hv; congruence. }
  rewrite Hkl1 in Hkl'. injection Hkl' as <-.
  apply read_board_ok. eexists _, _, _. split; [done|].
  split; [by rewrite lookup_insert_eq|]. split; [right; by rewrite lookup_insert_eq|].
  rewrite lookup_insert_eq. simpl. by rewrite ?decide_True.
Qed.

Lemma number_memory_files_streak_witness :
  let o := NumberMemoryRun "ann" "hard_6"
             (replicate 5 (NmRound "123456" "123456" 2) ++ [NmRound "123456" "123465" 2])
             1005 in
  let n := length (correct_rounds (nm_rounds o)) in
  let entry :=
    dict [("name", VStr (nm_player o));
          ("max_length", VInt (start_len_of (nm_mode_choice o) + Z.of_nat n - 1));
          ("total_time", VFloat (foldl fadd 0%Q (nm_dt <$> take (S n) (nm_rounds o))));
          ("ts", VInt (nm_ts o))]%string in
  ∃ kl,
    decorate number_memory_sort_fn ([] ++ [entry]) = Ok kl ∧
    read_board sample_memory_ledger "number_memory" (MStr (nm_mode_choice o))
      = Ok (VList (take 100 (sort_keyed kl).*2)).
Proof.
  intros o.
  apply (number_memory_files_streak o sample_ledger (SessionTracker_init None)
           (World Absent []) sample_memory_ledger (Session (Some "ann"%string) ∅ 0 0 5)
           (World (Stored sample_memory_ledger) sample_memory_lines) []).
  - reflexivity.
  - intros k. do 7 (destruct k as [|k]; [by split|]). by split.
  - reflexivity.
Defined.

(** ** Word Memory *)

Lemma matches_le (l k : list string) :
  (length (filter (λ ab : string * string, ab.1 = ab.2) (zip l k)) ≤ length l)%nat.
Proof.
  etrans; [apply length_filter|]. rewrite length_zip_with. lia.
Qed.

Lemma matches_full (l : list string) : ∀ k,
  length (filter (λ ab : string * string, ab.1 = ab.2) (zip l k)) = length l ↔
  l `prefix_of` k.
Proof.
  induction l as [|a l IH]; intros [|b k]; cbn [zip zip_with length].
  - split; [intros _; apply prefix_nil|done].
  - split; [intros _; apply prefix_nil|done].
  - split; [done|]. intros ?%prefix_nil_inv. done.
  - rewrite filter_cons. cbn [fst snd]. destruct (decide (a = b)) as [->|Hne].
    + cbn [length]. split.
      * intros [= Hm]. apply prefix_cons. by apply IH.
      * intros Hp%prefix_cons_inv_2. f_equal. by apply IH.
    + pose proof (matches_le l k). split; [lia|]. by intros ?%prefix_cons_inv_1.
Qed.

(** X22. "Word Wizard" is awarded for a list of fifteen words or more
    typed back in order: the words typed have to begin with the words
    shown, one by one; what is typed after them does not count
    against the player, and a word left out or put in spoils every
    word behind it. *)
Theorem word_memory_wizard (o : word_memory_run) (session : SessionTracker) :
  Z.of_nat (length (wm_words o)) = wm_words_count o →
  (true, "wm_word_wizard"%string) ∈ award_rules (WordMemory o) session ↔
  15 ≤ wm_words_count o ∧ wm_words o `prefix_of` wm_typed o.
Proof.
  intros Hlen. cbn [award_rules]. rewrite list_elem_of_singleton, <- matches_full.
  split.
  - intros [= Hc]. symmetry in Hc. apply andb_true_iff in Hc as [Hm Hn].
    apply bool_decide_eq_true in Hm, Hn. split; [done|lia].
  - intros [Hn Hm]. f_equal. symmetry. apply andb_true_iff.
    split; apply bool_decide_eq_true; [lia|done].
Qed.

Lemma word_memory_wizard_witness :
  let words := ["apple"; "river"; "mount"; "stone"; "bridge"; "silver"; "pillow"; "planet";
                "rocket"; "banana"; "computer"; "train"; "window"; "garden";
                "shadow"]%string in
  let o := WordMemoryRun "ann" 15 words (words ++ ["market"; "mirror"]%string) 40 7 in
  (true, "wm_word_wizard"%string) ∈ award_rules (WordMemory o) (SessionTracker_init None) ↔
  15 ≤ wm_words_count o ∧ wm_words o `prefix_of` wm_typed o.
Proof.
  intros words o. apply (word_memory_wizard o (SessionTracker_init None)). reflexivity.
Defined.

(** ** The declared ranking *)

Lemma number_field_ok (e : value) (k : string) (q : Q) :
  number_field e k = Ok q ↔ ∃ v, getitem e k = Ok v ∧ as_number v = Some q.
Proof.
  unfold number_field. split.
  - intros (v & Hv & Hq%num_as_number)%result_bind_ok. by exists v.
  - intros (v & -> & Hq%num_as_number). done.
Qed.

Lemma neg_number_inv (v v' : value) :
  neg v = Ok v' → ∃ q, as_number v = Some q ∧ as_number v' = Some (- q)%Q.
Proof. destruct v as [| [] | | | | |]; simpl; intros; simplify_eq; by eexists. Qed.

(** Each comparator orders entries with numbers in the fields compared
    by the keys declared for the games it serves. *)
Lemma time_sort_fn_declared (e1 e2 k1 k2 : value) :
  time_sort_fn e1 = Ok k1 → time_sort_fn e2 = Ok k2 → is_num k1 = true → is_num k2 = true →
  py_lt k1 k2 = true ↔ ranked_before (Ranking "total_time" Asc None) e1 e2.
Proof.
  unfold time_sort_fn. intros H1 H2 [q1 Hq1]%is_num_spec [q2 Hq2]%is_num_spec.
  destruct (value_cmp_numbers k1 k2 q1 q2 Hq1 Hq2) as (E & _).
  change (py_lt k1 k2) with (value_lt k1 k2). rewrite E, num_lt_spec.
  assert (number_field e1 "total_time" = Ok q1) as F1 by (apply number_field_ok; eauto).
  assert (number_field e2 "total_time" = Ok q2) as F2 by (apply number_field_ok; eauto).
  unfold ranked_before. cbn [primary primary_order tie_break precedes]. split.
  - intros Hlt. exists q1, q2. split_and!; [done..|by left].
  - intros (p1 & p2 & G1 & G2 & [Hlt|[_ []]]). rewrite F1 in G1. rewrite F2 in G2.
    by simplify_eq.
Qed.

Lemma guess_sort_fn_ok (e : value) (k : value * value) :
  guess_sort_fn e = Ok k ↔ getitem e "attempts" = Ok k.1 ∧ getitem e "time" = Ok k.2.
Proof.
  unfold guess_sort_fn. split.
  - by intros (a & Ha & (t & Ht & [= <-])%result_bind_ok)%result_bind_ok.
  - destruct k as [a t]. intros [-> ->]. done.
Qed.

Lemma negated_sort_fn_ok (f : string) (e : value) (k : value * value) :
  (a ← getitem e f; a ← neg a; t ← getitem e "total_time"; mret (a, t)) = Ok k ↔
  ∃ a, getitem e f = Ok a ∧ neg a = Ok k.1 ∧ getitem e "total_time" = Ok k.2.
Proof.
  split.
  - intros (a & Ha & (a' & Ha' & (t & Ht & [= <-])%result_bind_ok)%result_bind_ok)
      %result_bind_ok. by exists a.
  - destruct k as [a' t]. intros (a & -> & Ha & Ht). cbn [fst snd mbind result_bind] in *.
    by rewrite Ha, Ht.
Qed.

Lemma guess_sort_fn_declared (e1 e2 : value) (k1 k2 : value * value) :
  guess_sort_fn e1 = Ok k1 → guess_sort_fn e2 = Ok k2 →
  both is_num is_num k1 = true → both is_num is_num k2 = true →
  py_lt k1 k2 = true ↔ ranked_before (Ranking "attempts" Asc (Some "time"%string)) e1 e2.
Proof.
  destruct k1 as [v1 v2], k2 as [w1 w2].
  intros [Hv1 Hv2]%guess_sort_fn_ok [Hw1 Hw2]%guess_sort_fn_ok
         [[p1 Hp1]%is_num_spec [s1 Hs1]%is_num_spec]%andb_prop
         [[p2 Hp2]%is_num_spec [s2 Hs2]%is_num_spec]%andb_prop.
  cbn [fst snd] in *.
  destruct (pair_cmp_numbers v1 v2 w1 w2 p1 s1 p2 s2) as [E _]; try done.
  assert (number_field e1 "attempts" = Ok p1) as F1 by (apply number_field_ok; eauto).
  assert (number_field e1 "time" = Ok s1) as G1 by (apply number_field_ok; eauto).
  assert (number_field e2 "attempts" = Ok p2) as F2 by (apply number_field_ok; eauto).
  assert (number_field e2 "time" = Ok s2) as G2 by (apply number_field_ok; eauto).
  rewrite E, tuple_lt_spec.
  unfold ranked_before. cbn [primary primary_order tie_break precedes]. split.
  - intros [Hlt|[Heq Hlt]].
    + exists p1, p2. split_and!; [done..|by left].
    + exists p1, p2. split_and!; [done..|]. right. split; [done|]. by exists s1, s2.
  - intros (q1 & q2 & F1' & F2' & Hcmp). rewrite F1 in F1'. rewrite F2 in F2'. simplify_eq.
    destruct Hcmp as [?|[? (t1 & t2 & G1' & G2' & ?)]]; [by left|].
    rewrite G1 in G1'. rewrite G2 in G2'. simplify_eq. by right.
Qed.

(** The negated key: longest length and correct count rank
    descending. *)
Lemma negated_sort_fn_declared (f : string) (e1 e2 : value) (k1 k2 : value * value) :
  (a ← getitem e1 f; a ← neg a; t ← getitem e1 "total_time"; mret (a, t)) = Ok k1 →
  (a ← getitem e2 f; a ← neg a; t ← getitem e2 "total_time"; mret (a, t)) = Ok k2 →
  both is_num is_num k1 = true → both is_num is_num k2 = true →
  py_lt k1 k2 = true ↔ ranked_before (Ranking f Desc (Some "total_time"%string)) e1 e2.
Proof.
  destruct k1 as [v1 v2], k2 as [w1 w2].
  intros (a1 & Ha1 & Hv1 & Hv2)%negated_sort_fn_ok (a2 & Ha2 & Hw1 & Hw2)%negated_sort_fn_ok
         [_ [s1 Hs1]%is_num_spec]%andb_prop [_ [s2 Hs2]%is_num_spec]%andb_prop.
  cbn [fst snd] in *.
  apply neg_number_inv in Hv1 as (p1 & Hp1 & Hn1), Hw1 as (p2 & Hp2 & Hn2).
  destruct (pair_cmp_numbers v1 v2 w1 w2 (- p1)%Q s1 (- p2)%Q s2) as [E _]; try done.
  assert (number_field e1 f = Ok p1) as F1 by (apply number_field_ok; eauto).
  assert (number_field e1 "total_time" = Ok s1) as G1 by (apply number_field_ok; eauto).
  assert (number_field e2 f = Ok p2) as F2 by (apply number_field_ok; eauto).
  assert (number_field e2 "total_time" = Ok s2) as G2 by (apply number_field_ok; eauto).
  rewrite E, tuple_lt_spec.
  unfold ranked_before. cbn [primary primary_order tie_break precedes]. split.
  - intros [Hlt|[Heq Hlt]].
    + exists p1, p2. split_and!; [done..|]. left. lra.
    + exists p1, p2. split_and!; [done..|]. right. split; [lra|]. by exists s1, s2.
  - intros (q1 & q2 & F1' & F2' & Hcmp). rewrite F1 in F1'. rewrite F2 in F2'. simplify_eq.
    destruct Hcmp as [?|[? (t1 & t2 & G1' & G2' & ?)]]; [left; lra|].
    rewrite G1 in G1'. rewrite G2 in G2'. simplify_eq. right. split; [lra|done].
Qed.

(** Any two entries with numbers in the declared fields are ranked
    one before the other, or tie on all declared keys. *)
Lemma ranked_total (r : ranking) (e1 e2 : value) :
  is_ok (number_field e1 (primary r)) → is_ok (number_field e2 (primary r)) →
  (∀ k, tie_break r = Some k → is_ok (number_field e1 k) ∧ is_ok (number_field e2 k)) →
  ranked_before r e1 e2 ∨ ties r e1 e2 ∨ ranked_before r e2 e1.
Proof.
  intros [p1 H1] [p2 H2] Hties. unfold ranked_before, ties.
  destruct (Q_dec p1 p2) as [[Hlt|Hgt]|Heq].
  - destruct (primary_order r) eqn:Hd.
    + left. exists p1, p2. split_and!; [done..|by left].
    + right; right. exists p2, p1. split_and!; [done..|by left].
  - destruct (primary_order r) eqn:Hd.
    + right; right. exists p2, p1. split_and!; [done..|by left].
    + left. exists p1, p2. split_and!; [done..|by left].
  - destruct (tie_break r) as [k|] eqn:Hk.
    + destruct (Hties k eq_refl) as [[t1 G1] [t2 G2]].
      destruct (Q_dec t1 t2) as [[Hlt|Hgt]|Heq'].
      * left. exists p1, p2. split_and!; [done..|]. right. split; [done|]. by exists t1, t2.
      * right; right. exists p2, p1. split_and!; [done..|]. right.
        split; [by symmetry|]. by exists t2, t1.
      * right; left. exists p1, p2. split_and!; [done..|]. by exists t1, t2.
    + right; left. by exists p1, p2.
Qed.

Lemma keyed_time_fields (e : value) :
  keyed_in time_sort_fn is_num e → is_ok (number_field e "total_time").
Proof.
  intros (k & Hk & [q Hq]%is_num_spec). exists q. apply number_field_ok. by exists k.
Qed.

Lemma keyed_guess_fields (e : value) :
  keyed_in guess_sort_fn (both is_num is_num) e →
  is_ok (number_field e "attempts") ∧ is_ok (number_field e "time").
Proof.
  intros ([a t] & [Ha Ht]%guess_sort_fn_ok & [[p Hp]%is_num_spec [s Hs]%is_num_spec]%andb_prop).
  cbn [fst snd] in *. split; eexists; apply number_field_ok; eauto.
Qed.

Lemma keyed_negated_fields (f : string) (e : value) :
  keyed_in (λ r, a ← getitem r f; a ← neg a; t ← getitem r "total_time"; mret (a, t))
           (both is_num is_num) e →
  is_ok (number_field e f) ∧ is_ok (number_field e "total_time").
Proof.
  intros ([a' t] & (a & Ha & Hneg & Ht)%negated_sort_fn_ok & [_ [s Hs]%is_num_spec]%andb_prop).
  cbn [fst snd] in *. apply neg_number_inv in Hneg as (p & Hp & _).
  split; eexists; apply number_field_ok; eauto.
Qed.

Section declared.
Context `{PyOrd K} (P : K → bool) (HP : orders P) (sort_fn : value → result K) (r : ranking).
Context (Hkey : ∀ e1 e2 k1 k2, sort_fn e1 = Ok k1 → sort_fn e2 = Ok k2 →
                  P k1 = true → P k2 = true →
                  py_lt k1 k2 = true ↔ ranked_before r e1 e2).

(** A board in the declared order is in the order of the keys. *)
Lemma declared_order_ranked lb :
  Forall (keyed_in sort_fn P) lb →
  StronglySorted (λ x y, ¬ ranked_before r y x) lb → ranked sort_fn lb.
Proof.
  intros Hlb Hs. destruct (decorate_total_in P sort_fn lb Hlb) as (kl & Hkl & HPkl).
  exists kl. split; [done|]. apply decorate_inv in Hkl as [<- Hkeyed].
  clear Hlb. induction kl as [|[k v] kl IH]; [constructor|].
  rewrite fmap_cons in Hs. apply StronglySorted_cons in Hs as [Hhd Hs].
  apply Forall_cons in HPkl as [HPk HPkl]. apply Forall_cons in Hkeyed as [Hk Hkeyed].
  apply StronglySorted_cons. split; [|by apply IH].
  rewrite Forall_fmap in Hhd. rewrite Forall_forall in Hhd, HPkl, Hkeyed |- *.
  intros [k' v'] Hin. unfold key_le. cbn [fst snd].
  destruct (py_lt k' k) eqn:E; [|done]. exfalso.
  apply (Hhd _ Hin). cbn [compose snd]. apply (Hkey v' v k' k); try done.
  - by apply (Hkeyed _ Hin).
  - by apply (HPkl _ Hin).
Qed.

(** Into a board in the declared order the new entry goes behind
    every entry that it is not ranked before. *)
Lemma add_leaderboard_entry_declared data game_key mode_key entry w lb data' w' :
  read_board data game_key mode_key = Ok (VList lb) →
  Forall (keyed_in sort_fn P) lb → keyed_in sort_fn P entry →
  StronglySorted (λ x y, ¬ ranked_before r y x) lb →
  add_leaderboard_entry data game_key mode_key entry sort_fn TOP_N w = Ok (data', w') →
  ∃ before after, lb = before ++ after ∧
    read_board data' game_key mode_key = Ok (VList (take 100 (before ++ entry :: after))) ∧
    Forall (λ x, ¬ ranked_before r entry x) before ∧
    Forall (λ x, ranked_before r entry x) after.
Proof.
  intros Hread Hlb (k & Hk & HPk) Hs Hrun.
  destruct (add_leaderboard_entry_place P HP sort_fn data game_key mode_key entry k w lb)
    as (data'' & before & after & Hrun' & -> & Hread' & Hb & Ha); try done.
  { by apply declared_order_ranked. }
  rewrite Hrun in Hrun'. injection Hrun' as -> _.
  exists before, after. split; [done|]. split; [done|].
  apply Forall_app in Hlb as [Hlb1 Hlb2]. split.
  - rewrite Forall_forall in Hb, Hlb1 |- *. intros x Hx.
    destruct (Hb x Hx) as (kx & Hkx & Hlt). destruct (Hlb1 x Hx) as (kx' & Hkx' & HPx).
    rewrite Hkx in Hkx'. injection Hkx' as <-.
    intros Hrb. apply (Hkey entry x k kx) in Hrb; try done. congruence.
  - rewrite Forall_forall in Ha, Hlb2 |- *. intros x Hx.
    destruct (Ha x Hx) as (kx & Hkx & Hlt). destruct (Hlb2 x Hx) as (kx' & Hkx' & HPx).
    rewrite Hkx in Hkx'. injection Hkx' as <-.
    by apply (Hkey entry x k kx).
Qed.
End declared.

Lemma read_board_same data data' game_key mode_key v :
  at_path ["leaderboards"%string] data' = at_path ["leaderboards"%string] data →
  read_board data game_key mode_key = Ok v → read_board data' game_key mode_key = Ok v.
Proof.
  intros E (m & boards & lbs & -> & Hm & Hb & ->)%read_board_ok.
  cbn [at_path] in E. rewrite Hm in E. cbn [mbind option_bind] in E.
  destruct data'; try done. cbn [at_path] in E.
  match type of E with context [?m' !! _] => destruct (m' !! "leaderboards") eqn:Hm' end;
    [|done]. cbn [mbind option_bind] in E. injection E as ->.
  apply read_board_ok. by eexists _, boards, lbs.
Qed.

Lemma ledger_ok_board data game_key mode_key lb :
  ledger_ok data → read_board data game_key mode_key = Ok (VList lb) →
  Forall (entry_ok game_key) lb.
Proof.
  intros (m & boards & players & -> & Hb & Hp & Hkeys & Hboards & _)
         (m' & boards' & lbs & [= <-] & Hm & Hg & Hv)%read_board_ok.
  rewrite Hb in Hm. injection Hm as <-.
  destruct Hg as [[_ ->]|Hg].
  - rewrite lookup_empty in Hv. cbn in Hv. injection Hv as ->. constructor.
  - destruct (Hboards _ _ Hg) as (? & [= <-] & Hmodes).
    destruct (lbs !! py_str mode_key) as [v|] eqn:E; cbn in Hv;
      [|injection Hv as ->; constructor].
    subst. by destruct (Hmodes _ _ E) as (? & [= <-] & ?).
Qed.

Lemma award_if_boards c data p ach_key w data' w' :
  award_if c data p ach_key w = Ok (data', w') →
  at_path ["leaderboards"%string] data' = at_path ["leaderboards"%string] data.
Proof.
  unfold award_if. destruct c; [apply award_achievement_boards|].
  by intros [-> _]%M_ret_ok.
Qed.

Ltac boards_kept :=
  repeat match goal with
  | H : award_if _ _ _ _ _ = Ok _ |- _ => apply award_if_boards in H
  | H : ensure_player _ _ = Ok _ |- _ => apply ensure_player_boards in H
  end; congruence.

Ltac has_filed :=
  match goal with
  | H : add_leaderboard_entry ?d _ _ ?e _ _ ?w1 = Ok (_, ?w2) |- _ =>
      exists d, w1, e, w2; split_and!; [boards_kept|reflexivity|entry_has_key|exact H]
  end.

(** The insert that a recorded play makes: into the board of its game
    and mode, with the comparator of the game, of an entry that
    carries the player's name. *)
Lemma play_game_files c data session w data' session' w' :
  ¬ imperfect c →
  play_game c data session w = Ok (data', session', w') →
  ∃ d1 w1 entry w2,
    at_path ["leaderboards"%string] d1 = at_path ["leaderboards"%string] data ∧
    at_path ["name"%string] entry = Some (VStr (player_of c)) ∧
    entry_ok (game_key_of c) entry ∧
    match c with
    | GuessTheNumber _ =>
        add_leaderboard_entry d1 (game_key_of c) (MStr (mode_key_of c)) entry
          guess_sort_fn TOP_N w1
    | NumberMemory _ =>
        add_leaderboard_entry d1 (game_key_of c) (MStr (mode_key_of c)) entry
          number_memory_sort_fn TOP_N w1
    | WordMemory _ =>
        add_leaderboard_entry d1 (game_key_of c) (MStr (mode_key_of c)) entry
          word_memory_sort_fn TOP_N w1
    | _ =>
        add_leaderboard_entry d1 (game_key_of c) (MStr (mode_key_of c)) entry
          time_sort_fn TOP_N w1
    end = Ok (data', w2).
Proof.
  intros Himp Hrun. destruct c as [o|o|o|o|o|o|o];
    cbn [play_game player_of game_key_of mode_key_of imperfect] in *.
  - unfold play_guess_the_number in Hrun. unbind Hrun. simplify_eq. has_filed.
  - unfold play_reaction in Hrun. rewrite reaction_rounds_fold in Hrun.
    unbind Hrun. simplify_eq. has_filed.
  - unfold play_gibberish in Hrun. unbind Hrun.
    case_bool_decide; [|by destruct Himp]. unbind Hrun. simplify_eq. has_filed.
  - unfold play_number_memory in Hrun. unbind Hrun. simplify_eq.
    apply number_memory_loop_files in Hrun as (d1 & w1 & Hlb & Hrun). has_filed.
  - unfold play_sequence_tap in Hrun. unbind Hrun.
    case_bool_decide; [|by destruct Himp]. unbind Hstep0. simplify_eq. has_filed.
  - unfold play_word_memory in Hrun. unbind Hrun. simplify_eq. has_filed.
  - unfold play_math_speed in Hrun. unbind Hrun. simplify_eq. has_filed.
Qed.

Ltac ranks_with Hdeclared :=
  match goal with
  | Hlb : Forall (entry_ok ?g) _, Hentry : entry_ok ?g ?entry,
    Hadd : add_leaderboard_entry _ ?g _ ?entry ?f _ _ = Ok _ |- _ =>
      let Hfn := fresh "Hfn" in
      assert (∀ e, entry_ok g e ↔ keyed_in f (both is_num is_num) e) as Hfn
        by sort_fn_of_game;
      eapply (add_leaderboard_entry_declared (both is_num is_num) number_pairs_ordered
                f _ Hdeclared);
      [ eassumption
      | eapply Forall_impl; [exact Hlb|]; intros ?; apply Hfn
      | by apply Hfn
      | eassumption
      | exact Hadd ]
  end.

Ltac ranks_by_time :=
  match goal with
  | Hlb : Forall (entry_ok ?g) _, Hentry : entry_ok ?g ?entry,
    Hadd : add_leaderboard_entry _ ?g _ ?entry time_sort_fn _ _ = Ok _ |- _ =>
      let Hfn := fresh "Hfn" in
      assert (∀ e, entry_ok g e ↔ keyed_in time_sort_fn is_num e) as Hfn
        by sort_fn_of_game;
      eapply (add_leaderboard_entry_declared is_num numbers_ordered
                time_sort_fn _ time_sort_fn_declared);
      [ eassumption
      | eapply Forall_impl; [exact Hlb|]; intros ?; apply Hfn
      | by apply Hfn
      | eassumption
      | exact Hadd ]
  end.

(** C6, as the code has it.  The comparator of every game ranks
    entries by the keys that the specification declares for the game:
    by the primary key in its direction and, where a tie-break is
    declared, by it among entries equal on the primary key.  Of two
    entries with numbers in these fields one is ranked before the
    other, or they tie on all declared keys.  Ties are settled by
    arrival: a recorded play on a board in the declared order puts its
    entry, which carries the player's name, behind every stored entry
    that it is not ranked before, the ones it ties with among them,
    and in front of the rest, and the board is cut to a hundred. *)
Theorem ranking_by_keys_then_arrival (c : play) (data : value) (session : SessionTracker)
    (w : world) (lb : list value) :
  let r := declared_ranking c in
  ledger_shown data → finished c → ¬ imperfect c →
  read_board data (game_key_of c) (MStr (mode_key_of c)) = Ok (VList lb) →
  StronglySorted (λ x y, ¬ ranked_before r y x) lb →
  (∀ e1 e2, entry_ok (game_key_of c) e1 → entry_ok (game_key_of c) e2 →
     ranked_before r e1 e2 ∨ ties r e1 e2 ∨ ranked_before r e2 e1) ∧
  ∃ data' session' w' entry before after,
    play_game c data session w = Ok (data', session', w') ∧
    at_path ["name"%string] entry = Some (VStr (player_of c)) ∧
    lb = before ++ after ∧
    read_board data' (game_key_of c) (MStr (mode_key_of c))
      = Ok (VList (take 100 (before ++ entry :: after))) ∧
    Forall (λ x, ¬ ranked_before r entry x) before ∧
    Forall (λ x, ranked_before r entry x) after.
Proof.
  intros r Hshown Hfin Himp Hread Hsorted. split.
  - intros e1 e2 H1 H2. apply ranked_total; subst r;
      destruct c; cbn [declared_ranking game_key_of primary tie_break] in *;
      unfold entry_ok in H1, H2;
      repeat (rewrite decide_False in H1, H2 by done);
      rewrite ?(decide_True (P:=_ = _)) in H1, H2 by done;
      first [ by apply keyed_time_fields
            | by apply keyed_guess_fields
            | by apply (keyed_negated_fields "max_length")
            | by apply (keyed_negated_fields "correct")
            | intros k [= <-]; split;
              first [ by apply keyed_guess_fields
                    | by apply (keyed_negated_fields "max_length")
                    | by apply (keyed_negated_fields "correct") ]
            | done ].
  - destruct (play_game_returns c data session w Hshown Hfin)
      as ([data' session'] & w' & Hrun & _).
    destruct (play_game_files _ _ _ _ _ _ _ Himp Hrun)
      as (d1 & w1 & entry & w2 & Hkept & Hname & Hentry & Hadd).
    pose proof (read_board_same _ _ _ _ _ Hkept Hread) as Hread1.
    pose proof (ledger_ok_board _ _ _ _ (proj1 Hshown) Hread) as Hlb.
    exists data', session', w', entry.
    enough (∃ before after, lb = before ++ after ∧
              read_board data' (game_key_of c) (MStr (mode_key_of c))
                = Ok (VList (take 100 (before ++ entry :: after))) ∧
              Forall (λ x, ¬ ranked_before r entry x) before ∧
              Forall (λ x, ranked_before r entry x) after)
      as (before & after & ?); [by exists before, after|].
    subst r. destruct c; cbn [declared_ranking game_key_of mode_key_of] in *.
    + ranks_with guess_sort_fn_declared.
    + ranks_by_time.
    + ranks_by_time.
    + ranks_with (negated_sort_fn_declared "max_length").
    + ranks_by_time.
    + ranks_with (negated_sort_fn_declared "correct").
    + ranks_by_time.
Qed.

Lemma sample_math_ledger_shown : ledger_shown sample_math_ledger.
Proof.
  destruct (play_game_returns sample_math_play sample_ledger (SessionTracker_init None)
              (World Absent [])) as ([d s] & w' & Hrun & Hok); [small_ledger_shown|exact I|].
  assert (play_game sample_math_play sample_ledger (SessionTracker_init None) (World Absent [])
          = Ok (sample_math_ledger, Session (Some "bob"%string) ∅ 0 0 1,
                World (Stored sample_math_ledger) sample_math_lines)) as E by reflexivity.
  rewrite E in Hrun. by injection Hrun as <- _ _.
Qed.

Lemma ranking_by_keys_then_arrival_witness :
  let bob := dict [("name", VStr "bob"); ("total_time", VFloat 20);
                   ("problems", VInt 50); ("ts", VInt 11)]%string in
  let r := declared_ranking sample_tie_play in
  (∀ e1 e2, entry_ok (game_key_of sample_tie_play) e1 →
     entry_ok (game_key_of sample_tie_play) e2 →
     ranked_before r e1 e2 ∨ ties r e1 e2 ∨ ranked_before r e2 e1) ∧
  ∃ data' session' w' entry before after,
    play_game sample_tie_play sample_math_ledger (SessionTracker_init None) (World Absent [])
      = Ok (data', session', w') ∧
    at_path ["name"%string] entry = Some (VStr (player_of sample_tie_play)) ∧
    [bob] = before ++ after ∧
    read_board data' (game_key_of sample_tie_play) (MStr (mode_key_of sample_tie_play))
      = Ok (VList (take 100 (before ++ entry :: after))) ∧
    Forall (λ x, ¬ ranked_before r entry x) before ∧
    Forall (λ x, ranked_before r entry x) after.
Proof.
  intros bob r.
  apply (ranking_by_keys_then_arrival sample_tie_play sample_math_ledger
           (SessionTracker_init None) (World Absent []) [bob]).
  - exact sample_math_ledger_shown.
  - exact I.
  - intros Himp. exact Himp.
  - reflexivity.
  - repeat constructor.
Defined.

(** C6, as stated, fails on the Reaction comparator: two different
    entries with the same total time tie under it, and which of them
    ranks first is decided by which was inserted first. *)
Lemma reaction_ties_follow_insertion_order :
  ¬ strict_total_on_entries time_sort_fn ∧ ¬ insertion_order_free time_sort_fn.
Proof.
  pose (ann := dict [("name", VStr "ann"); ("total_time", VFloat (3 # 2)); ("ts", VInt 1)]%string).
  pose (bob := dict [("name", VStr "bob"); ("total_time", VFloat (3 # 2)); ("ts", VInt 2)]%string).
  assert (ann ≠ bob) as Hne.
  { intros E. apply (f_equal (λ v, getitem v "name")) in E. discriminate E. }
  split.
  - intros Htotal.
    destruct (Htotal ann bob (VFloat (3 # 2)) (VFloat (3 # 2)) eq_refl eq_refl Hne);
      discriminate.
  - intros Hfree.
    pose proof (Hfree BASE_SAVE "reaction_game"%string (MInt 5) ann bob (World Absent [])
                  _ _ _ _ eq_refl eq_refl) as E.
    apply (f_equal (λ r, match r with Ok (VList (x :: _)) => Some x | _ => None end)) in E.
    injection E as E. done.
Qed.
